(** * API puller: request orchestration, processor registry and OAuth token cache

    A shallow embedding of the Python sources under
    [lfab_coemon_api_puller/bin/utils]:

    - [api_handler.py]      ([APIHandler]: [_prepare_headers], [_get_auth],
                             [_save_response], [call_single_api],
                             [call_nested_apis]),
    - [process_registry.py] ([ProcessorRegistry]: [register_*], [run_*]),
    - [oauth_handler.py]    ([OAuthHandler]: [get_token], [_request_new_token]),
    - [processors.py]       ([preprocess_add_headers], in the model of
                             configurations as shared objects).

    Python values are JSON-shaped data; effects (transport calls, file
    writes, logging, sleeping, the clock, the token endpoint) are threaded
    through a state-and-exception monad whose state records a trace of
    events.  The environment (HTTP server, file system, clock) is a
    record of oracles, so every statement below holds for every behaviour
    of the environment. *)

From Stdlib Require Import ZArith Ascii String List Bool Lia DecimalString.
From stdpp Require Import gmap strings list.
Import ListNotations.
Local Open Scope Z_scope.
Set Warnings "-register-all".

(** ** Python strings

    [str] values are modelled by [string]; the characters are the bytes of
    the text.  [+:+] is concatenation. *)

Module PyStr.

Definition dquote : ascii := ascii_of_nat 34.
Definition squote : ascii := ascii_of_nat 39.
Definition backslash : ascii := ascii_of_nat 92.

Definition ascii_eqb (a b : ascii) : bool := Ascii.eqb a b.

(** [s.startswith(p)] *)
Fixpoint startswith (p s : string) : bool :=
  match p with
  | EmptyString => true
  | String a p' =>
      match s with
      | EmptyString => false
      | String b s' => ascii_eqb a b && startswith p' s'
      end
  end.

(** [sub in s] *)
Fixpoint str_in (sub s : string) : bool :=
  startswith sub s ||
  match s with
  | EmptyString => false
  | String _ s' => str_in sub s'
  end.

(** [s.replace(old, new)] for a non-empty [old] (every use in the source has
    one): occurrences are replaced from the left, without overlap.  [skip]
    counts the characters of a matched occurrence still to be dropped. *)
Fixpoint replace_from (old new : string) (skip : nat) (s : string) : string :=
  match s with
  | EmptyString => EmptyString
  | String c s' =>
      match skip with
      | S k => replace_from old new k s'
      | O =>
          if startswith old s
          then new +:+ replace_from old new (Nat.pred (String.length old)) s'
          else String c (replace_from old new O s')
      end
  end.

Definition replace (old new s : string) : string := replace_from old new O s.

(** [s.split(sep)] for a one-character separator; the result is never
    empty.  [cur] is the current field, reversed. *)
Fixpoint split_from (sep : ascii) (cur : string) (s : string) : list string :=
  match s with
  | EmptyString => [String.rev cur]
  | String c s' =>
      if ascii_eqb c sep
      then String.rev cur :: split_from sep EmptyString s'
      else split_from sep (String c cur) s'
  end.

Definition split (sep : ascii) (s : string) : list string :=
  split_from sep EmptyString s.

(** [l[-1]] of a list known to be non-empty; [d] is never returned for
    the result of [split]. *)
Definition last_or (d : string) (l : list string) : string := List.last l d.

Definition is_digit (c : ascii) : bool :=
  let n := nat_of_ascii c in (48 <=? n)%nat && (n <=? 57)%nat.

Fixpoint all_digits (s : string) : bool :=
  match s with
  | EmptyString => true
  | String c s' => is_digit c && all_digits s'
  end.

(** [s.isdigit()] on ASCII text *)
Definition isdigit (s : string) : bool :=
  match s with
  | EmptyString => false
  | _ => all_digits s
  end.

Fixpoint int_from (acc : nat) (s : string) : nat :=
  match s with
  | EmptyString => acc
  | String c s' => int_from (10 * acc + (nat_of_ascii c - 48))%nat s'
  end.

(** [int(s)] for a string of decimal digits *)
Definition int_of (s : string) : nat := int_from O s.

Definition upper_char (c : ascii) : ascii :=
  let n := nat_of_ascii c in
  if (97 <=? n)%nat && (n <=? 122)%nat then ascii_of_nat (n - 32) else c.

Definition lower_char (c : ascii) : ascii :=
  let n := nat_of_ascii c in
  if (65 <=? n)%nat && (n <=? 90)%nat then ascii_of_nat (n + 32) else c.

Fixpoint map_chars (f : ascii -> ascii) (s : string) : string :=
  match s with
  | EmptyString => EmptyString
  | String c s' => String (f c) (map_chars f s')
  end.

Definition upper : string -> string := map_chars upper_char.
Definition lower : string -> string := map_chars lower_char.

(** [sep.join(l)] *)
Fixpoint join (sep : string) (l : list string) : string :=
  match l with
  | [] => EmptyString
  | x :: r =>
      match r with
      | [] => x
      | _ => x +:+ sep +:+ join sep r
      end
  end.

(** the characters of a string, as one-character strings (iteration over
    a [str]) *)
Fixpoint chars (s : string) : list string :=
  match s with
  | EmptyString => []
  | String c s' => String c EmptyString :: chars s'
  end.

(** [str(n)] for an [int] *)
Definition str_of_Z (z : Z) : string := NilZero.string_of_int (Z.to_int z).

Definition hex_digit (n : nat) : ascii :=
  if (n <? 10)%nat then ascii_of_nat (48 + n) else ascii_of_nat (87 + n).

(** [repr(s)] for a [str]: single quotes unless the text has a single
    quote and no double quote; backslash, the quote, and control
    characters are escaped.  Bytes above 127 are copied through. *)
Definition repr_quote (s : string) : ascii :=
  if str_in (String squote EmptyString) s
     && negb (str_in (String dquote EmptyString) s)
  then dquote else squote.

Definition repr_char (q c : ascii) : string :=
  let n := nat_of_ascii c in
  if ascii_eqb c q || ascii_eqb c backslash
  then String backslash (String c EmptyString)
  else if (n =? 10)%nat then String backslash "n"
  else if (n =? 13)%nat then String backslash "r"
  else if (n =? 9)%nat then String backslash "t"
  else if (n <? 32)%nat || (n =? 127)%nat
  then String backslash
         (String "x" (String (hex_digit (n / 16))
                        (String (hex_digit (n mod 16)) EmptyString)))
  else String c EmptyString.

Fixpoint repr_body (q : ascii) (s : string) : string :=
  match s with
  | EmptyString => EmptyString
  | String c s' => repr_char q c +:+ repr_body q s'
  end.

Definition repr (s : string) : string :=
  let q := repr_quote s in
  String q (repr_body q s +:+ String q EmptyString).

End PyStr.

(** ** Python values

    The values that flow through the handler are those of a parsed JSON
    document: [None], [bool], [int], [str], [list] and [dict] with string
    keys.  A [dict] keeps its insertion order, which decides the order of
    [items()], so it is an association list; its keys are distinct.
    Numbers with a fractional part are outside the embedding. *)

Inductive json : Type :=
| JNull
| JBool (b : bool)
| JInt (z : Z)
| JStr (s : string)
| JList (l : list json)
| JDict (d : list (string * json)).

Abbreviation dict := (list (string * json)).

Module Py.
Import PyStr.

(** [repr(v)] *)
Fixpoint repr_json (v : json) : string :=
  match v with
  | JNull => "None"
  | JBool true => "True"
  | JBool false => "False"
  | JInt z => str_of_Z z
  | JStr s => repr s
  | JList l =>
      "[" +:+
      (fix elems (l : list json) : string :=
         match l with
         | [] => EmptyString
         | x :: r =>
             match r with
             | [] => repr_json x
             | _ => repr_json x +:+ ", " +:+ elems r
             end
         end) l +:+ "]"
  | JDict d =>
      "{" +:+
      (fix entries (d : list (string * json)) : string :=
         match d with
         | [] => EmptyString
         | (k, x) :: r =>
             match r with
             | [] => repr k +:+ ": " +:+ repr_json x
             | _ => repr k +:+ ": " +:+ repr_json x +:+ ", " +:+ entries r
             end
         end) d +:+ "}"
  end.

(** [str(v)], also what an f-string field prints *)
Definition str (v : json) : string :=
  match v with
  | JStr s => s
  | _ => repr_json v
  end.

(** truth value of [v] in a condition *)
Definition truthy (v : json) : bool :=
  match v with
  | JNull => false
  | JBool b => b
  | JInt z => negb (z =? 0)
  | JStr s => negb (String.eqb s EmptyString)
  | JList l => match l with [] => false | _ => true end
  | JDict d => match d with [] => false | _ => true end
  end.

Definition is_none (v : json) : bool :=
  match v with JNull => true | _ => false end.

(** [d.get(k)]: [None] of the option is the absent key *)
Fixpoint dict_get (d : dict) (k : string) : option json :=
  match d with
  | [] => None
  | (k', v) :: r => if String.eqb k' k then Some v else dict_get r k
  end.

(** [k in d] *)
Definition dict_has (d : dict) (k : string) : bool :=
  match dict_get d k with Some _ => true | None => false end.

(** [d[k] = v]: an existing key keeps its position, a new key goes last *)
Fixpoint dict_set (d : dict) (k : string) (v : json) : dict :=
  match d with
  | [] => [(k, v)]
  | (k', v') :: r =>
      if String.eqb k' k then (k, v) :: r else (k', v') :: dict_set r k v
  end.

(** [d.update(o)] *)
Definition dict_update (d o : dict) : dict :=
  fold_left (fun acc kv => dict_set acc (fst kv) (snd kv)) o d.

End Py.

(** ** Responses, requests and configuration *)

(** A [requests.Response]: [json_body] is what [.json()] returns, [None]
    when it raises [ValueError] (the body is not a JSON document). *)
Record Response : Type := {
  status_code : Z;
  text : string;
  json_body : option json
}.

(** [bool(response)] is [response.ok]: no 4xx or 5xx status. *)
Definition response_ok (r : Response) : bool :=
  negb ((400 <=? status_code r) && (status_code r <? 600)).

(** What a postprocessor may hand on: JSON-shaped data, or the response
    object itself. *)
Inductive pyval : Type :=
| PJ (v : json)
| PResp (r : Response).

Definition pyval_str (v : pyval) : string :=
  match v with
  | PJ j => Py.str j
  | PResp r => "<Response [" +:+ PyStr.str_of_Z (status_code r) +:+ "]>"
  end.

Definition pyval_truthy (v : pyval) : bool :=
  match v with
  | PJ j => Py.truthy j
  | PResp r => response_ok r
  end.

Definition pyval_is_none (v : pyval) : bool :=
  match v with
  | PJ j => Py.is_none j
  | PResp _ => false
  end.

(** The [preprocess], [postprocess] and [output] entries of an API
    configuration: [{"name": ..., "args": {...}}]. *)
Record hook : Type := {
  hook_name : option string;
  hook_args : option dict
}.

(** An API configuration, with the keys of [call_single_api]'s docstring
    (and [items_path] of a parent).  A field is [None] when the key is
    absent, so that the defaults of the source's [.get(key, default)] are
    applied where the source applies them. *)
Record api_config : Type := {
  url : option string;
  method : option string;
  params : option dict;
  headers : option dict;
  body : option json;
  verify : option json;
  interval : option Z;
  items_path : option string;
  preprocess : option hook;
  postprocess : option hook;
  output : option hook
}.

(** [child_api["url"] = u] on the working copy *)
Definition set_url (c : api_config) (u : string) : api_config :=
  {| url := Some u; method := method c; params := params c;
     headers := headers c; body := body c; verify := verify c;
     interval := interval c; items_path := items_path c;
     preprocess := preprocess c; postprocess := postprocess c;
     output := output c |}.

(** The arguments of [session.request]. *)
Record request : Type := {
  rq_method : string;
  rq_url : option string;
  rq_params : dict;
  rq_headers : dict;
  rq_json : option json;
  rq_auth : option (json * json);
  rq_proxies : option dict;
  rq_verify : json;
  rq_timeout : Z
}.

(** The arguments of the [requests.post] of a token refresh. *)
Record token_request : Type := {
  tk_url : json;
  tk_data : dict;
  tk_headers : dict;
  tk_verify : json
}.

(** [self.auth_handler], as [main] builds it: the dictionary
    [{"type": "basic", "username": ..., "password": ...}], the dictionary
    [{"type": "bearer", "token": ...}], or an [OAuthHandler]. *)
Inductive auth_handler : Type :=
| AuthBasic (username password : json)
| AuthBearer (bearer_token : json)
| AuthOAuth (client_id client_secret token_url oauth_verify : json).

(** The fields of an [APIHandler] set by [__init__]. *)
Record handler : Type := {
  h_auth : auth_handler;
  h_proxies : option dict;
  h_verify : json
}.

(** [APIHandler.__init__] *)
Definition mk_handler (auth : auth_handler) (vfy : json) (proxy : json) : handler :=
  {| h_auth := auth;
     h_proxies := if Py.truthy proxy
                  then Some [("http"%string, proxy); ("https"%string, proxy)]
                  else None;
     h_verify := vfy |}.

(** ** Registered processors

    A registered function is arbitrary Python.  The embedding keeps what
    the handler can observe of one invocation: the value returned, or that
    an [Exception] was raised. *)

Inductive outcome (A : Type) : Type :=
| Returns (a : A)
| Throws.
Arguments Returns {A} a.
Arguments Throws {A}.

(** [(api_config, **kwargs) -> config]; the inner [None] is a Python
    [None] result. *)
Definition preprocessor : Type := api_config -> dict -> outcome (option api_config).
(** [(response, **kwargs) -> data] *)
Definition postprocessor : Type := Response -> dict -> outcome pyval.
(** [(data, endpoint, **kwargs) -> success] *)
Definition output_processor : Type := pyval -> option string -> dict -> outcome pyval.

(** [ProcessorRegistry]: three name spaces. *)
Record registry : Type := {
  preprocessors : gmap string preprocessor;
  postprocessors : gmap string postprocessor;
  output_processors : gmap string output_processor
}.

(** ** Events, environment and state *)

Inductive level : Type := DEBUG | INFO | WARNING | ERROR.

(** One constructor per [logging] call of the embedded functions, with the
    values the message prints. *)
Inductive logmsg : Type :=
| OverridingProcessor (kind name : string)
| RegisteredProcessor (kind name : string)
| PreprocessorNotFound (name : string)
| ErrorRunningPreprocessor (name : string)
| PostprocessorNotFound (name : string)
| ErrorRunningPostprocessor (name : string)
| OutputProcessorNotFound (name : string)
| ErrorRunningOutputProcessor (name : string)
| ResponseSaved (is_error : bool) (endpoint : string) (filename : string)
| FailedToSave (is_error : bool) (endpoint : string)
| RunningPreprocessor (name : string)
| Calling (method : string) (url : option string)
| ResponseStatus (status : Z)
| RunningPostprocessor (name : string)
| PostprocessorReturnedNone (name : string)
| RunningOutputProcessor (name : string)
| ErrorCalling (url : option string)
| FailedParent (url : option string)
| ParentResponse (parent_data : json)
| IndexOutOfRange (idx : nat)
| CannotFind (part items_path : string)
| ProcessingList (n : nat)
| ProcessingDictionary
| ProcessingPrimitive (target : json) (key_name : string)
| ItemNotDictionary (item : json)
| ProcessingItem (item : dict)
| PlaceholdersNotReplaced (url : string)
| UnresolvedPlaceholders (url : string)
| CallingChild (url original_url : string)
| ErrorNested
| Traceback
| RequestingToken (token_url : json)
| TokenObtained (expires_in : json)
| TokenFailed (status : Z) (body : string)
| TokenError.

(** What [f.write] or [json.dump(data, f, indent=2)] puts in a file. *)
Inductive content : Type :=
| CText (s : string)
| CJsonDump (v : json).

Inductive event : Type :=
| EvLog (l : level) (m : logmsg)
| EvRequest (rq : request)              (* [session.request(...)] is issued *)
| EvTokenPost (rq : token_request)      (* [requests.post(token_url, ...)] *)
| EvMakedirs                            (* [os.makedirs(log_dir)] *)
| EvOpen (filename : string)            (* [open(file_path, 'w')] succeeded *)
| EvWrite (filename : string) (c : content)   (* a write that succeeded *)
| EvPre (name : string)                 (* a registered preprocessor runs *)
| EvPost (name : string)                (* a registered postprocessor runs *)
| EvOut (name : string)                 (* a registered output processor runs *)
| EvSleep (seconds : Z).                (* [time.sleep] *)

(** The environment.  Each oracle is asked with the number of earlier
    questions of its kind, so it may answer the same question differently
    over time.  [None] and [false] stand for a raised exception.  Times are
    microseconds; [datetime] and [timedelta] arithmetic is exact integer
    arithmetic (no [OverflowError] at the ends of their ranges). *)
Record env : Type := {
  transport : nat -> request -> option Response;
  token_endpoint : nat -> token_request -> option Response;
  clock : nat -> Z;
  strftime : Z -> string;            (* [%Y%m%d_%H%M%S] of a time *)
  makedirs_ok : nat -> bool;         (* by number of the save *)
  open_ok : nat -> string -> bool;   (* by number of the save *)
  write_ok : nat -> nat -> bool      (* by number of the save and of the write in it *)
}.

(** The trace, the counters of the oracles and the mutable fields of the
    [OAuthHandler]; [token = JNull] is [self.token is None]. *)
Record state : Type := {
  trace : list event;
  n_req : nat;
  n_tok : nat;
  n_clock : nat;
  n_save : nat;
  token : json;
  token_expiry : option Z;
  token_type : string
}.

(** [OAuthHandler.__init__]; also the state of a run without OAuth. *)
Definition init_state : state :=
  {| trace := []; n_req := 0; n_tok := 0; n_clock := 0; n_save := 0;
     token := JNull; token_expiry := None; token_type := "bearer" |}.

(** ** The monad: state and exceptions *)

Inductive exn : Type :=
| ValueError | TypeError | AttributeError | OSError | RequestException.

Inductive result (A : Type) : Type :=
| Val (a : A)
| Exn (e : exn).
Arguments Val {A} a.
Arguments Exn {A} e.

Definition M (A : Type) : Type := state -> result A * state.

Definition ret {A} (a : A) : M A := fun st => (Val a, st).

Definition bind {A B} (m : M A) (k : A -> M B) : M B :=
  fun st =>
    match m st with
    | (Val a, st') => k a st'
    | (Exn e, st') => (Exn e, st')
    end.

Definition raise {A} (e : exn) : M A := fun st => (Exn e, st).

(** [try: m except Exception: h] — effects of [m] before the exception stay *)
Definition try_except {A} (m : M A) (h : M A) : M A :=
  fun st =>
    match m st with
    | (Val a, st') => (Val a, st')
    | (Exn _, st') => h st'
    end.

(** [try: m except ValueError: h] — other exceptions pass *)
Definition try_except_ValueError {A} (m : M A) (h : M A) : M A :=
  fun st =>
    match m st with
    | (Val a, st') => (Val a, st')
    | (Exn ValueError, st') => h st'
    | (Exn e, st') => (Exn e, st')
    end.

Notation "'let*' x ':=' m 'in' k" := (bind m (fun x => k))
  (at level 10, x name, m at level 100, k at level 200, only parsing).
Notation "'do*' m 'in' k" := (bind m (fun _ => k))
  (at level 10, m at level 100, k at level 200, only parsing).

(** reading a field of the state *)
Definition gets {A} (f : state -> A) : M A := fun st => (Val (f st), st).

Definition with_trace (st : state) (t : list event) : state :=
  {| trace := t; n_req := n_req st; n_tok := n_tok st; n_clock := n_clock st;
     n_save := n_save st; token := token st; token_expiry := token_expiry st;
     token_type := token_type st |}.

Definition emit (e : event) : M unit :=
  fun st => (Val tt, with_trace st (trace st ++ [e])).

Definition log (l : level) (m : logmsg) : M unit := emit (EvLog l m).

(** Views of a trace: the transport calls, the token refresh requests,
    the writes to files, and the runs of registered functions, each in
    order. *)
Definition request_of (e : event) : option request :=
  match e with EvRequest rq => Some rq | _ => None end.
Definition token_post_of (e : event) : option token_request :=
  match e with EvTokenPost rq => Some rq | _ => None end.
Definition write_of (e : event) : option (string * content) :=
  match e with EvWrite f c => Some (f, c) | _ => None end.
Definition hook_of (e : event) : option event :=
  match e with
  | EvPre _ | EvPost _ | EvOut _ => Some e
  | _ => None
  end.

Definition requests_of (t : list event) : list request := omap request_of t.
Definition token_posts_of (t : list event) : list token_request :=
  omap token_post_of t.
Definition writes_of (t : list event) : list (string * content) :=
  omap write_of t.
Definition hooks_of (t : list event) : list event := omap hook_of t.

(** [m] adds nothing to the view [proj] of the trace. *)
Definition silent {A B} (proj : event -> option B) (m : M A) : Prop :=
  forall st, omap proj (trace (snd (m st))) = omap proj (trace st).

(** [m] adds exactly [l] to the view [proj] of the trace. *)
Definition adds {A B} (proj : event -> option B) (l : list B) (m : M A) : Prop :=
  forall st, omap proj (trace (snd (m st))) = omap proj (trace st) ++ l.

(** [m] returns: no exception leaves it. *)
Definition total {A} (m : M A) : Prop :=
  forall st, exists a, fst (m st) = Val a.

Definition set_oauth (st : state) (tok : json) (expiry : option Z) (ty : string) : state :=
  {| trace := trace st; n_req := n_req st; n_tok := n_tok st;
     n_clock := n_clock st; n_save := n_save st;
     token := tok; token_expiry := expiry; token_type := ty |}.

Definition set_token (tok : json) : M unit :=
  fun st => (Val tt, set_oauth st tok (token_expiry st) (token_type st)).
Definition set_token_expiry (e : option Z) : M unit :=
  fun st => (Val tt, set_oauth st (token st) e (token_type st)).
Definition set_token_type (ty : string) : M unit :=
  fun st => (Val tt, set_oauth st (token st) (token_expiry st) ty).

(** [response.json()] *)
Definition resp_json (r : Response) : M json :=
  match json_body r with
  | Some v => ret v
  | None => raise ValueError
  end.

(** A call [f(..., **kwargs)] raises [TypeError] when a key of [kwargs]
    names a parameter already bound positionally. *)
Definition check_kwargs (bound : list string) (kwargs : dict) : M unit :=
  if existsb (Py.dict_has kwargs) bound then raise TypeError else ret tt.

(** a [name] that passes [if name:] *)
Definition name_set (name : option string) : option string :=
  match name with
  | Some s => if String.eqb s EmptyString then None else Some s
  | None => None
  end.

(** a configuration that names no preprocessor *)
Definition no_preprocessor (config : api_config) : Prop :=
  match preprocess config with
  | Some pc => name_set (hook_name pc) = None
  | None => True
  end.

(** ** [process_registry.py] *)

Module Registry.

(** [ProcessorRegistry.__init__] *)
Definition empty : registry :=
  {| preprocessors := ∅; postprocessors := ∅; output_processors := ∅ |}.

Definition register_preprocessor (name : string) (f : preprocessor)
  (reg : registry) : M registry :=
  do* (if decide (is_Some (preprocessors reg !! name))
       then log WARNING (OverridingProcessor "preprocessor" name)
       else ret tt) in
  do* log INFO (RegisteredProcessor "preprocessor" name) in
  ret {| preprocessors := <[name := f]> (preprocessors reg);
         postprocessors := postprocessors reg;
         output_processors := output_processors reg |}.

Definition register_postprocessor (name : string) (f : postprocessor)
  (reg : registry) : M registry :=
  do* (if decide (is_Some (postprocessors reg !! name))
       then log WARNING (OverridingProcessor "postprocessor" name)
       else ret tt) in
  do* log INFO (RegisteredProcessor "postprocessor" name) in
  ret {| preprocessors := preprocessors reg;
         postprocessors := <[name := f]> (postprocessors reg);
         output_processors := output_processors reg |}.

Definition register_output_processor (name : string) (f : output_processor)
  (reg : registry) : M registry :=
  do* (if decide (is_Some (output_processors reg !! name))
       then log WARNING (OverridingProcessor "output processor" name)
       else ret tt) in
  do* log INFO (RegisteredProcessor "output processor" name) in
  ret {| preprocessors := preprocessors reg;
         postprocessors := postprocessors reg;
         output_processors := <[name := f]> (output_processors reg) |}.

Definition run_preprocessor (reg : registry) (name : string)
  (config : api_config) (kwargs : dict) : M api_config :=
  match preprocessors reg !! name with
  | None =>
      do* log ERROR (PreprocessorNotFound name) in
      ret config
  | Some f =>
      do* emit (EvPre name) in
      match f config kwargs with
      | Returns (Some result) => ret result
      | Returns None => ret config
      | Throws =>
          do* log ERROR (ErrorRunningPreprocessor name) in
          ret config
      end
  end.

Definition run_postprocessor (reg : registry) (name : string)
  (response : Response) (kwargs : dict) : M pyval :=
  match postprocessors reg !! name with
  | None =>
      do* log ERROR (PostprocessorNotFound name) in
      ret (PResp response)
  | Some f =>
      do* emit (EvPost name) in
      match f response kwargs with
      | Returns result =>
          ret (if pyval_is_none result then PResp response else result)
      | Throws =>
          do* log ERROR (ErrorRunningPostprocessor name) in
          ret (PResp response)
      end
  end.

Definition run_output_processor (reg : registry) (name : string)
  (data : pyval) (endpoint : option string) (kwargs : dict) : M pyval :=
  match output_processors reg !! name with
  | None =>
      do* log ERROR (OutputProcessorNotFound name) in
      ret (PJ (JBool false))
  | Some f =>
      do* emit (EvOut name) in
      match f data endpoint kwargs with
      | Returns result => ret result
      | Throws =>
          do* log ERROR (ErrorRunningOutputProcessor name) in
          ret (PJ (JBool false))
      end
  end.

End Registry.

(** ** [oauth_handler.py] *)

Module OAuth.

Section WithEnv.
Variable E : env.
Variables client_id client_secret token_url oauth_verify : json.

(** [datetime.now()] *)
Definition now : M Z :=
  fun st =>
    (Val (clock E (n_clock st)),
     {| trace := trace st; n_req := n_req st; n_tok := n_tok st;
        n_clock := S (n_clock st); n_save := n_save st;
        token := token st; token_expiry := token_expiry st;
        token_type := token_type st |}).

(** [timedelta(hours=4)] *)
Definition four_hours : Z := 4 * 3600 * 1000000.

(** [timedelta(seconds=v)]: [v] must be a number ([bool] is one) *)
Definition timedelta_seconds (v : json) : M Z :=
  match v with
  | JInt n => ret (n * 1000000)
  | JBool b => ret (Z.b2z b * 1000000)
  | _ => raise TypeError
  end.

(** [requests.post(self.token_url, data=..., headers=..., verify=...)] *)
Definition post_token (rq : token_request) : M Response :=
  fun st =>
    let st' :=
      {| trace := trace st ++ [EvTokenPost rq]; n_req := n_req st;
         n_tok := S (n_tok st); n_clock := n_clock st; n_save := n_save st;
         token := token st; token_expiry := token_expiry st;
         token_type := token_type st |} in
    match token_endpoint E (n_tok st) rq with
    | Some r => (Val r, st')
    | None => (Exn RequestException, st')
    end.

(** [token_data.get(k, d)] on the parsed body, whatever its type *)
Definition data_get (token_data : json) (k : string) (d : json) : M json :=
  match token_data with
  | JDict fields => ret (default d (Py.dict_get fields k))
  | _ => raise AttributeError
  end.

Definition _request_new_token : M unit :=
  try_except
    (let data := [("grant_type"%string, JStr "client_credentials");
                  ("client_id"%string, client_id);
                  ("client_secret"%string, client_secret)] in
     do* log INFO (RequestingToken token_url) in
     let* response :=
       post_token
         {| tk_url := token_url; tk_data := data;
            tk_headers := [("Content-Type"%string,
                            JStr "application/x-www-form-urlencoded")];
            tk_verify := oauth_verify |} in
     if status_code response =? 200 then
       let* token_data := resp_json response in
       let* access_token := data_get token_data "access_token" JNull in
       do* set_token access_token in
       let* expires_in := data_get token_data "expires_in" (JInt 3600) in
       let* t := now in
       let* delta := timedelta_seconds expires_in in
       do* set_token_expiry (Some (t + delta)) in
       let* ty := data_get token_data "token_type" (JStr "bearer") in
       do* (match ty with
            | JStr s => set_token_type (PyStr.lower s)
            | _ => raise AttributeError
            end) in
       log INFO (TokenObtained expires_in)
     else
       do* log ERROR (TokenFailed (status_code response) (text response)) in
       do* set_token JNull in
       set_token_expiry None)
    (do* log ERROR TokenError in
     do* set_token JNull in
     set_token_expiry None).

(** [self.token is None or self.token_expiry is None or
     current_time + timedelta(hours=4) >= self.token_expiry] *)
Definition needs_refresh (st : state) (current_time : Z) : bool :=
  Py.is_none (token st) ||
  match token_expiry st with
  | None => true
  | Some expiry => expiry <=? current_time + four_hours
  end.

Definition get_token : M json :=
  let* current_time := now in
  let* refresh := gets (fun st => needs_refresh st current_time) in
  do* (if refresh then _request_new_token else ret tt) in
  gets token.

End WithEnv.
End OAuth.

(** ** [api_handler.py] *)

Module APIHandler.

Definition newline : string := String (ascii_of_nat 10) EmptyString.

(** ['{' in url and '}' in url] *)
Definition has_braces (url : string) : bool :=
  PyStr.str_in "{" url && PyStr.str_in "}" url.

(** [f"{{{key}}}"] *)
Definition placeholder (key : string) : string := "{" +:+ key +:+ "}".

(** [for key, value in fields.items(): ... url = url.replace(placeholder, str(value))] *)
Definition substitute (fields : dict) (url : string) : string :=
  fold_left
    (fun url kv =>
       if PyStr.str_in (placeholder (fst kv)) url
       then PyStr.replace (placeholder (fst kv)) (Py.str (snd kv)) url
       else url)
    fields url.

(** The URL after both substitution passes of step 4b, whether or not
    the second one is needed: the item's fields first, the top-level
    fields of the parent response second (a parent response that is not a
    mapping has no fields). *)
Definition both_passes (parent_data : json) (item : dict) (url : string) : string :=
  match parent_data with
  | JDict fields => substitute fields (substitute item url)
  | _ => substitute item url
  end.

(** The walk along [items_path.split('.')]: the target reached, or the
    error that is logged before the early [return]. *)
Fixpoint navigate (items_path : string) (parts : list string)
  (target_data : json) : logmsg + json :=
  match parts with
  | [] => inr target_data
  | part :: rest =>
      if String.eqb part EmptyString then navigate items_path rest target_data
      else
        match target_data with
        | JDict d =>
            match Py.dict_get d part with
            | Some v => navigate items_path rest v
            | None => inl (CannotFind part items_path)
            end
        | JList l =>
            if PyStr.isdigit part then
              let idx := PyStr.int_of part in
              match l !! idx with
              | Some v => navigate items_path rest v
              | None => inl (IndexOutOfRange idx)
              end
            else inl (CannotFind part items_path)
        | _ => inl (CannotFind part items_path)
        end
  end.

(** ["\n".join(v)] inside [f.write]: [v] is iterated, its elements must be
    strings *)
Definition join_lines (v : json) : M string :=
  match v with
  | JList l =>
      match mapM (fun x => match x with JStr s => Some s | _ => None end) l with
      | Some lines => ret (PyStr.join newline lines)
      | None => raise TypeError
      end
  | JStr s => ret (PyStr.join newline (PyStr.chars s))
  | JDict d => ret (PyStr.join newline (map fst d))
  | _ => raise TypeError
  end.

Section WithEnv.
Variable E : env.
Variable R : registry.
Variable H : handler.

Definition _prepare_headers : M dict :=
  let headers := [("Content-Type"%string, JStr "application/json")] in
  match h_auth H with
  | AuthBasic _ _ => ret headers
  | AuthBearer bearer_token =>
      ret (Py.dict_set headers "Authorization"
             (JStr ("Bearer " +:+ Py.str bearer_token)))
  | AuthOAuth client_id client_secret token_url oauth_verify =>
      let* token :=
        OAuth.get_token E client_id client_secret token_url oauth_verify in
      if Py.truthy token
      then ret (Py.dict_set headers "Authorization"
                  (JStr ("Bearer " +:+ Py.str token)))
      else ret headers
  end.

Definition _get_auth : option (json * json) :=
  match h_auth H with
  | AuthBasic username password => Some (username, password)
  | AuthBearer _ => None
  | AuthOAuth _ _ _ _ => None
  end.

(** the number of this save, for the file-system oracles *)
Definition next_save : M nat :=
  fun st =>
    (Val (n_save st),
     {| trace := trace st; n_req := n_req st; n_tok := n_tok st;
        n_clock := n_clock st; n_save := S (n_save st);
        token := token st; token_expiry := token_expiry st;
        token_type := token_type st |}).

Definition makedirs (i : nat) : M unit :=
  if makedirs_ok E i then emit EvMakedirs else raise OSError.

Definition open_file (i : nat) (filename : string) : M unit :=
  if open_ok E i filename then emit (EvOpen filename) else raise OSError.

Definition write (i k : nat) (filename : string) (c : content) : M unit :=
  if write_ok E i k then emit (EvWrite filename c) else raise OSError.

(** [f.write(v)]: [v] must be a [str] *)
Definition write_value (i k : nat) (filename : string) (v : json) : M unit :=
  match v with
  | JStr s => write i k filename (CText s)
  | _ => raise TypeError
  end.

Definition _save_response (endpoint : option string) (response_data : pyval)
  (is_error : bool) (status : option Z) : M unit :=
  let* i := next_save in
  do* makedirs i in
  let* t := OAuth.now E in
  let timestamp := strftime E t in
  match endpoint with
  | None => raise AttributeError
  | Some endpoint =>
      let endpoint_name :=
        PyStr.replace "&" "_"
          (PyStr.replace "?" "_"
             (PyStr.last_or EmptyString (PyStr.split "/" endpoint))) in
      let filename :=
        if is_error
        then "error_" +:+ endpoint_name +:+ "_" +:+ timestamp +:+ ".log"
        else endpoint_name +:+ "_" +:+ timestamp +:+ ".log" in
      try_except
        (do* open_file i filename in
         do* match response_data with
             | PJ (JDict d) =>
                 match Py.dict_get d "__flatten_json_output" with
                 | Some v => write_value i 0 filename v
                 | None =>
                     match Py.dict_get d "__split_json_output" with
                     | Some v =>
                         let* lines := join_lines v in
                         write i 0 filename (CText lines)
                     | None => write i 0 filename (CJsonDump (JDict d))
                     end
                 end
             | PJ (JStr s) => write i 0 filename (CText s)
             | _ =>
                 match (if is_error then status else None) with
                 | Some code =>
                     if code =? 0
                     then write i 0 filename (CText (pyval_str response_data))
                     else
                       do* write i 0 filename
                             (CText ("Status code: " +:+ PyStr.str_of_Z code
                                     +:+ newline)) in
                       write i 1 filename
                         (CText ("Response: " +:+ pyval_str response_data
                                 +:+ newline))
                 | None => write i 0 filename (CText (pyval_str response_data))
                 end
             end in
         log INFO (ResponseSaved is_error endpoint filename))
        (log ERROR (FailedToSave is_error endpoint))
  end.

(** [self.session.request(...)] *)
Definition session_request (rq : request) : M Response :=
  fun st =>
    let st' :=
      {| trace := trace st ++ [EvRequest rq]; n_req := S (n_req st);
         n_tok := n_tok st; n_clock := n_clock st; n_save := n_save st;
         token := token st; token_expiry := token_expiry st;
         token_type := token_type st |} in
    match transport E (n_req st) rq with
    | Some r => (Val r, st')
    | None => (Exn RequestException, st')
    end.

(** the preprocessing step of [call_single_api] *)
Definition apply_preprocess (config : api_config) : M api_config :=
  match preprocess config with
  | Some preprocess_config =>
      match name_set (hook_name preprocess_config) with
      | Some preprocess_name =>
          let preprocess_args := default [] (hook_args preprocess_config) in
          do* log INFO (RunningPreprocessor preprocess_name) in
          do* check_kwargs ["self"; "name"; "api_config"]%string preprocess_args in
          Registry.run_preprocessor R preprocess_name config preprocess_args
      | None => ret config
      end
  | None => ret config
  end.

(** the postprocessing step: the value of [processed_data] after the inner
    [try] block *)
Definition apply_postprocess (config : api_config) (response : Response)
  : M pyval :=
  try_except_ValueError
    (let* response_data := resp_json response in
     match postprocess config with
     | Some postprocess_config =>
         match name_set (hook_name postprocess_config) with
         | Some postprocess_name =>
             let postprocess_args := default [] (hook_args postprocess_config) in
             do* log INFO (RunningPostprocessor postprocess_name) in
             do* check_kwargs ["self"; "name"; "response"]%string postprocess_args in
             let* post_result :=
               Registry.run_postprocessor R postprocess_name response
                 postprocess_args in
             if pyval_is_none post_result then
               do* log WARNING (PostprocessorReturnedNone postprocess_name) in
               try_except_ValueError
                 (let* again := resp_json response in ret (PJ again))
                 (ret (PJ (JStr (text response))))
             else ret post_result
         | None => ret (PJ response_data)
         end
     | None => ret (PJ response_data)
     end)
    (ret (PJ (JStr (text response)))).

(** the output step: whether the output processor handled the saving *)
Definition apply_output (config : api_config) (processed_data : pyval)
  : M bool :=
  match output config with
  | Some output_config =>
      match name_set (hook_name output_config) with
      | Some output_name =>
          let output_args := default [] (hook_args output_config) in
          do* log INFO (RunningOutputProcessor output_name) in
          do* check_kwargs ["self"; "name"; "data"; "endpoint"]%string output_args in
          let* success :=
            Registry.run_output_processor R output_name processed_data
              (url config) output_args in
          ret (pyval_truthy success)
      | None => ret false
      end
  | None => ret false
  end.

(** what [call_single_api] does with the response of the transport, from
    the logging of its status to the [return] *)
Definition process_response (config : api_config) (response : Response)
  : M (option Response) :=
  let url := url config in
  do* log INFO (ResponseStatus (status_code response)) in
  if 400 <=? status_code response then
    do* _save_response url (PJ (JStr (text response))) true
          (Some (status_code response)) in
    ret (Some response)
  else
    let* processed_data := apply_postprocess config response in
    let* handled := apply_output config processed_data in
    if handled then ret (Some response)
    else
      do* _save_response url processed_data false None in
      ret (Some response).

Definition call_single_api (config : api_config) : M (option Response) :=
  let* config := apply_preprocess config in
  let url := url config in
  let method := PyStr.upper (default "GET"%string (method config)) in
  let params := default [] (params config) in
  let custom_headers := default [] (headers config) in
  let body := default (JDict []) (body config) in
  let verify := default (h_verify H) (verify config) in
  let* headers := _prepare_headers in
  let headers := Py.dict_update headers custom_headers in
  try_except
    (do* log INFO (Calling method url) in
     let* response :=
       session_request
         {| rq_method := method; rq_url := url; rq_params := params;
            rq_headers := headers;
            rq_json := if Py.truthy body then Some body else None;
            rq_auth := _get_auth; rq_proxies := h_proxies H;
            rq_verify := verify; rq_timeout := 30 |} in
     process_response config response)
    (do* log ERROR (ErrorCalling url) in
     ret None).

(** the end of the inner loop's body, reached when the URL passed the
    placeholder test: the call of the child API and the pause after it *)
Definition issue_child (child_api : api_config) (url original_url : string)
  : M unit :=
  let child_api := set_url child_api url in
  do* log INFO (CallingChild url original_url) in
  let* _ := call_single_api child_api in
  let interval := default 1 (interval child_api) in
  if 0 <? interval then emit (EvSleep interval) else ret tt.

(** one (item, child) pair: the body of the inner [for] loop *)
Definition call_child (parent_data : json) (item : dict)
  (child_config : api_config) : M unit :=
  let child_api := child_config in
  let original_url := default EmptyString (url child_api) in
  let url := substitute item original_url in
  let* url :=
    if has_braces url then
      do* log WARNING (PlaceholdersNotReplaced url) in
      ret (match parent_data with
           | JDict fields => substitute fields url
           | _ => url
           end)
    else ret url in
  if has_braces url then log ERROR (UnresolvedPlaceholders url)
  else issue_child child_api url original_url.

Fixpoint for_children (parent_data : json) (item : dict)
  (child_api_configs : list api_config) : M unit :=
  match child_api_configs with
  | [] => ret tt
  | child_config :: rest =>
      do* call_child parent_data item child_config in
      for_children parent_data item rest
  end.

(** the body of the outer [for] loop *)
Definition process_item (parent_data : json) (item : json)
  (child_api_configs : list api_config) : M unit :=
  let* item :=
    match item with
    | JDict d => ret d
    | _ =>
        do* log WARNING (ItemNotDictionary item) in
        ret [("item"%string, item)]
    end in
  do* log DEBUG (ProcessingItem item) in
  for_children parent_data item child_api_configs.

Fixpoint for_items (parent_data : json) (items_to_process : list json)
  (child_api_configs : list api_config) : M unit :=
  match items_to_process with
  | [] => ret tt
  | item :: rest =>
      do* process_item parent_data item child_api_configs in
      for_items parent_data rest child_api_configs
  end.

Definition call_nested_apis (parent_api_config : api_config)
  (child_api_configs : list api_config) : M unit :=
  let* parent_response := call_single_api parent_api_config in
  match parent_response with
  | None => log ERROR (FailedParent (url parent_api_config))
  | Some parent_response =>
      if negb (response_ok parent_response)
         || (400 <=? status_code parent_response)
      then log ERROR (FailedParent (url parent_api_config))
      else
        try_except
          (let* parent_data := resp_json parent_response in
           do* log ERROR (ParentResponse parent_data) in
           let items_path := default EmptyString (items_path parent_api_config) in
           let found :=
             if String.eqb items_path EmptyString then inr parent_data
             else navigate items_path (PyStr.split "." items_path) parent_data in
           match found with
           | inl msg => log ERROR msg
           | inr target_data =>
               let* items_to_process :=
                 match target_data with
                 | JList l =>
                     do* log INFO (ProcessingList (length l)) in
                     ret l
                 | JDict _ =>
                     do* log INFO ProcessingDictionary in
                     ret [target_data]
                 | _ =>
                     let key_name :=
                       if String.eqb items_path EmptyString then "value"%string
                       else PyStr.last_or EmptyString (PyStr.split "." items_path) in
                     do* log INFO (ProcessingPrimitive target_data key_name) in
                     ret [JDict [(key_name, target_data)]]
                 end in
               for_items parent_data items_to_process child_api_configs
           end)
          (do* log ERROR ErrorNested in
           log ERROR Traceback)
  end.

End WithEnv.
End APIHandler.

(** ** Vocabulary for the calls of a computation *)

(** [m] returns [v] and issues no transport call. *)
Definition yields {A} (v : A) (m : M A) : Prop :=
  forall st, exists st',
    m st = (Val v, st') /\ requests_of (trace st') = requests_of (trace st).

(** [m] returns, and the transport calls it issues are calls to [urls], in
    this order. *)
Definition issues {A} (urls : list (option string)) (m : M A) : Prop :=
  forall st, exists a st' rqs,
    m st = (Val a, st') /\
    requests_of (trace st') = requests_of (trace st) ++ rqs /\
    map rq_url rqs = urls.

(** ** Vocabulary for runs that differ in the file system only *)

(** the events of [open(file_path, 'w')], of the writes, and of the two
    log lines of [_save_response] *)
Definition file_event (e : event) : bool :=
  match e with
  | EvOpen _ | EvWrite _ _ => true
  | EvLog _ (ResponseSaved _ _ _) | EvLog _ (FailedToSave _ _) => true
  | _ => false
  end.

(** a trace without its file events *)
Definition beyond_files (t : list event) : list event :=
  List.filter (fun e => negb (file_event e)) t.

(** two states that differ at most in the file events of their traces *)
Definition agree (st1 st2 : state) : Prop :=
  beyond_files (trace st1) = beyond_files (trace st2) /\
  n_req st1 = n_req st2 /\ n_tok st1 = n_tok st2 /\
  n_clock st1 = n_clock st2 /\ n_save st1 = n_save st2 /\
  token st1 = token st2 /\ token_expiry st1 = token_expiry st2 /\
  token_type st1 = token_type st2.

(** [E] with other answers to [open] and to the writes *)
Definition with_files (E : env) (opens : nat -> string -> bool)
  (writes : nat -> nat -> bool) : env :=
  {| transport := transport E; token_endpoint := token_endpoint E;
     clock := clock E; strftime := strftime E; makedirs_ok := makedirs_ok E;
     open_ok := opens; write_ok := writes |}.

(** [m1] and [m2] return the same and keep states in agreement *)
Definition sim {A} (m1 m2 : M A) : Prop :=
  forall st1 st2, agree st1 st2 ->
    fst (m1 st1) = fst (m2 st2) /\ agree (snd (m1 st1)) (snd (m2 st2)).

(** [m] changes the state by file events only *)
Definition quiet {A} (m : M A) : Prop :=
  forall st, agree st (snd (m st)).

(** ** Configurations as shared objects

    The trace model above passes configurations by value.  In the source
    they are [dict] objects, [copy()] is shallow, and a nested [dict]
    (the value of ["headers"], of ["params"]) is one object shared by
    the copy and the original.  This part models the store: a value is
    immutable data or a reference to a [dict] object. *)

Module Store.

Inductive value : Type :=
| Imm (j : json)      (* a [str], a number, [None], ... *)
| Ref (l : nat).      (* a [dict] object, by its address *)

Abbreviation object := (list (string * value)).

Record store : Type := {
  objects : gmap nat object;
  next : nat
}.

(** state of the store, and exceptions *)
Definition S (A : Type) : Type := store -> result A * store.

Definition sret {A} (a : A) : S A := fun s => (Val a, s).

Definition sbind {A B} (m : S A) (k : A -> S B) : S B :=
  fun s =>
    match m s with
    | (Val a, s') => k a s'
    | (Exn e, s') => (Exn e, s')
    end.

Definition sraise {A} (e : exn) : S A := fun s => (Exn e, s).

(** [try: m except Exception: h] *)
Definition stry {A} (m : S A) (h : S A) : S A :=
  fun s =>
    match m s with
    | (Val a, s') => (Val a, s')
    | (Exn _, s') => h s'
    end.

Notation "'let+' x ':=' m 'in' k" := (sbind m (fun x => k))
  (at level 10, x name, m at level 100, k at level 200, only parsing).
Notation "'do+' m 'in' k" := (sbind m (fun _ => k))
  (at level 10, m at level 100, k at level 200, only parsing).

Fixpoint obj_get (o : object) (k : string) : option value :=
  match o with
  | [] => None
  | (k', v) :: r => if String.eqb k' k then Some v else obj_get r k
  end.

Fixpoint obj_set (o : object) (k : string) (v : value) : object :=
  match o with
  | [] => [(k, v)]
  | (k', v') :: r =>
      if String.eqb k' k then (k, v) :: r else (k', v') :: obj_set r k v
  end.

(** a new [dict] object *)
Definition alloc (o : object) : S nat :=
  fun s =>
    (Val (next s),
     {| objects := <[next s := o]> (objects s); next := Datatypes.S (next s) |}).

(** the fields of the object at [l] *)
Definition read (l : nat) : S object :=
  fun s => (Val (default [] (objects s !! l)), s).

Definition put (l : nat) (o : object) : S unit :=
  fun s => (Val tt, {| objects := <[l := o]> (objects s); next := next s |}).

(** [d.copy()]: a new object with the same values, references included *)
Definition dict_copy (l : nat) : S nat :=
  let+ o := read l in
  alloc o.

(** [d[k] = v] *)
Definition dict_setitem (l : nat) (k : string) (v : value) : S unit :=
  let+ o := read l in
  put l (obj_set o k v).

(** [target.update(other)]: [target] must be a [dict]; [other] is a [dict]
    or an empty sequence (a sequence of pairs is outside the model and
    taken to raise). *)
Definition dict_update_in_place (target other : value) : S unit :=
  match target with
  | Imm _ => sraise AttributeError
  | Ref t =>
      match other with
      | Ref src =>
          let+ added := read src in
          let+ o := read t in
          put t (fold_left (fun acc kv => obj_set acc (fst kv) (snd kv)) added o)
      | Imm (JList []) => sret tt
      | Imm (JStr EmptyString) => sret tt
      | Imm _ => sraise TypeError
      end
  end.

(** [list(headers.keys())] in the log line: [headers] must be a [dict] *)
Definition keys_of (headers : value) : S unit :=
  match headers with
  | Ref _ => sret tt
  | Imm _ => sraise AttributeError
  end.

(** [preprocess_add_headers(api_config, **kwargs)] of [processors.py] *)
Definition preprocess_add_headers (api_config : nat) (kwargs : object) : S nat :=
  stry
    (let+ updated_config := dict_copy api_config in
     let+ fields := read updated_config in
     do+ (match obj_get fields "headers" with
          | Some _ => sret tt
          | None =>
              let+ fresh := alloc [] in
              dict_setitem updated_config "headers" (Ref fresh)
          end) in
     let+ headers :=
       match obj_get kwargs "headers" with
       | Some v => sret v
       | None => let+ fresh := alloc [] in sret (Ref fresh)
       end in
     let+ fields := read updated_config in
     do+ dict_update_in_place (default (Imm JNull) (obj_get fields "headers")) headers in
     do+ keys_of headers in
     sret updated_config)
    (sret api_config).

(** a registry of preprocessors on the store *)
Abbreviation preprocessors := (gmap string (nat -> object -> S nat)).

(** the entry of [register_processors] for [preprocess_add_headers] *)
Definition builtin : preprocessors :=
  {[ "add_headers"%string := preprocess_add_headers ]}.

(** [registry.run_preprocessor(name, api_config, **kwargs)]; the
    registered functions of this model return a configuration *)
Definition run_preprocessor_obj (reg : preprocessors) (name : string)
  (api_config : nat) (kwargs : object) : S nat :=
  match reg !! name with
  | None => sret api_config
  | Some f => stry (f api_config kwargs) (sret api_config)
  end.

(** the first step of [call_single_api], for a ["name"] that is a string
    or is absent: the configuration it goes on with.  [**preprocess_args]
    builds a new [dict] with the same values. *)
Definition apply_preprocess_obj (reg : preprocessors) (api_config : nat) : S nat :=
  let+ fields := read api_config in
  match obj_get fields "preprocess" with
  | Some (Ref p) =>
      let+ preprocess_config := read p in
      match obj_get preprocess_config "name" with
      | Some (Imm (JStr preprocess_name)) =>
          if String.eqb preprocess_name EmptyString then sret api_config
          else
            let+ preprocess_args :=
              match obj_get preprocess_config "args" with
              | Some (Ref a) => read a
              | Some (Imm _) => sraise TypeError
              | None => sret []
              end in
            if existsb (fun k => match obj_get preprocess_args k with
                                 | Some _ => true
                                 | None => false
                                 end)
                 ["self"; "name"; "api_config"]%string
            then sraise TypeError
            else run_preprocessor_obj reg preprocess_name api_config preprocess_args
      | _ => sret api_config
      end
  | _ => sret api_config
  end.

(** what the inner loop of [call_nested_apis] does to the objects for one
    pair whose URL resolved to [url]: the copy, the assignment of the URL,
    and the preprocessing of [call_single_api] *)
Definition call_child_obj (reg : preprocessors) (child_config : nat) (url : string)
  : S nat :=
  let+ child_api := dict_copy child_config in
  do+ dict_setitem child_api "url" (Imm (JStr url)) in
  apply_preprocess_obj reg child_api.

(** the value of [d[k]] followed through one reference: the fields of the
    nested [dict], or the immutable value *)
Definition field (s : store) (l : nat) (k : string)
  : option (json + object) :=
  match obj_get (default [] (objects s !! l)) k with
  | Some (Imm j) => Some (inl j)
  | Some (Ref r) => Some (inr (default [] (objects s !! r)))
  | None => None
  end.

(** A store with one child specification, at address 0:
    [{"url": "/child/{id}", "headers": {"Accept": "application/json"},
      "preprocess": {"name": "add_headers",
                     "args": {"headers": {"X-Extra": "1"}}}}] *)
Definition child_spec_store : store :=
  {| objects :=
       {[ 0%nat := [("url"%string, Imm (JStr "/child/{id}"));
                    ("headers"%string, Ref 1);
                    ("preprocess"%string, Ref 2)];
          1%nat := [("Accept"%string, Imm (JStr "application/json"))];
          2%nat := [("name"%string, Imm (JStr "add_headers"));
                    ("args"%string, Ref 3)];
          3%nat := [("headers"%string, Ref 4)];
          4%nat := [("X-Extra"%string, Imm (JStr "1"))] ]};
     next := 5 |}.

End Store.

(** ** Sample data

    The parent responses and child specifications of the testable
    properties, and one environment to run them in. *)

Module Sample.

(** [{"items": [{"id": 1}, {"id": 2}]}] *)
Definition two_items : json :=
  JDict [("items"%string,
          JList [JDict [("id"%string, JInt 1)]; JDict [("id"%string, JInt 2)]])].

(** [{"id": 7}] *)
Definition one_id : json := JDict [("id"%string, JInt 7)].

(** [{"url": u}] *)
Definition api (u : string) : api_config :=
  {| url := Some u; method := None; params := None; headers := None;
     body := None; verify := None; interval := None; items_path := None;
     preprocess := None; postprocess := None; output := None |}.

(** [{"url": u, "items_path": p}] *)
Definition parent_api (u p : string) : api_config :=
  {| url := Some u; method := None; params := None; headers := None;
     body := None; verify := None; interval := None; items_path := Some p;
     preprocess := None; postprocess := None; output := None |}.

Definition ok_json (v : json) : Response :=
  {| status_code := 200; text := Py.repr_json v; json_body := Some v |}.

(** a response of status 200 whose body is no JSON document *)
Definition ok_text (s : string) : Response :=
  {| status_code := 200; text := s; json_body := None |}.

Definition not_found : Response :=
  {| status_code := 404; text := "not found"; json_body := None |}.

(** A server that answers the first call with [first] and every later
    call with 404; a file system that works; a clock that ticks. *)
Definition server (first : Response) : env :=
  {| transport := fun n _ => if (n =? 0)%nat then Some first else Some not_found;
     token_endpoint := fun _ _ => None;
     clock := fun n => Z.of_nat n;
     strftime := PyStr.str_of_Z;
     makedirs_ok := fun _ => true;
     open_ok := fun _ _ => true;
     write_ok := fun _ _ => true |}.

Definition basic_auth : handler :=
  mk_handler (AuthBasic (JStr "user") (JStr "secret")) (JBool true) JNull.

(** [{"url": u, "postprocess": {"name": post}, "output": {"name": out}}] *)
Definition with_hooks (u post out : string) : api_config :=
  {| url := Some u; method := None; params := None; headers := None;
     body := None; verify := None; interval := None; items_path := None;
     preprocess := None;
     postprocess := Some {| hook_name := Some post; hook_args := None |};
     output := Some {| hook_name := Some out; hook_args := None |} |}.

(** [{"url": u, "postprocess": {"name": post}}] *)
Definition with_postprocess (u post : string) : api_config :=
  {| url := Some u; method := None; params := None; headers := None;
     body := None; verify := None; interval := None; items_path := None;
     preprocess := None;
     postprocess := Some {| hook_name := Some post; hook_args := None |};
     output := None |}.

(** A token endpoint that grants ["tok-2"] for one hour, and the state
    of an [OAuthHandler] holding ["tok-1"] until [expiry]. *)
Definition granting : env :=
  {| transport := fun _ _ => None;
     token_endpoint := fun _ _ =>
       Some (ok_json (JDict [("access_token"%string, JStr "tok-2");
                             ("expires_in"%string, JInt 3600)]));
     clock := fun _ => 0;
     strftime := PyStr.str_of_Z;
     makedirs_ok := fun _ => true;
     open_ok := fun _ _ => true;
     write_ok := fun _ _ => true |}.

Definition holding (expiry : Z) : state :=
  set_oauth init_state (JStr "tok-1") (Some expiry) "bearer".

(** A registry with a function of each kind that raises, under the name
    ["boom"], and a postprocessor that returns [None], under ["none"]. *)
Definition failing : registry :=
  {| preprocessors := {[ "boom"%string := fun _ _ => Throws ]};
     postprocessors :=
       {[ "boom"%string := fun _ _ => Throws;
          "none"%string := fun _ _ => Returns (PJ JNull) ]};
     output_processors := {[ "boom"%string := fun _ _ _ => Throws ]} |}.

End Sample.

(** ** The plan of a nested call

    What steps 3 and 4 of the nested-call orchestrator amount to, written
    as functions of the parent data: the items, the fields of an item, and
    the URLs of the child calls in the order of the two loops. *)

Module Plan.

(** the items of the target: a sequence gives its elements, a mapping
    gives itself, a scalar gives a mapping of the last segment of the path
    (["value"] without a path) to itself *)
Definition items_of (items_path : string) (target_data : json) : list json :=
  match target_data with
  | JList l => l
  | JDict _ => [target_data]
  | _ =>
      [JDict [(if String.eqb items_path EmptyString then "value"%string
               else PyStr.last_or EmptyString (PyStr.split "." items_path),
               target_data)]]
  end.

(** the fields of an item: an item that is no mapping is ["item"] *)
Definition item_fields (item : json) : dict :=
  match item with
  | JDict d => d
  | _ => [("item"%string, item)]
  end.

(** the URL of one pair, when it passes the placeholder test *)
Definition pair_url (parent_data : json) (item : json) (child : api_config)
  : list (option string) :=
  let final :=
    APIHandler.both_passes parent_data (item_fields item)
      (default EmptyString (url child)) in
  if APIHandler.has_braces final then [] else [Some final].

(** the URLs of all pairs: items in order, and for each item the children
    in order *)
Definition planned_urls (parent_data : json) (items : list json)
  (children : list api_config) : list (option string) :=
  flat_map (fun item => flat_map (pair_url parent_data item) children) items.

End Plan.

(** ** More views of a trace and of a run *)

(** the files opened for writing, in order *)
Definition open_of (e : event) : option string :=
  match e with EvOpen f => Some f | _ => None end.
Definition opens_of (t : list event) : list string := omap open_of t.

(** [m] adds at most [n] entries to the view [proj] of the trace. *)
Definition bounded {A B} (proj : event -> option B) (n : nat) (m : M A) : Prop :=
  forall st, exists l,
    omap proj (trace (snd (m st))) = omap proj (trace st) ++ l /\
    (length l <= n)%nat.

(** [m] leaves the counter of the transport calls as it is. *)
Definition keeps_n_req {A} (m : M A) : Prop :=
  forall st, n_req (snd (m st)) = n_req st.

(** the arguments of a hook do not name a parameter bound by position *)
Definition no_collision (bound : list string) (h : option hook) : Prop :=
  match h with
  | Some config => existsb (Py.dict_has (default [] (hook_args config))) bound = false
  | None => True
  end.

Module Fixtures.

(** A server that never answers: every transport call raises. *)
Definition unreachable : env :=
  {| transport := fun _ _ => None;
     token_endpoint := fun _ _ => None;
     clock := fun n => Z.of_nat n;
     strftime := PyStr.str_of_Z;
     makedirs_ok := fun _ => true;
     open_ok := fun _ _ => true;
     write_ok := fun _ _ => true |}.

(** A registry whose output processor ["sink"] reports success. *)
Definition with_sink : registry :=
  {| preprocessors := ∅; postprocessors := ∅;
     output_processors := {[ "sink"%string := fun _ _ _ => Returns (PJ (JBool true)) ]} |}.

(** [{"url": u, "output": {"name": out}}] *)
Definition with_output (u out : string) : api_config :=
  {| url := Some u; method := None; params := None; headers := None;
     body := None; verify := None; interval := None; items_path := None;
     preprocess := None; postprocess := None;
     output := Some {| hook_name := Some out; hook_args := None |} |}.

End Fixtures.

(** ** States of the token cache *)

Module TokenCache.

(** the request [_request_new_token] sends *)
Definition refresh_request (client_id client_secret token_url oauth_verify : json)
  : token_request :=
  {| tk_url := token_url;
     tk_data := [("grant_type"%string, JStr "client_credentials");
                 ("client_id"%string, client_id);
                 ("client_secret"%string, client_secret)];
     tk_headers := [("Content-Type"%string,
                     JStr "application/x-www-form-urlencoded")];
     tk_verify := oauth_verify |}.

(** an answer of the token endpoint that gives no token: an exception, a
    status other than 200, or a body that is no JSON document *)
Definition refused (answer : option Response) : Prop :=
  match answer with
  | None => True
  | Some r => status_code r <> 200 \/ json_body r = None
  end.

(** an answer that grants [access_token] for [seconds] *)
Definition grants (answer : option Response) (access_token : json)
  (seconds : Z) (ty : string) : Prop :=
  exists r fields,
    answer = Some r /\ status_code r = 200 /\
    json_body r = Some (JDict fields) /\
    default JNull (Py.dict_get fields "access_token") = access_token /\
    default (JInt 3600) (Py.dict_get fields "expires_in") = JInt seconds /\
    default (JStr "bearer") (Py.dict_get fields "token_type") = JStr ty.

(** A token endpoint that refuses with status 401. *)
Definition refusing : env :=
  {| transport := fun _ _ => None;
     token_endpoint := fun _ _ =>
       Some {| status_code := 401; text := "denied"; json_body := None |};
     clock := fun n => Z.of_nat n;
     strftime := PyStr.str_of_Z;
     makedirs_ok := fun _ => true;
     open_ok := fun _ _ => true;
     write_ok := fun _ _ => true |}.

Definition oauth_handler : handler :=
  mk_handler (AuthOAuth (JStr "id") (JStr "secret") (JStr "https://auth/token")
                (JBool true))
    (JBool true) JNull.

End TokenCache.

(** ** The name of an artifact file *)

Module Artifact.

(** [endpoint.split('/')[-1].replace('?', '_').replace('&', '_')] *)
Definition endpoint_name (endpoint : string) : string :=
  PyStr.replace "&" "_"
    (PyStr.replace "?" "_"
       (PyStr.last_or EmptyString (PyStr.split "/" endpoint))).

(** the file name [_save_response] builds *)
Definition filename (endpoint : string) (is_error : bool) (timestamp : string)
  : string :=
  if is_error
  then "error_" +:+ endpoint_name endpoint +:+ "_" +:+ timestamp +:+ ".log"
  else endpoint_name endpoint +:+ "_" +:+ timestamp +:+ ".log".

(** the character [c] occurs in [s] *)
Definition has_char (c : ascii) (s : string) : bool :=
  PyStr.str_in (String c EmptyString) s.

End Artifact.

(** ** Arguments that collide with a parameter *)

(** the parameters that [run_preprocessor(name, api_config, **args)] binds
    by position *)
Definition preprocessor_parameters : list string :=
  ["self"; "name"; "api_config"]%string.

(** a hook that is run (its name passes [if name:]) with arguments that
    name a parameter bound by position *)
Definition colliding (bound : list string) (h : option hook) : bool :=
  match h with
  | Some config =>
      match name_set (hook_name config) with
      | Some _ => existsb (Py.dict_has (default [] (hook_args config))) bound
      | None => false
      end
  | None => false
  end.

(** [m] ends in the exception [e], and it issues no transport call. *)
Definition raises {A} (e : exn) (m : M A) : Prop :=
  forall st, exists st',
    m st = (Exn e, st') /\ requests_of (trace st') = requests_of (trace st).

(** ** The loops of [main]

    The two loops of [main] over ["single_apis"] and ["nested_apis"]
    ([main.py], lines 153 to 164).  They run inside [try: ... except
    Exception], whose handler logs the error and ends the process with
    [sys.exit(1)]: an exception that leaves [execute] ends the run. *)

Module Main.

(** an entry of ["nested_apis"]: [None] stands for an entry that is no
    mapping or lacks one of ["parent_api"] and ["child_apis"] *)
Definition api_pair : Type := option (api_config * list api_config).

Section WithEnv.
Variable E : env.
Variable R : registry.
Variable H : handler.

Fixpoint single_loop (single_apis : list api_config) : M unit :=
  match single_apis with
  | [] => ret tt
  | api :: rest =>
      let* _ := APIHandler.call_single_api E R H api in
      single_loop rest
  end.

Fixpoint nested_loop (nested_apis : list api_pair) : M unit :=
  match nested_apis with
  | [] => ret tt
  | Some (parent_api, child_apis) :: rest =>
      do* APIHandler.call_nested_apis E R H parent_api child_apis in
      nested_loop rest
  | None :: rest => nested_loop rest
  end.

Definition execute (single_apis : list api_config) (nested_apis : list api_pair)
  : M unit :=
  do* single_loop single_apis in
  nested_loop nested_apis.

End WithEnv.
End Main.

Module Collisions.

(** [{"url": u, "preprocess": {"name": "boom", "args": {"name": "x"}}}] *)
Definition shadowing (u : string) : api_config :=
  {| url := Some u; method := None; params := None; headers := None;
     body := None; verify := None; interval := None; items_path := None;
     preprocess :=
       Some {| hook_name := Some "boom"%string;
               hook_args := Some [("name"%string, JStr "x")] |};
     postprocess := None; output := None |}.

(** [{"url": u, "preprocess": {"name": "boom"}}] *)
Definition with_preprocess (u : string) : api_config :=
  {| url := Some u; method := None; params := None; headers := None;
     body := None; verify := None; interval := None; items_path := None;
     preprocess := Some {| hook_name := Some "boom"%string; hook_args := None |};
     postprocess := None; output := None |}.

End Collisions.

(** * Properties *)

(** ** Substrings *)

Module PyStrFacts.
Import PyStr.

#[local] Arguments String.append !s1 s2 : simpl nomatch.

Lemma append_assoc (a b c : string) : (a +:+ b) +:+ c = a +:+ (b +:+ c).
Proof. induction a as [|x a IH]; simpl; [reflexivity | now f_equal]. Qed.

Lemma startswith_spec (p s : string) :
  startswith p s = true <-> exists rest, s = p +:+ rest.
Proof.
  revert s; induction p as [|a p IH]; intros s; simpl.
  - split; [intros _; now exists s | reflexivity].
  - destruct s as [|b s]; simpl.
    + split; [discriminate | intros [rest Hr]; discriminate].
    + unfold ascii_eqb. rewrite andb_true_iff, Ascii.eqb_eq, IH. split.
      * intros [-> [rest ->]]. now exists rest.
      * intros [rest Hr]. injection Hr as -> ->. split; [reflexivity | now exists rest].
Qed.

Lemma str_in_spec (sub s : string) :
  str_in sub s = true <-> exists before after, s = before +:+ (sub +:+ after).
Proof.
  induction s as [|c s IH]; simpl.
  - rewrite orb_false_r, startswith_spec. split.
    + intros [rest Hr]. now exists EmptyString, rest.
    + intros [before [after Hs]]. destruct before; simpl in Hs; [now exists after | discriminate].
  - rewrite orb_true_iff, IH, startswith_spec. split.
    + intros [[rest Hr] | [before [after Hs]]].
      * now exists EmptyString, rest.
      * exists (String c before), after. simpl. now rewrite Hs.
    + intros [before [after Hs]]. destruct before as [|b before]; simpl in Hs.
      * left. now exists after.
      * right. injection Hs as _ Hs. now exists before, after.
Qed.

(** a text that contains [p +:+ q] contains [p] and contains [q] *)
Lemma str_in_app_l (p q s : string) :
  str_in (p +:+ q) s = true -> str_in p s = true.
Proof.
  rewrite !str_in_spec. intros [before [after Hs]].
  exists before, (q +:+ after). now rewrite Hs, append_assoc.
Qed.

Lemma str_in_app_r (p q s : string) :
  str_in (p +:+ q) s = true -> str_in q s = true.
Proof.
  rewrite !str_in_spec. intros [before [after Hs]].
  exists (before +:+ p), after. now rewrite Hs, !append_assoc.
Qed.

End PyStrFacts.

(** ** Placeholders and the brace test *)

Module Placeholders.
Import PyStr PyStrFacts APIHandler.

#[local] Arguments String.append !s1 s2 : simpl nomatch.

(** a [{key}] placeholder in a URL makes the brace test succeed *)
Lemma placeholder_has_braces (key url : string) :
  str_in (placeholder key) url = true -> has_braces url = true.
Proof.
  intros Hin. unfold has_braces, placeholder in *.
  apply andb_true_iff; split.
  - now apply str_in_app_l in Hin.
  - now do 2 apply str_in_app_r in Hin.
Qed.

(** a URL that fails the brace test is left alone by a substitution pass *)
Lemma substitute_without_braces (fields : dict) (url : string) :
  has_braces url = false -> substitute fields url = url.
Proof.
  intros Hno. unfold substitute.
  induction fields as [|[key value] fields IH]; simpl; [reflexivity|].
  destruct (str_in (placeholder key) url) eqn:Hin.
  - apply placeholder_has_braces in Hin. congruence.
  - exact IH.
Qed.

(** The source runs the second pass only when the first left braces; the
    URL it tests last is the URL after both passes all the same. *)
Lemma tested_url_is_both_passes (parent_data : json) (item : dict) (url : string) :
  (if has_braces (substitute item url)
   then match parent_data with
        | JDict fields => substitute fields (substitute item url)
        | _ => substitute item url
        end
   else substitute item url) = both_passes parent_data item url.
Proof.
  unfold both_passes.
  destruct (has_braces (substitute item url)) eqn:Hb; [reflexivity|].
  destruct parent_data; try reflexivity.
  symmetry. now apply substitute_without_braces.
Qed.

End Placeholders.

(** ** Reasoning about the monad *)

Module Effects.

Section Views.
Context {B : Type} (proj : event -> option B).

Lemma silent_ret {A} (a : A) : silent proj (ret a).
Proof. intros st. reflexivity. Qed.

Lemma silent_raise {A} (e : exn) : silent proj (@raise A e).
Proof. intros st. reflexivity. Qed.

Lemma silent_gets {A} (f : state -> A) : silent proj (gets f).
Proof. intros st. reflexivity. Qed.

Lemma silent_bind {A C} (m : M A) (k : A -> M C) :
  silent proj m -> (forall a, silent proj (k a)) -> silent proj (bind m k).
Proof.
  intros Hm Hk st. unfold bind. specialize (Hm st).
  destruct (m st) as [[a|e] st']; simpl in *; [|exact Hm].
  now rewrite Hk.
Qed.

Lemma silent_try_except {A} (m h : M A) :
  silent proj m -> silent proj h -> silent proj (try_except m h).
Proof.
  intros Hm Hh st. unfold try_except. specialize (Hm st).
  destruct (m st) as [[a|e] st']; simpl in *; [exact Hm|].
  now rewrite Hh.
Qed.

Lemma silent_try_except_ValueError {A} (m h : M A) :
  silent proj m -> silent proj h -> silent proj (try_except_ValueError m h).
Proof.
  intros Hm Hh st. unfold try_except_ValueError. specialize (Hm st).
  destruct (m st) as [[a|e] st']; simpl in *; [exact Hm|].
  destruct e; simpl; try exact Hm. now rewrite Hh.
Qed.

Lemma silent_emit (e : event) : proj e = None -> silent proj (emit e).
Proof.
  intros He st. unfold emit; simpl. rewrite omap_app; simpl.
  rewrite He. apply app_nil_r.
Qed.

Lemma silent_state_only {A} (m : M A) :
  (forall st, trace (snd (m st)) = trace st) -> silent proj m.
Proof. intros Hm st. now rewrite Hm. Qed.

End Views.

Lemma bind_val {A C} (m : M A) (k : A -> M C) st a st' :
  m st = (Val a, st') -> bind m k st = k a st'.
Proof. intros Hm. unfold bind. now rewrite Hm. Qed.

Lemma bind_exn {A C} (m : M A) (k : A -> M C) st e st' :
  m st = (Exn e, st') -> bind m k st = (Exn e, st').
Proof. intros Hm. unfold bind. now rewrite Hm. Qed.

Lemma total_ret {A} (a : A) : total (ret a).
Proof. intros st. now exists a. Qed.

Lemma total_gets {A} (f : state -> A) : total (gets f).
Proof. intros st. now exists (f st). Qed.

Lemma total_emit (e : event) : total (emit e).
Proof. intros st. now exists tt. Qed.

Lemma total_bind {A C} (m : M A) (k : A -> M C) :
  total m -> (forall a, total (k a)) -> total (bind m k).
Proof.
  intros Hm Hk st. unfold bind. destruct (Hm st) as [a Ha].
  destruct (m st) as [[a'|e] st']; simpl in *; [|discriminate].
  apply Hk.
Qed.

Lemma total_try_except {A} (m h : M A) : total h -> total (try_except m h).
Proof.
  intros Hh st. unfold try_except.
  destruct (m st) as [[a|e] st']; [now exists a | apply Hh].
Qed.

Lemma adds_bind_l {A C B} (proj : event -> option B) l (m : M A) (k : A -> M C) :
  adds proj l m -> (forall a, silent proj (k a)) -> adds proj l (bind m k).
Proof.
  intros Hm Hk st. unfold bind. specialize (Hm st).
  destruct (m st) as [[a|e] st']; simpl in *; [|exact Hm].
  now rewrite Hk.
Qed.

Lemma adds_bind_r {A C B} (proj : event -> option B) l (m : M A) (k : A -> M C) :
  total m -> silent proj m -> (forall a, adds proj l (k a)) ->
  adds proj l (bind m k).
Proof.
  intros Ht Hm Hk st. unfold bind. specialize (Hm st).
  destruct (Ht st) as [a Ha].
  destruct (m st) as [[a'|e] st']; simpl in *; [|discriminate].
  now rewrite Hk, Hm.
Qed.

Lemma adds_try_except {A B} (proj : event -> option B) l (m h : M A) :
  adds proj l m -> silent proj h -> adds proj l (try_except m h).
Proof.
  intros Hm Hh st. unfold try_except. specialize (Hm st).
  destruct (m st) as [[a|e] st']; simpl in *; [exact Hm|].
  now rewrite Hh.
Qed.

(** one step of a proof that a computation is silent: the combinators, the
    case analyses of the source, and the small helpers *)
Ltac silent_step :=
  match goal with
  | |- silent _ (ret _) => apply silent_ret
  | |- silent _ (raise _) => apply silent_raise
  | |- silent _ (gets _) => apply silent_gets
  | |- silent _ (bind _ _) => apply silent_bind; [|intros ?]
  | |- silent _ (try_except _ _) => apply silent_try_except
  | |- silent _ (try_except_ValueError _ _) => apply silent_try_except_ValueError
  | |- silent _ (emit _) => apply silent_emit; auto
  | |- silent _ (log _ _) => apply silent_emit; auto
  | |- silent _ (set_token _) => apply silent_state_only; reflexivity
  | |- silent _ (set_token_expiry _) => apply silent_state_only; reflexivity
  | |- silent _ (set_token_type _) => apply silent_state_only; reflexivity
  | |- silent _ (OAuth.now _) => apply silent_state_only; reflexivity
  | |- silent _ (APIHandler.next_save) => apply silent_state_only; reflexivity
  | |- silent _ (resp_json _) => unfold resp_json
  | |- silent _ (check_kwargs _ _) => unfold check_kwargs
  | |- silent _ (OAuth.timedelta_seconds _) => unfold OAuth.timedelta_seconds
  | |- silent _ (OAuth.data_get _ _ _) => unfold OAuth.data_get
  | |- silent _ (APIHandler.makedirs _ _) => unfold APIHandler.makedirs
  | |- silent _ (APIHandler.open_file _ _ _) => unfold APIHandler.open_file
  | |- silent _ (APIHandler.write _ _ _ _ _) => unfold APIHandler.write
  | |- silent _ (APIHandler.write_value _ _ _ _ _) => unfold APIHandler.write_value
  | |- silent _ (APIHandler.join_lines _) => unfold APIHandler.join_lines
  | |- silent _ (match ?x with _ => _ end) => destruct x eqn:?
  end.

Ltac silent_auto := repeat silent_step.

Section IgnoredEvents.
Context {B : Type} (proj : event -> option B).
Hypothesis Hlog : forall l m, proj (EvLog l m) = None.

Section TokenRefresh.
Hypothesis Htok : forall rq, proj (EvTokenPost rq) = None.
Variable E : env.

Lemma post_token_silent rq : silent proj (OAuth.post_token E rq).
Proof.
  intros st. unfold OAuth.post_token.
  destruct (token_endpoint E (n_tok st) rq); simpl;
    rewrite omap_app; simpl; rewrite Htok; apply app_nil_r.
Qed.

Lemma request_new_token_silent client_id client_secret token_url oauth_verify :
  silent proj (OAuth._request_new_token E client_id client_secret token_url oauth_verify).
Proof.
  unfold OAuth._request_new_token.
  apply silent_try_except; [|silent_auto].
  apply silent_bind; [silent_auto|intros _].
  apply silent_bind; [apply post_token_silent|intros r].
  silent_auto.
Qed.

Lemma get_token_silent client_id client_secret token_url oauth_verify :
  silent proj (OAuth.get_token E client_id client_secret token_url oauth_verify).
Proof.
  unfold OAuth.get_token.
  apply silent_bind; [silent_auto|intros t].
  apply silent_bind; [silent_auto|intros b].
  apply silent_bind; [|intros _; silent_auto].
  destruct b; [apply request_new_token_silent | silent_auto].
Qed.

Lemma prepare_headers_silent H : silent proj (APIHandler._prepare_headers E H).
Proof.
  unfold APIHandler._prepare_headers.
  destruct (h_auth H); silent_auto.
  apply get_token_silent.
Qed.

End TokenRefresh.

Section Files.
Hypothesis Hmk : proj EvMakedirs = None.
Hypothesis Hopen : forall f, proj (EvOpen f) = None.
Hypothesis Hwrite : forall f c, proj (EvWrite f c) = None.
Variable E : env.

Lemma save_response_silent endpoint data is_error status :
  silent proj (APIHandler._save_response E endpoint data is_error status).
Proof. unfold APIHandler._save_response. silent_auto. Qed.

End Files.

Section Hooks.
Hypothesis Hpre : forall n, proj (EvPre n) = None.
Hypothesis Hpost : forall n, proj (EvPost n) = None.
Hypothesis Hout : forall n, proj (EvOut n) = None.
Variable R : registry.

Lemma run_preprocessor_silent name config kwargs :
  silent proj (Registry.run_preprocessor R name config kwargs).
Proof. unfold Registry.run_preprocessor. silent_auto. Qed.

Lemma run_postprocessor_silent name response kwargs :
  silent proj (Registry.run_postprocessor R name response kwargs).
Proof. unfold Registry.run_postprocessor. silent_auto. Qed.

Lemma run_output_processor_silent name data endpoint kwargs :
  silent proj (Registry.run_output_processor R name data endpoint kwargs).
Proof. unfold Registry.run_output_processor. silent_auto. Qed.

Lemma apply_preprocess_silent config :
  silent proj (APIHandler.apply_preprocess R config).
Proof.
  unfold APIHandler.apply_preprocess. silent_auto.
  apply run_preprocessor_silent.
Qed.

End Hooks.

End IgnoredEvents.

End Effects.

(** ** The transport calls of one [call_single_api] *)

Module SingleCall.
Import Effects APIHandler.

Section WithEnv.
Variable E : env.
Variable R : registry.
Variable H : handler.

Lemma apply_postprocess_no_request config response :
  silent request_of (apply_postprocess R config response).
Proof.
  unfold apply_postprocess. silent_auto.
  apply run_postprocessor_silent; auto.
Qed.

Lemma apply_output_no_request config data :
  silent request_of (apply_output R config data).
Proof.
  unfold apply_output. silent_auto.
  apply run_output_processor_silent; auto.
Qed.

Lemma process_response_no_request config response :
  silent request_of (process_response E R config response).
Proof.
  unfold process_response. silent_auto;
    first [ apply save_response_silent; auto
          | apply apply_postprocess_no_request
          | apply apply_output_no_request ].
Qed.

Lemma request_new_token_total client_id client_secret token_url oauth_verify :
  total (OAuth._request_new_token E client_id client_secret token_url oauth_verify).
Proof.
  unfold OAuth._request_new_token. apply total_try_except.
  repeat (apply total_bind; [|intros ?]); intros st; now exists tt.
Qed.

Lemma get_token_total client_id client_secret token_url oauth_verify :
  total (OAuth.get_token E client_id client_secret token_url oauth_verify).
Proof.
  unfold OAuth.get_token.
  apply total_bind; [intros st; eexists; reflexivity | intros t].
  apply total_bind; [apply total_gets | intros b].
  apply total_bind; [|intros _; apply total_gets].
  destruct b; [apply request_new_token_total | apply total_ret].
Qed.

Lemma prepare_headers_total : total (_prepare_headers E H).
Proof.
  unfold _prepare_headers. destruct (h_auth H); try apply total_ret.
  apply total_bind; [apply get_token_total | intros t].
  destruct (Py.truthy t); apply total_ret.
Qed.

Lemma session_request_adds rq :
  adds request_of [rq] (session_request E rq).
Proof.
  intros st. unfold session_request.
  destruct (transport E (n_req st) rq); simpl; now rewrite omap_app.
Qed.

(** the [try] block of [call_single_api], for given headers *)
Lemma try_block_adds_request config rq :
  adds request_of [rq]
    (try_except
       (do* log INFO (Calling (rq_method rq) (rq_url rq)) in
        let* response := session_request E rq in
        process_response E R config response)
       (do* log ERROR (ErrorCalling (rq_url rq)) in ret None)).
Proof.
  apply adds_try_except; [|silent_auto].
  apply adds_bind_r; [intros st; now exists tt | silent_auto | intros _].
  apply adds_bind_l; [apply session_request_adds | intros r].
  apply process_response_no_request.
Qed.

Lemma try_block_total {A} (m : M (option A)) msg :
  total (try_except m (do* log ERROR msg in ret None)).
Proof. apply total_try_except. intros st. now exists None. Qed.

(** Without a preprocessor, [call_single_api] returns, and it issues one
    transport call, to the URL of the configuration. *)
Lemma call_single_api_one_request config st :
  no_preprocessor config ->
  exists res rq,
    fst (call_single_api E R H config st) = Val res /\
    requests_of (trace (snd (call_single_api E R H config st)))
      = requests_of (trace st) ++ [rq] /\
    rq_url rq = url config.
Proof.
  intros Hno. unfold call_single_api.
  assert (Hpre : apply_preprocess R config = ret config).
  { unfold apply_preprocess. unfold no_preprocessor in Hno.
    destruct (preprocess config); [now rewrite Hno | reflexivity]. }
  rewrite Hpre. rewrite (bind_val (ret config) _ st config st eq_refl).
  destruct (prepare_headers_total st) as [hdrs Hh].
  pose proof (prepare_headers_silent request_of
                ltac:(reflexivity) ltac:(reflexivity) E H st) as Hs.
  destruct (_prepare_headers E H st) as [[hdrs'|e] st1] eqn:Hph;
    simpl in Hh, Hs; [|discriminate].
  rewrite (bind_val _ _ st hdrs' st1 Hph).
  match goal with
  | |- context [session_request E ?r] => set (rq := r)
  end.
  pose proof (try_block_adds_request config rq st1) as Hadd.
  destruct (try_block_total
              (do* log INFO (Calling (rq_method rq) (rq_url rq)) in
               let* response := session_request E rq in
               process_response E R config response)
              (ErrorCalling (rq_url rq)) st1) as [res Hres].
  subst rq. cbn [rq_method rq_url] in Hadd, Hres.
  do 2 eexists. split; [exact Hres|]. split.
  - unfold requests_of. rewrite Hadd, Hs. reflexivity.
  - reflexivity.
Qed.

End WithEnv.
End SingleCall.

(** ** The calls of the nested-call orchestrator *)

Module NestedCalls.
Import Effects SingleCall APIHandler Placeholders.

Lemma yields_ret {A} (v : A) : yields v (ret v).
Proof. intros st. now exists st. Qed.

Lemma yields_log l m : yields tt (log l m).
Proof.
  intros st. eexists. split; [reflexivity|].
  simpl. unfold requests_of. rewrite omap_app. apply app_nil_r.
Qed.

Lemma yields_bind {A C} (v : A) (w : C) (m : M A) (k : A -> M C) :
  yields v m -> yields w (k v) -> yields w (bind m k).
Proof.
  intros Hm Hk st. destruct (Hm st) as [st1 [Hm1 Hr1]].
  destruct (Hk st1) as [st2 [Hk2 Hr2]].
  exists st2. rewrite (bind_val _ _ _ _ _ Hm1). split; [exact Hk2 | congruence].
Qed.

Lemma issues_yields {A} (v : A) (m : M A) : yields v m -> issues [] m.
Proof.
  intros Hm st. destruct (Hm st) as [st1 [Hm1 Hr1]].
  exists v, st1, []. rewrite app_nil_r. auto.
Qed.

Lemma issues_bind_yields {A C} (v : A) urls (m : M A) (k : A -> M C) :
  yields v m -> issues urls (k v) -> issues urls (bind m k).
Proof.
  intros Hm Hk st. destruct (Hm st) as [st1 [Hm1 Hr1]].
  destruct (Hk st1) as [a [st2 [rqs [Hk2 [Hr2 Hu]]]]].
  exists a, st2, rqs. rewrite (bind_val _ _ _ _ _ Hm1).
  repeat split; [exact Hk2 | congruence | exact Hu].
Qed.

Lemma issues_bind {A C} urls1 urls2 (m : M A) (k : A -> M C) :
  issues urls1 m -> (forall a, issues urls2 (k a)) ->
  issues (urls1 ++ urls2) (bind m k).
Proof.
  intros Hm Hk st. destruct (Hm st) as [a [st1 [rqs1 [Hm1 [Hr1 Hu1]]]]].
  destruct (Hk a st1) as [c [st2 [rqs2 [Hk2 [Hr2 Hu2]]]]].
  exists c, st2, (rqs1 ++ rqs2). rewrite (bind_val _ _ _ _ _ Hm1).
  repeat split; [exact Hk2 | | ].
  - rewrite Hr2, Hr1. apply eq_sym, app_assoc.
  - rewrite map_app. congruence.
Qed.

Lemma issues_try_except {A} urls (m h : M A) :
  issues urls m -> issues urls (try_except m h).
Proof.
  intros Hm st. destruct (Hm st) as [a [st1 [rqs [Hm1 H1]]]].
  exists a, st1, rqs. unfold try_except. now rewrite Hm1.
Qed.

Section WithEnv.
Variable E : env.
Variable R : registry.
Variable H : handler.

Lemma issues_call_single_api config :
  no_preprocessor config -> issues [url config] (call_single_api E R H config).
Proof.
  intros Hno st.
  destruct (call_single_api_one_request E R H config st Hno)
    as [res [rq [Hres [Hreq Hurl]]]].
  destruct (call_single_api E R H config st) as [r st'] eqn:Hc; simpl in *.
  subst r. exists res, st', [rq]. repeat split; [exact Hreq|].
  simpl. now rewrite Hurl.
Qed.

Lemma issues_issue_child child_api url original_url :
  no_preprocessor child_api ->
  issues [Some url] (issue_child E R H child_api url original_url).
Proof.
  intros Hno. unfold issue_child.
  apply (issues_bind_yields tt); [apply yields_log|].
  change [Some url] with ([Some url] ++ []).
  apply issues_bind; [now apply issues_call_single_api | intros _].
  simpl. destruct (0 <? default 1 (interval child_api)).
  - apply (issues_yields tt). intros st. eexists. split; [reflexivity|].
    simpl. unfold requests_of. rewrite omap_app. apply app_nil_r.
  - apply (issues_yields tt), yields_ret.
Qed.

(** a pair whose URL passes the placeholder test after the first pass *)
Lemma issues_call_child_resolved parent_data item child_config resolved :
  no_preprocessor child_config ->
  substitute item (default EmptyString (url child_config)) = resolved ->
  has_braces resolved = false ->
  issues [Some resolved] (call_child E R H parent_data item child_config).
Proof.
  intros Hno Hsub Hb. unfold call_child. rewrite Hsub, Hb.
  apply (issues_bind_yields resolved); [apply yields_ret|].
  rewrite Hb. now apply issues_issue_child.
Qed.

End WithEnv.
End NestedCalls.

(** ** The testable properties of the nested-call orchestrator *)

Module NestedProperties.
Import Effects SingleCall APIHandler Placeholders NestedCalls.

Section WithEnv.
Variable E : env.
Variable R : registry.
Variable H : handler.

(** a mapping item whose fields resolve the URL of the only child *)
Lemma issues_process_item parent_data d child_config resolved :
  no_preprocessor child_config ->
  substitute d (default EmptyString (url child_config)) = resolved ->
  has_braces resolved = false ->
  issues [Some resolved]
    (process_item E R H parent_data (JDict d) [child_config]).
Proof.
  intros Hno Hsub Hb. unfold process_item.
  apply (issues_bind_yields d); [apply yields_ret|].
  apply (issues_bind_yields tt); [apply yields_log|].
  simpl. change [Some resolved] with ([Some resolved] ++ []).
  apply issues_bind; [now apply issues_call_child_resolved | intros _].
  apply (issues_yields tt), yields_ret.
Qed.

(** a parent call that succeeded is followed by the [try] block *)
Lemma parent_succeeded parent children st response st1 :
  call_single_api E R H parent st = (Val (Some response), st1) ->
  status_code response < 400 ->
  exists body handler,
    call_nested_apis E R H parent children st = try_except body handler st1 /\
    body =
      (let* parent_data := resp_json response in
       do* log ERROR (ParentResponse parent_data) in
       let path := default EmptyString (items_path parent) in
       let found :=
         if String.eqb path EmptyString then inr parent_data
         else navigate path (PyStr.split "." path) parent_data in
       match found with
       | inl msg => log ERROR msg
       | inr target_data =>
           let* items_to_process :=
             match target_data with
             | JList l =>
                 do* log INFO (ProcessingList (length l)) in
                 ret l
             | JDict _ =>
                 do* log INFO ProcessingDictionary in
                 ret [target_data]
             | _ =>
                 let key_name :=
                   if String.eqb path EmptyString then "value"%string
                   else PyStr.last_or EmptyString (PyStr.split "." path) in
                 do* log INFO (ProcessingPrimitive target_data key_name) in
                 ret [JDict [(key_name, target_data)]]
             end in
           for_items E R H parent_data items_to_process children
       end).
Proof.
  intros Hparent Hstatus. do 2 eexists. split; [|reflexivity].
  unfold call_nested_apis. rewrite (bind_val _ _ _ _ _ Hparent).
  assert (Hok : negb (response_ok response) || (400 <=? status_code response)
                = false).
  { unfold response_ok.
    destruct (400 <=? status_code response) eqn:Hc; [lia | reflexivity]. }
  rewrite Hok. reflexivity.
Qed.


(** C7.  Given a parent response [{"id": 7}], no [items_path] and one child
    whose URL is ["/child/{id}"] (a child that names no preprocessor),
    the whole response is the one item: [call_nested_apis] issues, after
    the parent call, exactly one transport call, to ["/child/7"]. *)
Theorem nested_mapping_issues_one_call parent child st response st1 :
  call_single_api E R H parent st = (Val (Some response), st1) ->
  status_code response < 400 ->
  json_body response = Some Sample.one_id ->
  default EmptyString (items_path parent) = EmptyString ->
  url child = Some "/child/{id}"%string ->
  no_preprocessor child ->
  exists st2 rq,
    call_nested_apis E R H parent [child] st = (Val tt, st2) /\
    requests_of (trace st2) = requests_of (trace st1) ++ [rq] /\
    rq_url rq = Some "/child/7"%string.
Proof.
  intros Hparent Hstatus Hjson Hpath Hurl Hno.
  destruct (parent_succeeded parent [child] st response st1 Hparent Hstatus)
    as [body [handler [Hcall Hbody]]].
  assert (Hi : issues [Some "/child/7"%string] (try_except body handler)).
  { apply issues_try_except. subst body. unfold resp_json. rewrite Hjson.
    apply (issues_bind_yields Sample.one_id); [apply yields_ret|].
    apply (issues_bind_yields tt); [apply yields_log|].
    rewrite Hpath. unfold Sample.one_id. simpl.
    apply (issues_bind_yields [JDict [("id"%string, JInt 7)]]).
    { eapply yields_bind; [apply yields_log | apply yields_ret]. }
    cbn [for_items].
    change [Some "/child/7"%string] with ([Some "/child/7"%string] ++ []).
    apply issues_bind; [|intros _].
    - apply issues_process_item; [exact Hno | now rewrite Hurl | reflexivity].
    - apply (issues_yields tt), yields_ret. }
  destruct (Hi st1) as [[] [st2 [rqs [Hrun [Hreq Hurls]]]]].
  destruct rqs as [|rq [|]]; try discriminate.
  injection Hurls as Hu.
  exists st2, rq. rewrite Hcall. auto.
Qed.

End WithEnv.


Lemma nested_mapping_issues_one_call_witness :
  exists st2 rq,
    call_nested_apis (Sample.server (Sample.ok_json Sample.one_id))
      Registry.empty Sample.basic_auth
      (Sample.api "/parent") [Sample.api "/child/{id}"]
      init_state = (Val tt, st2) /\
    requests_of (trace st2)
      = requests_of
          (trace (snd (call_single_api
                         (Sample.server (Sample.ok_json Sample.one_id))
                         Registry.empty Sample.basic_auth
                         (Sample.api "/parent") init_state)))
        ++ [rq] /\
    rq_url rq = Some "/child/7"%string.
Proof.
  apply (nested_mapping_issues_one_call
           (Sample.server (Sample.ok_json Sample.one_id))
           Registry.empty Sample.basic_auth
           (Sample.api "/parent") (Sample.api "/child/{id}")
           init_state (Sample.ok_json Sample.one_id)).
  - vm_compute. reflexivity.
  - simpl. lia.
  - reflexivity.
  - reflexivity.
  - reflexivity.
  - exact I.
Defined.

End NestedProperties.

(** ** The placeholder test *)

Module PlaceholderTest.
Import PyStr PyStrFacts Effects APIHandler Placeholders.

#[local] Arguments String.append !s1 s2 : simpl nomatch.

Section WithEnv.
Variable E : env.
Variable R : registry.
Variable H : handler.

(** What [call_child] does, in terms of the URL after both passes. *)
Lemma call_child_cases parent_data item child st :
  let original := default EmptyString (url child) in
  let first := substitute item original in
  let final := both_passes parent_data item original in
  let st1 :=
    if has_braces first
    then with_trace st (trace st ++ [EvLog WARNING (PlaceholdersNotReplaced first)])
    else st in
  call_child E R H parent_data item child st =
    if has_braces final
    then (Val tt,
          with_trace st1 (trace st1 ++ [EvLog ERROR (UnresolvedPlaceholders final)]))
    else issue_child E R H child final original st1.
Proof.
  intros original first final st1. unfold call_child.
  fold original. fold first.
  pose proof (tested_url_is_both_passes parent_data item original) as Hfinal.
  fold first in Hfinal. fold final in Hfinal.
  subst st1. destruct (has_braces first) eqn:Hb.
  - rewrite (bind_val _ _ st final
               (with_trace st (trace st ++ [EvLog WARNING (PlaceholdersNotReplaced first)]))).
    + destruct (has_braces final); reflexivity.
    + rewrite <- Hfinal. reflexivity.
  - rewrite (bind_val _ _ st final st).
    + destruct (has_braces final); reflexivity.
    + rewrite <- Hfinal. reflexivity.
Qed.


(** C9.  The test of [call_child] is the brace test on the URL after both
    substitution passes: the pair is skipped (an error is logged and
    nothing else happens) when that URL has a ['{'] and a ['}'] somewhere,
    and the child is called with that URL otherwise.  So a pair is skipped
    also when the braces come from the text of a substituted mapping
    although its placeholder was replaced, and when the braces of the URL
    delimit no placeholder at all. *)
Theorem placeholder_test_is_brace_test :
  (forall parent_data item child st,
     let original := default EmptyString (url child) in
     let first := substitute item original in
     let final := both_passes parent_data item original in
     let st1 :=
       if has_braces first
       then with_trace st
              (trace st ++ [EvLog WARNING (PlaceholdersNotReplaced first)])
       else st in
     call_child E R H parent_data item child st =
       if str_in "{" final && str_in "}" final
       then (Val tt,
             with_trace st1
               (trace st1 ++ [EvLog ERROR (UnresolvedPlaceholders final)]))
       else issue_child E R H child final original st1) /\
  (let final :=
     both_passes JNull [("id"%string, JDict [("a"%string, JInt 1)])]
       "/child/{id}" in
   final = "/child/{'a': 1}"%string /\
   str_in (placeholder "id") final = false /\
   has_braces final = true) /\
  (let final := both_passes JNull [("id"%string, JInt 1)] "/a}b{c" in
   final = "/a}b{c"%string /\
   (forall name, str_in (placeholder name) final = false) /\
   has_braces final = true).
Proof.
  split; [|split].
  - intros. apply call_child_cases.
  - repeat split; reflexivity.
  - split; [reflexivity|]. split; [|reflexivity].
    intros name. change (str_in (placeholder name) "/a}b{c" = false).
    destruct (str_in (placeholder name) "/a}b{c") eqn:Hin; [|reflexivity].
    exfalso. apply str_in_spec in Hin. destruct Hin as [before [after Hs]].
    unfold placeholder in Hs.
    repeat (destruct before as [|? before]; simpl in Hs;
            [try discriminate | injection Hs as ? Hs; subst]);
      try discriminate.
    + injection Hs as Hs.
      destruct name as [|? name]; simpl in Hs; [discriminate|].
      injection Hs as ? Hs. destruct name; discriminate.
    + destruct before; discriminate.
Qed.

End WithEnv.


End PlaceholderTest.

(** ** The processor registry *)

Module RegistryProperties.



End RegistryProperties.

(** ** The OAuth token cache *)

Module OAuthProperties.
Import Effects.

Section WithEnv.
Variable E : env.
Variables client_id client_secret token_url oauth_verify : json.

Lemma post_token_adds rq : adds token_post_of [rq] (OAuth.post_token E rq).
Proof.
  intros st. unfold OAuth.post_token.
  destruct (token_endpoint E (n_tok st) rq); simpl; now rewrite omap_app.
Qed.

(** a refresh performs one request to the token endpoint *)
Lemma request_new_token_posts_once :
  exists rq,
    adds token_post_of [rq]
      (OAuth._request_new_token E client_id client_secret token_url oauth_verify).
Proof.
  eexists. unfold OAuth._request_new_token.
  apply adds_try_except; [|silent_auto].
  apply adds_bind_r; [intros st; now exists tt | silent_auto | intros _].
  apply adds_bind_l; [apply post_token_adds | intros r].
  silent_auto.
Qed.

(** C6.  [get_token] performs exactly one token request when no token is
    cached (or no expiry is recorded) and when the recorded expiry is less
    than four hours after the current time; when more than four hours
    remain it performs none, returns the cached token and leaves token and
    expiry as they were. *)
Theorem get_token_refreshes_within_margin (st : state) :
  let current_time := clock E (n_clock st) in
  let run := OAuth.get_token E client_id client_secret token_url oauth_verify st in
  (token st = JNull \/ token_expiry st = None \/
   (exists expiry, token_expiry st = Some expiry /\
                   expiry - current_time < OAuth.four_hours) ->
   exists rq,
     token_posts_of (trace (snd run)) = token_posts_of (trace st) ++ [rq]) /\
  (forall expiry,
     token st <> JNull -> token_expiry st = Some expiry ->
     expiry - current_time > OAuth.four_hours ->
     fst run = Val (token st) /\
     token_posts_of (trace (snd run)) = token_posts_of (trace st) /\
     token (snd run) = token st /\
     token_expiry (snd run) = Some expiry).
Proof.
  intros current_time run. subst run.
  set (st1 := {| trace := trace st; n_req := n_req st; n_tok := n_tok st;
                 n_clock := S (n_clock st); n_save := n_save st;
                 token := token st; token_expiry := token_expiry st;
                 token_type := token_type st |}).
  assert (Hget :
    OAuth.get_token E client_id client_secret token_url oauth_verify st
    = bind (if OAuth.needs_refresh st1 current_time
            then OAuth._request_new_token E client_id client_secret
                   token_url oauth_verify
            else ret tt)
        (fun _ => gets token) st1) by reflexivity.
  rewrite Hget. clear Hget.
  split.
  - intros Hstale.
    assert (Hneed : OAuth.needs_refresh st1 current_time = true).
    { unfold OAuth.needs_refresh, st1; cbn [token token_expiry].
      destruct Hstale as [Hnone | [Hnone | [expiry [Hexp Hlt]]]].
      - now rewrite Hnone.
      - rewrite Hnone. apply orb_true_r.
      - rewrite Hexp. apply orb_true_iff; right. apply Z.leb_le. lia. }
    rewrite Hneed.
    destruct request_new_token_posts_once as [rq Hadd]. exists rq.
    match goal with
    | |- context [bind ?m ?k ?s] =>
        pose proof (adds_bind_l token_post_of [rq] m k Hadd
                      ltac:(intros; apply silent_gets) s) as Hrun
    end.
    unfold token_posts_of. rewrite Hrun. reflexivity.
  - intros expiry Htok Hexp Hgt.
    assert (Hneed : OAuth.needs_refresh st1 current_time = false).
    { unfold OAuth.needs_refresh, st1; cbn [token token_expiry]. rewrite Hexp.
      apply orb_false_iff; split.
      - destruct (token st); try reflexivity. congruence.
      - apply Z.leb_gt. lia. }
    rewrite Hneed. simpl. auto.
Qed.

End WithEnv.

Lemma get_token_refreshes_within_margin_witness :
  (exists rq,
     token_posts_of
       (trace (snd (OAuth.get_token Sample.granting (JStr "id") (JStr "secret")
                      (JStr "https://auth/token") (JBool true)
                      (Sample.holding (3 * 3600 * 1000000)))))
     = token_posts_of (trace (Sample.holding (3 * 3600 * 1000000))) ++ [rq]) /\
  (let run := OAuth.get_token Sample.granting (JStr "id") (JStr "secret")
                (JStr "https://auth/token") (JBool true)
                (Sample.holding (5 * 3600 * 1000000)) in
   fst run = Val (JStr "tok-1") /\
   token_posts_of (trace (snd run)) = [] /\
   token (snd run) = JStr "tok-1" /\
   token_expiry (snd run) = Some (5 * 3600 * 1000000)).
Proof.
  split.
  - destruct (get_token_refreshes_within_margin Sample.granting (JStr "id")
                (JStr "secret") (JStr "https://auth/token") (JBool true)
                (Sample.holding (3 * 3600 * 1000000))) as [Hstale _].
    apply Hstale. right; right.
    exists (3 * 3600 * 1000000). split; [reflexivity|].
    vm_compute. reflexivity.
  - destruct (get_token_refreshes_within_margin Sample.granting (JStr "id")
                (JStr "secret") (JStr "https://auth/token") (JBool true)
                (Sample.holding (5 * 3600 * 1000000))) as [_ Hfresh].
    apply (Hfresh (5 * 3600 * 1000000)).
    + discriminate.
    + reflexivity.
    + vm_compute. reflexivity.
Defined.

End OAuthProperties.

(** ** Runs that differ in the file system only *)

Module FileFailures.
Import Effects APIHandler.

Lemma agree_refl st : agree st st.
Proof. unfold agree. repeat split. Qed.

Lemma agree_sym st1 st2 : agree st1 st2 -> agree st2 st1.
Proof. unfold agree. intuition congruence. Qed.

Lemma agree_trans st1 st2 st3 : agree st1 st2 -> agree st2 st3 -> agree st1 st3.
Proof. unfold agree. intuition congruence. Qed.

Lemma beyond_files_app t1 t2 :
  beyond_files (t1 ++ t2) = beyond_files t1 ++ beyond_files t2.
Proof. unfold beyond_files. apply List.filter_app. Qed.

Lemma requests_beyond_files t : requests_of (beyond_files t) = requests_of t.
Proof.
  induction t as [|e t IH]; [reflexivity|].
  unfold requests_of, beyond_files, omap in *.
  destruct e as [l m| | | | | | | | |]; simpl; try congruence.
  destruct m; simpl; congruence.
Qed.

Lemma agree_requests st1 st2 :
  agree st1 st2 -> requests_of (trace st1) = requests_of (trace st2).
Proof.
  intros [Ht _]. rewrite <- (requests_beyond_files (trace st1)), Ht.
  apply requests_beyond_files.
Qed.

(** *** [sim] through the combinators *)

Lemma sim_ret {A} (a : A) : sim (ret a) (ret a).
Proof. intros st1 st2 Ha. split; [reflexivity | exact Ha]. Qed.

Lemma sim_raise {A} (e : exn) : sim (@raise A e) (raise e).
Proof. intros st1 st2 Ha. split; [reflexivity | exact Ha]. Qed.

Lemma sim_bind {A C} (m1 m2 : M A) (k1 k2 : A -> M C) :
  sim m1 m2 -> (forall a, sim (k1 a) (k2 a)) -> sim (bind m1 k1) (bind m2 k2).
Proof.
  intros Hm Hk st1 st2 Ha. unfold bind. destruct (Hm st1 st2 Ha) as [Hr Hs].
  destruct (m1 st1) as [[a1|e1] s1], (m2 st2) as [[a2|e2] s2];
    simpl in *; try discriminate.
  - injection Hr as ->. now apply Hk.
  - injection Hr as ->. split; [reflexivity | assumption].
Qed.

Lemma sim_try_except {A} (m1 m2 h1 h2 : M A) :
  sim m1 m2 -> sim h1 h2 -> sim (try_except m1 h1) (try_except m2 h2).
Proof.
  intros Hm Hh st1 st2 Ha. unfold try_except.
  destruct (Hm st1 st2 Ha) as [Hr Hs].
  destruct (m1 st1) as [[a1|e1] s1], (m2 st2) as [[a2|e2] s2];
    simpl in *; try discriminate.
  - split; assumption.
  - now apply Hh.
Qed.

Lemma sim_try_except_ValueError {A} (m1 m2 h1 h2 : M A) :
  sim m1 m2 -> sim h1 h2 ->
  sim (try_except_ValueError m1 h1) (try_except_ValueError m2 h2).
Proof.
  intros Hm Hh st1 st2 Ha. unfold try_except_ValueError.
  destruct (Hm st1 st2 Ha) as [Hr Hs].
  destruct (m1 st1) as [[a1|e1] s1], (m2 st2) as [[a2|e2] s2];
    simpl in *; try discriminate.
  - split; assumption.
  - injection Hr as ->. destruct e2; try (split; [reflexivity | assumption]).
    now apply Hh.
Qed.

Lemma sim_emit (e : event) : sim (emit e) (emit e).
Proof.
  intros st1 st2 [Ht Hrest]. split; [reflexivity|].
  unfold agree, emit; simpl. split; [|exact Hrest].
  rewrite !beyond_files_app. now rewrite Ht.
Qed.

Lemma sim_gets {A} (f : state -> A) :
  (forall st1 st2, agree st1 st2 -> f st1 = f st2) -> sim (gets f) (gets f).
Proof.
  intros Hf st1 st2 Ha. unfold gets; simpl.
  split; [now rewrite (Hf st1 st2 Ha) | exact Ha].
Qed.

(** *** [quiet] through the combinators *)

Lemma quiet_ret {A} (a : A) : quiet (ret a).
Proof. intros st. apply agree_refl. Qed.

Lemma quiet_raise {A} (e : exn) : quiet (@raise A e).
Proof. intros st. apply agree_refl. Qed.

Lemma quiet_bind {A C} (m : M A) (k : A -> M C) :
  quiet m -> (forall a, quiet (k a)) -> quiet (bind m k).
Proof.
  intros Hm Hk st. unfold bind. specialize (Hm st).
  destruct (m st) as [[a|e] st']; simpl in *; [|exact Hm].
  eapply agree_trans; [exact Hm | apply Hk].
Qed.

Lemma quiet_try_except {A} (m h : M A) :
  quiet m -> quiet h -> quiet (try_except m h).
Proof.
  intros Hm Hh st. unfold try_except. specialize (Hm st).
  destruct (m st) as [[a|e] st']; simpl in *; [exact Hm|].
  eapply agree_trans; [exact Hm | apply Hh].
Qed.

Lemma quiet_emit (e : event) : file_event e = true -> quiet (emit e).
Proof.
  intros He st. unfold agree, emit; simpl. repeat split.
  rewrite beyond_files_app. unfold beyond_files at 3; simpl. rewrite He.
  simpl. now rewrite app_nil_r.
Qed.

(** two quiet computations of a unit that return are similar *)
Lemma sim_quiet (m1 m2 : M unit) :
  quiet m1 -> quiet m2 -> total m1 -> total m2 -> sim m1 m2.
Proof.
  intros Hq1 Hq2 Ht1 Ht2 st1 st2 Ha.
  destruct (Ht1 st1) as [[] H1], (Ht2 st2) as [[] H2]. split; [congruence|].
  eapply agree_trans; [apply agree_sym, Hq1|].
  eapply agree_trans; [exact Ha | apply Hq2].
Qed.

(** *** The steps that touch the state *)

Ltac agree_fields :=
  match goal with
  | Ha : agree _ _ |- _ =>
      unfold agree in *; simpl;
      destruct Ha as (Ht & Hreq & Htok & Hclock & Hsave & Htoken & Hexp & Hty)
  end.

Lemma sim_set_token v : sim (set_token v) (set_token v).
Proof. intros st1 st2 Ha. agree_fields. auto 10. Qed.

Lemma sim_set_token_expiry v : sim (set_token_expiry v) (set_token_expiry v).
Proof. intros st1 st2 Ha. agree_fields. auto 10. Qed.

Lemma sim_set_token_type v : sim (set_token_type v) (set_token_type v).
Proof. intros st1 st2 Ha. agree_fields. auto 10. Qed.

Section WithEnv.
Variable E : env.
Variable opens : nat -> string -> bool.
Variable writes : nat -> nat -> bool.
Variable R : registry.
Variable H : handler.

Let E' := with_files E opens writes.

Lemma sim_now : sim (OAuth.now E') (OAuth.now E).
Proof.
  intros st1 st2 Ha. agree_fields. rewrite Hclock.
  repeat split; auto.
Qed.

Lemma sim_next_save : sim next_save next_save.
Proof.
  intros st1 st2 Ha. agree_fields. rewrite Hsave.
  repeat split; auto.
Qed.

Lemma sim_post_token rq : sim (OAuth.post_token E' rq) (OAuth.post_token E rq).
Proof.
  intros st1 st2 Ha. agree_fields. unfold OAuth.post_token; simpl.
  rewrite Htok.
  destruct (token_endpoint E (n_tok st2) rq); simpl;
    rewrite !beyond_files_app, Ht; repeat split; auto.
Qed.

Lemma sim_session_request rq :
  sim (session_request E' rq) (session_request E rq).
Proof.
  intros st1 st2 Ha. agree_fields. unfold session_request; simpl.
  rewrite Hreq.
  destruct (transport E (n_req st2) rq); simpl;
    rewrite !beyond_files_app, Ht; repeat split; auto.
Qed.

Lemma sim_makedirs i : sim (makedirs E' i) (makedirs E i).
Proof.
  unfold makedirs; simpl. destruct (makedirs_ok E i);
    [apply sim_emit | apply sim_raise].
Qed.

End WithEnv.

(** one step of a proof of [sim] for two computations of the same shape *)
Ltac sim_step :=
  match goal with
  | |- sim (ret _) (ret _) => apply sim_ret
  | |- sim (raise _) (raise _) => apply sim_raise
  | |- sim (bind _ _) (bind _ _) => apply sim_bind; [|intros ?]
  | |- sim (try_except _ _) (try_except _ _) => apply sim_try_except
  | |- sim (try_except_ValueError _ _) (try_except_ValueError _ _) =>
      apply sim_try_except_ValueError
  | |- sim (emit _) (emit _) => apply sim_emit
  | |- sim (log _ _) (log _ _) => apply sim_emit
  | |- sim (set_token _) (set_token _) => apply sim_set_token
  | |- sim (set_token_expiry _) (set_token_expiry _) => apply sim_set_token_expiry
  | |- sim (set_token_type _) (set_token_type _) => apply sim_set_token_type
  | |- sim (OAuth.now _) (OAuth.now _) => apply sim_now
  | |- sim next_save next_save => apply sim_next_save
  | |- sim (OAuth.post_token _ _) (OAuth.post_token _ _) => apply sim_post_token
  | |- sim (session_request _ _) (session_request _ _) =>
      apply sim_session_request
  | |- sim (makedirs _ _) (makedirs _ _) => apply sim_makedirs
  | |- sim (resp_json _) (resp_json _) => unfold resp_json
  | |- sim (check_kwargs _ _) (check_kwargs _ _) => unfold check_kwargs
  | |- sim (OAuth.timedelta_seconds _) _ => unfold OAuth.timedelta_seconds
  | |- sim (OAuth.data_get _ _ _) _ => unfold OAuth.data_get
  | |- sim (match ?x with _ => _ end) (match ?x with _ => _ end) =>
      destruct x eqn:?
  end.

Ltac sim_auto := repeat sim_step.

(** one step of a proof of [quiet] *)
Ltac quiet_step :=
  match goal with
  | |- quiet (ret _) => apply quiet_ret
  | |- quiet (raise _) => apply quiet_raise
  | |- quiet (bind _ _) => apply quiet_bind; [|intros ?]
  | |- quiet (try_except _ _) => apply quiet_try_except
  | |- quiet (emit _) => apply quiet_emit; reflexivity
  | |- quiet (log _ _) => apply quiet_emit; reflexivity
  | |- quiet (open_file _ _ _) => unfold open_file
  | |- quiet (write _ _ _ _ _) => unfold write
  | |- quiet (write_value _ _ _ _ _) => unfold write_value
  | |- quiet (join_lines _) => unfold join_lines
  | |- quiet (match ?x with _ => _ end) => destruct x eqn:?
  end.

Ltac quiet_auto := repeat quiet_step.

Section Similar.
Variable E : env.
Variable opens : nat -> string -> bool.
Variable writes : nat -> nat -> bool.
Variable R : registry.
Variable H : handler.

Let E' := with_files E opens writes.

Lemma sim_request_new_token client_id client_secret token_url oauth_verify :
  sim (OAuth._request_new_token E' client_id client_secret token_url oauth_verify)
      (OAuth._request_new_token E client_id client_secret token_url oauth_verify).
Proof. unfold OAuth._request_new_token. sim_auto. Qed.

Lemma sim_get_token client_id client_secret token_url oauth_verify :
  sim (OAuth.get_token E' client_id client_secret token_url oauth_verify)
      (OAuth.get_token E client_id client_secret token_url oauth_verify).
Proof.
  unfold OAuth.get_token.
  apply sim_bind; [apply sim_now | intros t].
  apply sim_bind; [|intros b].
  - apply sim_gets. intros st1 st2 Ha. agree_fields.
    unfold OAuth.needs_refresh. now rewrite Htoken, Hexp.
  - apply sim_bind; [|intros _].
    + destruct b; [apply sim_request_new_token | apply sim_ret].
    + apply sim_gets. intros st1 st2 Ha. now agree_fields.
Qed.

Lemma sim_prepare_headers :
  sim (_prepare_headers E' H) (_prepare_headers E H).
Proof.
  unfold _prepare_headers. destruct (h_auth H); sim_auto.
  apply sim_get_token.
Qed.

(** the [try] block of [_save_response] and its handler, for either file
    system: they return, and leave file events only *)
Lemma save_block_quiet (F : env) (i : nat) (filename : string) (data : pyval)
  (is_error : bool) (status : option Z) (endpoint : string) :
  quiet
    (try_except
       (do* open_file F i filename in
        do* match data with
            | PJ (JDict d) =>
                match Py.dict_get d "__flatten_json_output" with
                | Some v => write_value F i 0 filename v
                | None =>
                    match Py.dict_get d "__split_json_output" with
                    | Some v =>
                        let* lines := join_lines v in
                        write F i 0 filename (CText lines)
                    | None => write F i 0 filename (CJsonDump (JDict d))
                    end
                end
            | PJ (JStr s) => write F i 0 filename (CText s)
            | _ =>
                match (if is_error then status else None) with
                | Some code =>
                    if code =? 0
                    then write F i 0 filename (CText (pyval_str data))
                    else
                      do* write F i 0 filename
                            (CText ("Status code: " +:+ PyStr.str_of_Z code
                                    +:+ newline)) in
                      write F i 1 filename
                        (CText ("Response: " +:+ pyval_str data +:+ newline))
                | None => write F i 0 filename (CText (pyval_str data))
                end
            end in
        log INFO (ResponseSaved is_error endpoint filename))
       (log ERROR (FailedToSave is_error endpoint))).
Proof. quiet_auto. Qed.

Lemma sim_save_response endpoint data is_error status :
  sim (_save_response E' endpoint data is_error status)
      (_save_response E endpoint data is_error status).
Proof.
  unfold _save_response.
  apply sim_bind; [apply sim_next_save | intros i].
  apply sim_bind; [apply sim_makedirs | intros _].
  apply sim_bind; [apply sim_now | intros t].
  destruct endpoint as [endpoint|]; [|apply sim_raise].
  cbn [strftime E' with_files].
  apply sim_quiet;
    first [ apply save_block_quiet
          | apply total_try_except; intros st; now exists tt ].
Qed.

Lemma sim_run_preprocessor name config kwargs :
  sim (Registry.run_preprocessor R name config kwargs)
      (Registry.run_preprocessor R name config kwargs).
Proof. unfold Registry.run_preprocessor. sim_auto. Qed.

Lemma sim_run_postprocessor name response kwargs :
  sim (Registry.run_postprocessor R name response kwargs)
      (Registry.run_postprocessor R name response kwargs).
Proof. unfold Registry.run_postprocessor. sim_auto. Qed.

Lemma sim_run_output_processor name data endpoint kwargs :
  sim (Registry.run_output_processor R name data endpoint kwargs)
      (Registry.run_output_processor R name data endpoint kwargs).
Proof. unfold Registry.run_output_processor. sim_auto. Qed.

Lemma sim_apply_preprocess config :
  sim (apply_preprocess R config) (apply_preprocess R config).
Proof.
  unfold apply_preprocess. sim_auto. apply sim_run_preprocessor.
Qed.

Lemma sim_apply_postprocess config response :
  sim (apply_postprocess R config response) (apply_postprocess R config response).
Proof.
  unfold apply_postprocess. sim_auto. apply sim_run_postprocessor.
Qed.

Lemma sim_apply_output config data :
  sim (apply_output R config data) (apply_output R config data).
Proof.
  unfold apply_output. sim_auto. apply sim_run_output_processor.
Qed.

Lemma sim_process_response config response :
  sim (process_response E' R config response)
      (process_response E R config response).
Proof.
  unfold process_response. sim_auto;
    first [ apply sim_save_response
          | apply sim_apply_postprocess
          | apply sim_apply_output ].
Qed.

Lemma sim_call_single_api config :
  sim (call_single_api E' R H config) (call_single_api E R H config).
Proof.
  unfold call_single_api.
  apply sim_bind; [apply sim_apply_preprocess | intros config'].
  apply sim_bind; [apply sim_prepare_headers | intros headers].
  sim_auto. apply sim_process_response.
Qed.

Lemma sim_call_child parent_data item child :
  sim (call_child E' R H parent_data item child)
      (call_child E R H parent_data item child).
Proof.
  unfold call_child, issue_child. sim_auto. apply sim_call_single_api.
Qed.

Lemma sim_for_children parent_data item children :
  sim (for_children E' R H parent_data item children)
      (for_children E R H parent_data item children).
Proof.
  induction children as [|child rest IH]; simpl; [apply sim_ret|].
  apply sim_bind; [apply sim_call_child | intros _; exact IH].
Qed.

Lemma sim_for_items parent_data items children :
  sim (for_items E' R H parent_data items children)
      (for_items E R H parent_data items children).
Proof.
  induction items as [|item rest IH]; simpl; [apply sim_ret|].
  apply sim_bind; [|intros _; exact IH].
  unfold process_item. sim_auto; apply sim_for_children.
Qed.

Lemma sim_call_nested_apis parent children :
  sim (call_nested_apis E' R H parent children)
      (call_nested_apis E R H parent children).
Proof.
  unfold call_nested_apis.
  apply sim_bind; [apply sim_call_single_api | intros parent_response].
  sim_auto; apply sim_for_items.
Qed.

End Similar.

End FileFailures.

(** ** Default persistence keeps its failures *)

Module Persistence.
Import Effects APIHandler FileFailures.

Section WithEnv.
Variable E : env.
Variable opens : nat -> string -> bool.
Variable writes : nat -> nat -> bool.
Variable R : registry.
Variable H : handler.

(** what [_save_response] returns, whatever [open] and the writes do *)
Lemma save_response_result endpoint data is_error status st :
  fst (_save_response (with_files E opens writes) endpoint data is_error status st)
  = if makedirs_ok E (n_save st)
    then match endpoint with
         | Some _ => Val tt
         | None => Exn AttributeError
         end
    else Exn OSError.
Proof.
  unfold _save_response.
  unfold bind at 1, next_save at 1. unfold bind at 1, makedirs at 1.
  cbn [makedirs_ok with_files n_save].
  destruct (makedirs_ok E (n_save st)); [|reflexivity].
  unfold emit at 1. unfold bind at 1, OAuth.now at 1.
  destruct endpoint as [endpoint|]; [|reflexivity].
  match goal with
  | |- fst (try_except ?m ?h ?s) = _ =>
      destruct (total_try_except m h
                  ltac:(intros st0; now exists tt) s) as [[] Hr]
  end.
  exact Hr.
Qed.

(** the part of [_save_response] that writes, when every write fails *)
Lemma writing_raises F i filename (data : pyval) (is_error : bool)
  (status : option Z) st :
  (forall k, write_ok F i k = false) ->
  exists e,
    match data with
    | PJ (JDict d) =>
        match Py.dict_get d "__flatten_json_output" with
        | Some v => write_value F i 0 filename v
        | None =>
            match Py.dict_get d "__split_json_output" with
            | Some v =>
                let* lines := join_lines v in
                write F i 0 filename (CText lines)
            | None => write F i 0 filename (CJsonDump (JDict d))
            end
        end
    | PJ (JStr s) => write F i 0 filename (CText s)
    | _ =>
        match (if is_error then status else None) with
        | Some code =>
            if code =? 0
            then write F i 0 filename (CText (pyval_str data))
            else
              do* write F i 0 filename
                    (CText ("Status code: " +:+ PyStr.str_of_Z code
                            +:+ newline)) in
              write F i 1 filename
                (CText ("Response: " +:+ pyval_str data +:+ newline))
        | None => write F i 0 filename (CText (pyval_str data))
        end
    end st = (Exn e, st).
Proof.
  intros Hw.
  assert (Hwrite : forall k c, write F i k filename c st = (Exn OSError, st)).
  { intros k c. unfold write. now rewrite Hw. }
  assert (Hvalue : forall v, exists e,
            write_value F i 0 filename v st = (Exn e, st)).
  { intros v. unfold write_value. destruct v; eauto. }
  assert (Hjoin : forall v, exists e,
            bind (join_lines v)
              (fun lines => write F i 0 filename (CText lines)) st = (Exn e, st)).
  { intros v. unfold bind, join_lines.
    destruct v as [| | | |l|d]; eauto.
    - unfold ret. rewrite Hwrite. eauto.
    - destruct (mapM _ l); unfold ret, raise; [rewrite Hwrite|]; eauto.
    - unfold ret. rewrite Hwrite. eauto. }
  assert (Hother : exists e,
            match (if is_error then status else None) with
            | Some code =>
                if code =? 0
                then write F i 0 filename (CText (pyval_str data))
                else
                  do* write F i 0 filename
                        (CText ("Status code: " +:+ PyStr.str_of_Z code
                                +:+ newline)) in
                  write F i 1 filename
                    (CText ("Response: " +:+ pyval_str data +:+ newline))
            | None => write F i 0 filename (CText (pyval_str data))
            end st = (Exn e, st)).
  { destruct (if is_error then status else None) as [code|]; [|eauto].
    destruct (code =? 0); [eauto|].
    unfold bind. rewrite Hwrite. eauto. }
  destruct data as [[| | |s|l|d]|r]; eauto.
  destruct (Py.dict_get d "__flatten_json_output"); [apply Hvalue|].
  destruct (Py.dict_get d "__split_json_output"); [apply Hjoin | eauto].
Qed.

(** the [try] block of [_save_response] when the file opens and every
    write fails *)
Lemma save_block_write_fails (F : env) (i : nat) (filename : string)
  (data : pyval) (is_error : bool) (status : option Z) (endpoint : string) st :
  open_ok F i filename = true ->
  (forall k, write_ok F i k = false) ->
  try_except
    (do* open_file F i filename in
     do* match data with
         | PJ (JDict d) =>
             match Py.dict_get d "__flatten_json_output" with
             | Some v => write_value F i 0 filename v
             | None =>
                 match Py.dict_get d "__split_json_output" with
                 | Some v =>
                     let* lines := join_lines v in
                     write F i 0 filename (CText lines)
                 | None => write F i 0 filename (CJsonDump (JDict d))
                 end
             end
         | PJ (JStr s) => write F i 0 filename (CText s)
         | _ =>
             match (if is_error then status else None) with
             | Some code =>
                 if code =? 0
                 then write F i 0 filename (CText (pyval_str data))
                 else
                   do* write F i 0 filename
                         (CText ("Status code: " +:+ PyStr.str_of_Z code
                                 +:+ newline)) in
                   write F i 1 filename
                     (CText ("Response: " +:+ pyval_str data +:+ newline))
             | None => write F i 0 filename (CText (pyval_str data))
             end
         end in
     log INFO (ResponseSaved is_error endpoint filename))
    (log ERROR (FailedToSave is_error endpoint)) st
  = (Val tt,
     with_trace st
       (trace st ++ [EvOpen filename;
                     EvLog ERROR (FailedToSave is_error endpoint)])).
Proof.
  intros Hopen Hw.
  set (s' := with_trace st (trace st ++ [EvOpen filename])).
  destruct (writing_raises F i filename data is_error status s' Hw) as [e He].
  unfold try_except.
  rewrite (bind_val (open_file F i filename) _ st tt s')
    by (unfold open_file; now rewrite Hopen).
  rewrite (bind_exn _ _ s' e s' He).
  unfold log, emit, with_trace, s'; simpl. now rewrite <- app_assoc.
Qed.

(** C10.  An exception of [open] or of a write in [_save_response] stays
    there: [_save_response] returns all the same (its result depends on
    [os.makedirs] and on the endpoint only) and logs the failure; and a
    run of [call_single_api] or of [call_nested_apis] on another file
    system returns the same value and reaches a state that differs in the
    file events of the trace only: the same transport calls, the same
    registered functions, the same pauses. *)
Theorem file_failures_stay_in_save_response :
  let E' := with_files E opens writes in
  (forall endpoint data is_error status st,
     fst (_save_response E' endpoint data is_error status st)
     = if makedirs_ok E (n_save st)
       then match endpoint with
            | Some _ => Val tt
            | None => Exn AttributeError
            end
       else Exn OSError) /\
  (forall endpoint data is_error status st,
     makedirs_ok E (n_save st) = true ->
     (forall f, opens (n_save st) f = false) ->
     trace (snd (_save_response E' (Some endpoint) data is_error status st))
     = trace st ++ [EvMakedirs; EvLog ERROR (FailedToSave is_error endpoint)]) /\
  (forall endpoint data is_error status st,
     makedirs_ok E (n_save st) = true ->
     (forall f, opens (n_save st) f = true) ->
     (forall k, writes (n_save st) k = false) ->
     exists filename,
       trace (snd (_save_response E' (Some endpoint) data is_error status st))
       = trace st ++ [EvMakedirs; EvOpen filename;
                      EvLog ERROR (FailedToSave is_error endpoint)]) /\
  (forall config st,
     fst (call_single_api E' R H config st)
       = fst (call_single_api E R H config st) /\
     agree (snd (call_single_api E' R H config st))
           (snd (call_single_api E R H config st))) /\
  (forall parent children st,
     fst (call_nested_apis E' R H parent children st)
       = fst (call_nested_apis E R H parent children st) /\
     agree (snd (call_nested_apis E' R H parent children st))
           (snd (call_nested_apis E R H parent children st)) /\
     requests_of (trace (snd (call_nested_apis E' R H parent children st)))
       = requests_of (trace (snd (call_nested_apis E R H parent children st)))).
Proof.
  intros E'. split; [|split; [|split; [|split]]].
  - intros. apply save_response_result.
  - intros endpoint data is_error status st Hmk Hopen.
    unfold _save_response.
    unfold bind at 1, next_save at 1. unfold bind at 1, makedirs at 1.
    cbn [makedirs_ok E' with_files n_save]. rewrite Hmk.
    unfold emit at 1. unfold bind at 1, OAuth.now at 1.
    unfold try_except, bind at 1, open_file.
    cbn [open_ok E' with_files]. rewrite Hopen.
    simpl. now rewrite <- app_assoc.
  - intros endpoint data is_error status st Hmk Hopen Hwrite.
    unfold _save_response.
    unfold bind at 1, next_save at 1. unfold bind at 1, makedirs at 1.
    cbn [makedirs_ok E' with_files n_save]. rewrite Hmk.
    unfold emit at 1. unfold bind at 1, OAuth.now at 1.
    eexists. cbv beta zeta.
    rewrite save_block_write_fails by (cbn [open_ok write_ok E' with_files]; auto).
    simpl. rewrite <- !app_assoc. reflexivity.
  - intros config st.
    apply (sim_call_single_api E opens writes R H config st st (agree_refl st)).
  - intros parent children st.
    pose proof (sim_call_nested_apis E opens writes R H parent children st st
                  (agree_refl st)) as [Hres Hagree].
    repeat split; [exact Hres | apply Hagree.. | now apply agree_requests].
Qed.

End WithEnv.
End Persistence.

Module PersistenceWitness.
Import APIHandler.

Lemma file_failures_stay_in_save_response_witness :
  trace (snd (_save_response
                (with_files (Sample.server Sample.not_found)
                   (fun _ _ => false) (fun _ _ => true))
                (Some "/x"%string) (PJ Sample.one_id) false None init_state))
  = [EvMakedirs; EvLog ERROR (FailedToSave false "/x")] /\
  exists filename,
    trace (snd (_save_response
                  (with_files (Sample.server Sample.not_found)
                     (fun _ _ => true) (fun _ _ => false))
                  (Some "/x"%string) (PJ Sample.one_id) false None init_state))
    = [EvMakedirs; EvOpen filename; EvLog ERROR (FailedToSave false "/x")].
Proof.
  split.
  - pose proof (Persistence.file_failures_stay_in_save_response
                  (Sample.server Sample.not_found)
                  (fun _ _ => false) (fun _ _ => true)
                  Registry.empty Sample.basic_auth) as Hthm.
    cbv zeta in Hthm. destruct Hthm as (_ & Hopen & _).
    apply (Hopen "/x"%string (PJ Sample.one_id) false None init_state);
      reflexivity.
  - pose proof (Persistence.file_failures_stay_in_save_response
                  (Sample.server Sample.not_found)
                  (fun _ _ => true) (fun _ _ => false)
                  Registry.empty Sample.basic_auth) as Hthm.
    cbv zeta in Hthm. destruct Hthm as (_ & _ & Hwrite & _).
    apply (Hwrite "/x"%string (PJ Sample.one_id) false None init_state);
      reflexivity.
Defined.

End PersistenceWitness.

(** ** Where the source departs from its specification *)

Module Departures.
Import Effects APIHandler.

(** [run_postprocessor] never returns [None]: the branch of
    [call_single_api] that parses the response again is never taken. *)
Lemma run_postprocessor_never_none reg name response kwargs st :
  exists v st',
    Registry.run_postprocessor reg name response kwargs st = (Val v, st') /\
    pyval_is_none v = false.
Proof.
  unfold Registry.run_postprocessor.
  destruct (postprocessors reg !! name) as [f|]; [|now do 2 eexists].
  destruct (f response kwargs) as [v|]; [|now do 2 eexists].
  do 2 eexists. split; [reflexivity|]. simpl.
  destruct (pyval_is_none v) eqn:Hv; [reflexivity | exact Hv].
Qed.

(** C1, evaluated.  The body of the response is [{"id": 7}], the status is
    200, and the postprocessor raises (["boom"]) or returns [None]
    (["none"]).  [run_postprocessor] hands back the response object, so
    default persistence writes the text of the object,
    ["<Response [200]>"], and not the parsed body, which is what it writes
    when no postprocessor is configured. *)
Theorem failed_postprocessor_saves_the_response_object :
  let E := Sample.server (Sample.ok_json Sample.one_id) in
  let run config :=
    call_single_api E Sample.failing Sample.basic_auth config init_state in
  writes_of (trace (snd (run (Sample.with_postprocess "/api/items" "boom"))))
    = [("items_0.log"%string, CText "<Response [200]>")] /\
  writes_of (trace (snd (run (Sample.with_postprocess "/api/items" "none"))))
    = [("items_0.log"%string, CText "<Response [200]>")] /\
  writes_of (trace (snd (run (Sample.api "/api/items"))))
    = [("items_0.log"%string, CJsonDump Sample.one_id)] /\
  fst (apply_postprocess Sample.failing
         (Sample.with_postprocess "/api/items" "boom")
         (Sample.ok_json Sample.one_id) init_state)
    = Val (PResp (Sample.ok_json Sample.one_id)).
Proof. vm_compute. repeat split; reflexivity. Qed.

(** for a text, [_save_response] writes the text and nothing else,
    whatever [is_error] and [status_code] are *)
Lemma save_text_writes_the_text E endpoint text is_error status st :
  exists written,
    writes_of (trace (snd (_save_response E endpoint (PJ (JStr text))
                             is_error status st)))
      = writes_of (trace st) ++ written /\
    (written = [] \/ exists filename, written = [(filename, CText text)]).
Proof.
  assert (Hclose : forall (t : list event) (l : list event) written,
            omap write_of l = written ->
            (written = [] \/ exists filename, written = [(filename, CText text)]) ->
            exists written,
              writes_of (t ++ l) = writes_of t ++ written /\
              (written = [] \/
               exists filename, written = [(filename, CText text)])).
  { intros t l written Hl Hw. exists written. split; [|exact Hw].
    unfold writes_of. now rewrite omap_app, Hl. }
  unfold _save_response.
  unfold bind at 1, next_save at 1. unfold bind at 1, makedirs at 1.
  destruct (makedirs_ok E (n_save st)).
  2:{ simpl. exists []. split; [now rewrite app_nil_r | auto]. }
  unfold emit at 1. unfold bind at 1, OAuth.now at 1.
  destruct endpoint as [endpoint|].
  2:{ simpl. apply (Hclose (trace st) [EvMakedirs] []); auto. }
  cbv beta zeta.
  unfold try_except, bind at 1, open_file. cbn [n_save].
  match goal with
  | |- context [open_ok E (n_save st) ?f] =>
      set (filename := f); destruct (open_ok E (n_save st) filename)
  end.
  - unfold emit at 1. unfold bind at 1, write.
    destruct (write_ok E (n_save st) 0); simpl; rewrite <- !app_assoc; simpl.
    + eapply Hclose; [reflexivity|]. simpl. eauto.
    + eapply Hclose; [reflexivity|]. simpl. eauto.
  - simpl. rewrite <- !app_assoc; simpl.
    eapply Hclose; [reflexivity|]. simpl. eauto.
Qed.

(** an error response runs no registered function *)
Lemma error_response_runs_no_hook E R config response :
  400 <= status_code response ->
  silent hook_of (process_response E R config response).
Proof.
  intros Hs. unfold process_response.
  assert (Hc : (400 <=? status_code response) = true) by (apply Z.leb_le; lia).
  rewrite Hc. silent_auto.
  apply save_response_silent; auto.
Qed.

(** C4, evaluated.  The response has status 404 and body ["not found"];
    the configuration names a postprocessor and an output processor.
    [call_single_api] returns the response, no registered function runs,
    and one file is written, [error_items_0.log]: it holds the body.  The
    status code is not in it: [_save_response] tests for a text before it
    tests [is_error and status_code], and [response.text] is a text. *)
Theorem error_artifact_holds_the_body_only :
  let run :=
    call_single_api (Sample.server Sample.not_found) Sample.failing
      Sample.basic_auth (Sample.with_hooks "/api/items" "boom" "boom")
      init_state in
  fst run = Val (Some Sample.not_found) /\
  hooks_of (trace (snd run)) = [] /\
  writes_of (trace (snd run)) = [("error_items_0.log"%string, CText "not found")] /\
  PyStr.str_in "404" "not found" = false.
Proof. vm_compute. repeat split; reflexivity. Qed.

(** C8, evaluated.  The child specification is
    [{"url": "/child/{id}", "headers": {"Accept": "application/json"},
      "preprocess": {"name": "add_headers",
                     "args": {"headers": {"X-Extra": "1"}}}}].
    After one pair of [call_nested_apis] the ["url"] of the original is
    what it was, and its ["headers"] have the entry of the preprocessor:
    the two shallow copies share the [dict] of the headers with the
    original, and [update] changes it in place. *)
Theorem add_headers_changes_the_original :
  let before := Store.child_spec_store in
  let after := snd (Store.call_child_obj Store.builtin 0 "/child/1" before) in
  Store.field before 0 "headers"
    = Some (inr [("Accept"%string, Store.Imm (JStr "application/json"))]) /\
  Store.field after 0 "headers"
    = Some (inr [("Accept"%string, Store.Imm (JStr "application/json"));
                 ("X-Extra"%string, Store.Imm (JStr "1"))]) /\
  Store.field after 0 "url" = Some (inl (JStr "/child/{id}")) /\
  Store.field before 0 "headers" <> Store.field after 0 "headers".
Proof. vm_compute. repeat split; try reflexivity. discriminate. Qed.

End Departures.

(** * Further properties of the code *)

(** ** Registration *)

Module Registration.

(** X1.  [register_preprocessor], [register_postprocessor] and
    [register_output_processor] return a registry where the name is bound
    to the function given (an earlier function under the name is
    replaced), every other name is bound as before and the two other name
    spaces are untouched; the "Overriding" warning is logged exactly when
    the name was taken.  [run_preprocessor] then runs the function
    given. *)
Theorem register_binds_the_name (reg : registry) (name : string) (st : state) :
  (forall f, exists reg',
     Registry.register_preprocessor name f reg st
       = (Val reg',
          with_trace st
            (trace st ++
             (if decide (is_Some (preprocessors reg !! name))
              then [EvLog WARNING (OverridingProcessor "preprocessor" name)]
              else []) ++
             [EvLog INFO (RegisteredProcessor "preprocessor" name)])) /\
     preprocessors reg' !! name = Some f /\
     (forall other, other <> name ->
        preprocessors reg' !! other = preprocessors reg !! other) /\
     postprocessors reg' = postprocessors reg /\
     output_processors reg' = output_processors reg /\
     (forall config kwargs st2,
        fst (Registry.run_preprocessor reg' name config kwargs st2)
        = Val (match f config kwargs with
               | Returns (Some result) => result
               | _ => config
               end))) /\
  (forall f, exists reg' st',
     Registry.register_postprocessor name f reg st = (Val reg', st') /\
     postprocessors reg' !! name = Some f /\
     (forall other, other <> name ->
        postprocessors reg' !! other = postprocessors reg !! other) /\
     preprocessors reg' = preprocessors reg /\
     output_processors reg' = output_processors reg) /\
  (forall f, exists reg' st',
     Registry.register_output_processor name f reg st = (Val reg', st') /\
     output_processors reg' !! name = Some f /\
     (forall other, other <> name ->
        output_processors reg' !! other = output_processors reg !! other) /\
     preprocessors reg' = preprocessors reg /\
     postprocessors reg' = postprocessors reg).
Proof.
  split; [|split].
  - intros f. eexists. split.
    + unfold Registry.register_preprocessor, bind, log, emit, ret, with_trace.
      destruct (decide (is_Some (preprocessors reg !! name))); simpl;
        rewrite <- ?app_assoc; reflexivity.
    + simpl. split; [apply lookup_insert_eq|].
      split; [intros other Hne; now apply lookup_insert_ne|].
      split; [reflexivity|]. split; [reflexivity|].
      intros config kwargs st2. unfold Registry.run_preprocessor. simpl.
      rewrite lookup_insert_eq.
      destruct (f config kwargs) as [[c|]|]; reflexivity.
  - intros f.
    exists {| preprocessors := preprocessors reg;
              postprocessors := <[name := f]> (postprocessors reg);
              output_processors := output_processors reg |},
           (snd (Registry.register_postprocessor name f reg st)).
    split.
    + unfold Registry.register_postprocessor, bind, log, emit, ret.
      destruct (decide (is_Some (postprocessors reg !! name))); reflexivity.
    + simpl. split; [apply lookup_insert_eq|].
      split; [intros other Hne; now apply lookup_insert_ne|].
      split; reflexivity.
  - intros f.
    exists {| preprocessors := preprocessors reg;
              postprocessors := postprocessors reg;
              output_processors := <[name := f]> (output_processors reg) |},
           (snd (Registry.register_output_processor name f reg st)).
    split.
    + unfold Registry.register_output_processor, bind, log, emit, ret.
      destruct (decide (is_Some (output_processors reg !! name))); reflexivity.
    + simpl. split; [apply lookup_insert_eq|].
      split; [intros other Hne; now apply lookup_insert_ne|].
      split; reflexivity.
Qed.

Lemma register_binds_the_name_witness :
  exists reg',
    fst (Registry.register_preprocessor "boom" (fun c _ => Returns (Some c))
           Sample.failing init_state) = Val reg' /\
    preprocessors reg' !! "other"%string
      = preprocessors Sample.failing !! "other"%string.
Proof.
  destruct (register_binds_the_name Sample.failing "boom" init_state)
    as [Hpre _].
  destruct (Hpre (fun c _ => Returns (Some c)))
    as [reg' [Hrun [_ [Hother _]]]].
  exists reg'. split; [now rewrite Hrun|].
  apply Hother. discriminate.
Defined.

End Registration.

(** ** The walk along [items_path] *)

Module ItemsPath.
Import APIHandler.

(** X2.  Walking a path is walking its first part and then, from the value
    reached, its second part; an error of the first part ends the walk. *)
Theorem navigate_composes (items_path : string) (first second : list string)
  (target_data : json) :
  navigate items_path (first ++ second) target_data
  = match navigate items_path first target_data with
    | inl msg => inl msg
    | inr reached => navigate items_path second reached
    end.
Proof.
  revert target_data.
  induction first as [|part rest IH]; intros target_data; [reflexivity|].
  simpl. destruct (String.eqb part EmptyString); [apply IH|].
  destruct target_data as [| | | |l|d]; try reflexivity.
  - destruct (PyStr.isdigit part); [|reflexivity].
    destruct (l !! PyStr.int_of part); [apply IH | reflexivity].
  - destruct (Py.dict_get d part); [apply IH | reflexivity].
Qed.

(** X3.  Empty segments of the path do not count: a path with doubled,
    leading or trailing dots reaches what the path without them reaches. *)
Theorem navigate_skips_empty_segments (items_path : string)
  (parts : list string) (target_data : json) :
  navigate items_path
    (List.filter (fun part => negb (String.eqb part EmptyString)) parts)
    target_data
  = navigate items_path parts target_data.
Proof.
  revert target_data.
  induction parts as [|part rest IH]; intros target_data; [reflexivity|].
  simpl. destruct (String.eqb part EmptyString) eqn:Hempty; simpl;
    [apply IH|].
  rewrite Hempty.
  destruct target_data as [| | | |l|d]; try reflexivity.
  - destruct (PyStr.isdigit part); [|reflexivity].
    destruct (l !! PyStr.int_of part); [apply IH | reflexivity].
  - destruct (Py.dict_get d part); [apply IH | reflexivity].
Qed.

End ItemsPath.

(** ** The calls of a nested call, in general *)

Module NestedPlan.
Import Effects SingleCall APIHandler Placeholders NestedCalls.

Section WithEnv.
Variable E : env.
Variable R : registry.
Variable H : handler.

Lemma issues_call_child parent_data item child :
  no_preprocessor child ->
  issues (Plan.pair_url parent_data (JDict item) child)
    (call_child E R H parent_data item child).
Proof.
  intros Hno st. rewrite PlaceholderTest.call_child_cases.
  unfold Plan.pair_url, Plan.item_fields. cbv zeta.
  set (original := default EmptyString (url child)).
  set (first := substitute item original).
  set (final := both_passes parent_data item original).
  set (st1 := if has_braces first
              then with_trace st
                     (trace st ++ [EvLog WARNING (PlaceholdersNotReplaced first)])
              else st).
  assert (Hst1 : requests_of (trace st1) = requests_of (trace st)).
  { unfold st1. destruct (has_braces first); [|reflexivity].
    simpl. unfold requests_of. rewrite omap_app. apply app_nil_r. }
  destruct (has_braces final).
  - exists tt. eexists. exists []. split; [reflexivity|].
    split; [|reflexivity]. simpl. unfold requests_of in *.
    rewrite omap_app, Hst1. reflexivity.
  - destruct (issues_issue_child E R H child final original Hno st1)
      as [a [st2 [rqs [Hrun [Hreq Hurls]]]]].
    exists a, st2, rqs. rewrite Hreq, Hst1. auto.
Qed.

Lemma issues_for_children parent_data item children :
  Forall no_preprocessor children ->
  issues (flat_map (Plan.pair_url parent_data (JDict item)) children)
    (for_children E R H parent_data item children).
Proof.
  induction 1 as [|child rest Hno Hrest IH]; simpl.
  - apply (issues_yields tt), yields_ret.
  - apply issues_bind; [now apply issues_call_child | intros _; exact IH].
Qed.

Lemma issues_process_any_item parent_data item children :
  Forall no_preprocessor children ->
  issues (flat_map (Plan.pair_url parent_data item) children)
    (process_item E R H parent_data item children).
Proof.
  intros Hno. unfold process_item.
  assert (Hfields : forall d,
            Plan.item_fields item = d ->
            issues (flat_map (Plan.pair_url parent_data item) children)
              (do* log DEBUG (ProcessingItem d) in
               for_children E R H parent_data d children)).
  { intros d Hd. apply (issues_bind_yields tt); [apply yields_log|].
    assert (Hsame : flat_map (Plan.pair_url parent_data item) children
                    = flat_map (Plan.pair_url parent_data (JDict d)) children).
    { apply List.flat_map_ext. intros child. unfold Plan.pair_url.
      now rewrite Hd. }
    rewrite Hsame. now apply issues_for_children. }
  destruct item as [|b|z|s|l|d].
  6:{ apply (issues_bind_yields d); [apply yields_ret | now apply Hfields]. }
  all: eapply issues_bind_yields;
    [eapply yields_bind; [apply yields_log | apply yields_ret]
    | now apply Hfields].
Qed.

Lemma issues_for_items parent_data items children :
  Forall no_preprocessor children ->
  issues (Plan.planned_urls parent_data items children)
    (for_items E R H parent_data items children).
Proof.
  intros Hno. unfold Plan.planned_urls.
  induction items as [|item rest IH]; simpl.
  - apply (issues_yields tt), yields_ret.
  - apply issues_bind; [now apply issues_process_any_item | intros _; exact IH].
Qed.

(** X4.  After a parent call that succeeded with a JSON body in which the
    items path is found, [call_nested_apis] returns, and the transport
    calls it adds are the calls of the pairs that pass the placeholder
    test, each to its URL after both substitution passes: item after
    item, and for each item child after child (children that name no
    preprocessor). *)
Theorem nested_calls_follow_the_plan parent children st response st1
  parent_data target_data :
  call_single_api E R H parent st = (Val (Some response), st1) ->
  status_code response < 400 ->
  json_body response = Some parent_data ->
  (let path := default EmptyString (items_path parent) in
   if String.eqb path EmptyString then inr parent_data
   else navigate path (PyStr.split "." path) parent_data) = inr target_data ->
  Forall no_preprocessor children ->
  exists st2 rqs,
    call_nested_apis E R H parent children st = (Val tt, st2) /\
    requests_of (trace st2) = requests_of (trace st1) ++ rqs /\
    map rq_url rqs
    = Plan.planned_urls parent_data
        (Plan.items_of (default EmptyString (items_path parent)) target_data)
        children.
Proof.
  intros Hparent Hstatus Hjson Hfound Hno.
  destruct (NestedProperties.parent_succeeded E R H parent children st
              response st1 Hparent Hstatus) as [body [handler [Hcall Hbody]]].
  set (path := default EmptyString (items_path parent)) in *.
  assert (Hi : issues (Plan.planned_urls parent_data
                         (Plan.items_of path target_data) children)
                 (try_except body handler)).
  { apply issues_try_except. subst body. unfold resp_json. rewrite Hjson.
    apply (issues_bind_yields parent_data); [apply yields_ret|].
    apply (issues_bind_yields tt); [apply yields_log|].
    cbv zeta in Hfound |- *. fold path. rewrite Hfound.
    apply (issues_bind_yields (Plan.items_of path target_data)).
    - unfold Plan.items_of.
      destruct target_data;
        (eapply yields_bind; [apply yields_log | apply yields_ret]).
    - now apply issues_for_items. }
  destruct (Hi st1) as [[] [st2 [rqs [Hrun [Hreq Hurls]]]]].
  exists st2, rqs. rewrite Hcall. auto.
Qed.

(** X5.  When the parent call returns nothing or a response with a status
    of 400 or more, [call_nested_apis] logs the failure and stops: no
    child is called. *)
Theorem failed_parent_stops_the_nested_call parent children st result st1 :
  call_single_api E R H parent st = (Val result, st1) ->
  (result = None \/
   exists response, result = Some response /\ 400 <= status_code response) ->
  call_nested_apis E R H parent children st
  = (Val tt,
     with_trace st1 (trace st1 ++ [EvLog ERROR (FailedParent (url parent))])).
Proof.
  intros Hparent Hfailed. unfold call_nested_apis.
  rewrite (bind_val _ _ _ _ _ Hparent).
  destruct Hfailed as [-> | [response [-> Hstatus]]]; [reflexivity|].
  assert (Hc : (400 <=? status_code response) = true) by (apply Z.leb_le; lia).
  rewrite Hc, orb_true_r. reflexivity.
Qed.

(** X6.  When the body of the parent response is no JSON document, or the
    items path is not found in it, [call_nested_apis] returns without an
    exception and without a child call: it logs the error (for a body
    that is no JSON, the error and the traceback) and stops. *)
Theorem unusable_parent_body_stops_the_nested_call parent children st
  response st1 :
  call_single_api E R H parent st = (Val (Some response), st1) ->
  status_code response < 400 ->
  (json_body response = None ->
   call_nested_apis E R H parent children st
   = (Val tt,
      with_trace st1
        (trace st1 ++ [EvLog ERROR ErrorNested; EvLog ERROR Traceback]))) /\
  (forall parent_data msg,
     json_body response = Some parent_data ->
     (let path := default EmptyString (items_path parent) in
      if String.eqb path EmptyString then inr parent_data
      else navigate path (PyStr.split "." path) parent_data) = inl msg ->
     call_nested_apis E R H parent children st
     = (Val tt,
        with_trace st1
          (trace st1 ++ [EvLog ERROR (ParentResponse parent_data);
                         EvLog ERROR msg]))).
Proof.
  intros Hparent Hstatus.
  destruct (NestedProperties.parent_succeeded E R H parent children st
              response st1 Hparent Hstatus) as [body [handler [Hcall Hbody]]].
  assert (Hhandler : call_nested_apis E R H parent children st
                     = try_except body
                         (do* log ERROR ErrorNested in log ERROR Traceback) st1).
  { unfold call_nested_apis. rewrite (bind_val _ _ _ _ _ Hparent).
    assert (Hok : negb (response_ok response) || (400 <=? status_code response)
                  = false).
    { unfold response_ok.
      destruct (400 <=? status_code response) eqn:Hc; [lia | reflexivity]. }
    rewrite Hok. subst body. reflexivity. }
  rewrite Hhandler. subst body. split.
  - intros Hjson. unfold try_except, resp_json. rewrite Hjson.
    unfold bind at 1, raise. unfold bind, log, emit, with_trace; simpl.
    now rewrite <- app_assoc.
  - intros parent_data msg Hjson Hfound. cbv zeta in Hfound.
    unfold try_except, resp_json. rewrite Hjson.
    unfold bind at 1, ret. unfold bind at 1, log at 1, emit at 1.
    rewrite Hfound. unfold log, emit, with_trace; simpl.
    now rewrite <- app_assoc.
Qed.

End WithEnv.
End NestedPlan.

Module NestedPlanWitness.
Import APIHandler.

Lemma nested_calls_follow_the_plan_witness :
  exists st2 rqs,
    call_nested_apis (Sample.server (Sample.ok_json Sample.two_items))
      Registry.empty Sample.basic_auth
      (Sample.parent_api "/parent" "items")
      [Sample.api "/child/{id}"; Sample.api "/child/{missing}"]
      init_state = (Val tt, st2) /\
    requests_of (trace st2)
    = requests_of
        (trace (snd (call_single_api
                       (Sample.server (Sample.ok_json Sample.two_items))
                       Registry.empty Sample.basic_auth
                       (Sample.parent_api "/parent" "items") init_state)))
      ++ rqs /\
    map rq_url rqs = [Some "/child/1"%string; Some "/child/2"%string].
Proof.
  apply (NestedPlan.nested_calls_follow_the_plan
           (Sample.server (Sample.ok_json Sample.two_items))
           Registry.empty Sample.basic_auth
           (Sample.parent_api "/parent" "items")
           [Sample.api "/child/{id}"; Sample.api "/child/{missing}"]
           init_state (Sample.ok_json Sample.two_items) _ Sample.two_items
           (JList [JDict [("id"%string, JInt 1)]; JDict [("id"%string, JInt 2)]])).
  - vm_compute. reflexivity.
  - simpl. lia.
  - reflexivity.
  - reflexivity.
  - repeat constructor.
Defined.

Lemma failed_parent_stops_the_nested_call_witness :
  let E := Sample.server Sample.not_found in
  let st1 := snd (call_single_api E Registry.empty Sample.basic_auth
                    (Sample.api "/parent") init_state) in
  call_nested_apis E Registry.empty Sample.basic_auth (Sample.api "/parent")
    [Sample.api "/child/{id}"] init_state
  = (Val tt,
     with_trace st1
       (trace st1 ++ [EvLog ERROR (FailedParent (Some "/parent"%string))])).
Proof.
  apply (NestedPlan.failed_parent_stops_the_nested_call
           (Sample.server Sample.not_found) Registry.empty Sample.basic_auth
           (Sample.api "/parent") [Sample.api "/child/{id}"] init_state
           (Some Sample.not_found)).
  - vm_compute. reflexivity.
  - right. exists Sample.not_found. split; [reflexivity | simpl; lia].
Defined.

Lemma unusable_parent_body_stops_the_nested_call_witness :
  (let E := Sample.server (Sample.ok_text "<html>") in
   let st1 := snd (call_single_api E Registry.empty Sample.basic_auth
                     (Sample.api "/parent") init_state) in
   call_nested_apis E Registry.empty Sample.basic_auth (Sample.api "/parent")
     [Sample.api "/child/{id}"] init_state
   = (Val tt,
      with_trace st1
        (trace st1 ++ [EvLog ERROR ErrorNested; EvLog ERROR Traceback]))) /\
  (let E := Sample.server (Sample.ok_json Sample.one_id) in
   let st1 := snd (call_single_api E Registry.empty Sample.basic_auth
                     (Sample.parent_api "/parent" "items") init_state) in
   call_nested_apis E Registry.empty Sample.basic_auth
     (Sample.parent_api "/parent" "items") [Sample.api "/child/{id}"]
     init_state
   = (Val tt,
      with_trace st1
        (trace st1 ++ [EvLog ERROR (ParentResponse Sample.one_id);
                       EvLog ERROR (CannotFind "items" "items")]))).
Proof.
  split.
  - destruct (NestedPlan.unusable_parent_body_stops_the_nested_call
                (Sample.server (Sample.ok_text "<html>")) Registry.empty
                Sample.basic_auth (Sample.api "/parent")
                [Sample.api "/child/{id}"] init_state
                (Sample.ok_text "<html>") _
                ltac:(vm_compute; reflexivity) ltac:(simpl; lia))
      as [Hnojson _].
    apply Hnojson. reflexivity.
  - destruct (NestedPlan.unusable_parent_body_stops_the_nested_call
                (Sample.server (Sample.ok_json Sample.one_id)) Registry.empty
                Sample.basic_auth (Sample.parent_api "/parent" "items")
                [Sample.api "/child/{id}"] init_state
                (Sample.ok_json Sample.one_id) _
                ltac:(vm_compute; reflexivity) ltac:(simpl; lia))
      as [_ Hnopath].
    apply (Hnopath Sample.one_id); reflexivity.
Defined.

End NestedPlanWitness.

(** ** One call, in more detail *)

Module SingleCallDetails.
Import Effects SingleCall APIHandler.

(** *** The counter of transport calls *)

Lemma keeps_ret {A} (a : A) : keeps_n_req (ret a).
Proof. intros st. reflexivity. Qed.

Lemma keeps_raise {A} (e : exn) : keeps_n_req (@raise A e).
Proof. intros st. reflexivity. Qed.

Lemma keeps_bind {A C} (m : M A) (k : A -> M C) :
  keeps_n_req m -> (forall a, keeps_n_req (k a)) -> keeps_n_req (bind m k).
Proof.
  intros Hm Hk st. unfold bind. specialize (Hm st).
  destruct (m st) as [[a|e] st']; simpl in *; [|exact Hm].
  now rewrite Hk.
Qed.

Lemma keeps_try_except {A} (m h : M A) :
  keeps_n_req m -> keeps_n_req h -> keeps_n_req (try_except m h).
Proof.
  intros Hm Hh st. unfold try_except. specialize (Hm st).
  destruct (m st) as [[a|e] st']; simpl in *; [exact Hm|].
  now rewrite Hh.
Qed.

Lemma keeps_pointwise {A} (m : M A) :
  (forall st, n_req (snd (m st)) = n_req st) -> keeps_n_req m.
Proof. intros Hm. exact Hm. Qed.

Ltac keeps_step :=
  match goal with
  | |- keeps_n_req (ret _) => apply keeps_ret
  | |- keeps_n_req (raise _) => apply keeps_raise
  | |- keeps_n_req (bind _ _) => apply keeps_bind; [|intros ?]
  | |- keeps_n_req (try_except _ _) => apply keeps_try_except
  | |- keeps_n_req (resp_json _) => unfold resp_json
  | |- keeps_n_req (OAuth.timedelta_seconds _) => unfold OAuth.timedelta_seconds
  | |- keeps_n_req (OAuth.data_get _ _ _) => unfold OAuth.data_get
  | |- keeps_n_req (OAuth.post_token _ _) =>
      apply keeps_pointwise; intros st; unfold OAuth.post_token;
      destruct (token_endpoint _ _ _); reflexivity
  | |- keeps_n_req (match ?x with _ => _ end) => destruct x eqn:?
  | |- keeps_n_req _ => apply keeps_pointwise; intros st; reflexivity
  end.

Lemma prepare_headers_keeps_n_req E H : keeps_n_req (_prepare_headers E H).
Proof.
  unfold _prepare_headers. destruct (h_auth H); try apply keeps_ret.
  apply keeps_bind; [|intros t; destruct (Py.truthy t); apply keeps_ret].
  unfold OAuth.get_token, OAuth._request_new_token. repeat keeps_step.
Qed.

Section WithEnv.
Variable E : env.
Variable R : registry.
Variable H : handler.

(** X7.  When the transport raises, [call_single_api] returns [None]
    without an exception: the error is logged, nothing is saved (no file
    is opened or written) and no registered function runs. *)
Theorem transport_failure_returns_none config st :
  no_preprocessor config ->
  (forall rq, transport E (n_req st) rq = None) ->
  exists st',
    call_single_api E R H config st = (Val None, st') /\
    opens_of (trace st') = opens_of (trace st) /\
    writes_of (trace st') = writes_of (trace st) /\
    hooks_of (trace st') = hooks_of (trace st) /\
    List.last (trace st') EvMakedirs = EvLog ERROR (ErrorCalling (url config)).
Proof.
  intros Hno Hdown. unfold call_single_api.
  assert (Hpre : apply_preprocess R config = ret config).
  { unfold apply_preprocess. unfold no_preprocessor in Hno.
    destruct (preprocess config); [now rewrite Hno | reflexivity]. }
  rewrite Hpre. rewrite (bind_val (ret config) _ st config st eq_refl).
  destruct (prepare_headers_total E H st) as [hdrs Hh].
  pose proof (prepare_headers_silent open_of
                ltac:(reflexivity) ltac:(reflexivity) E H st) as Hopens.
  pose proof (prepare_headers_silent write_of
                ltac:(reflexivity) ltac:(reflexivity) E H st) as Hwrites.
  pose proof (prepare_headers_silent hook_of
                ltac:(reflexivity) ltac:(reflexivity) E H st) as Hhooks.
  pose proof (prepare_headers_keeps_n_req E H st) as Hreq.
  destruct (_prepare_headers E H st) as [[hdrs'|e] st1] eqn:Hph;
    simpl in Hh, Hopens, Hwrites, Hhooks, Hreq; [|discriminate].
  rewrite (bind_val _ _ st hdrs' st1 Hph).
  eexists. split.
  - unfold try_except, bind at 1, log at 1, emit at 1.
    unfold bind at 1, session_request. cbn [n_req with_trace].
    rewrite Hreq, Hdown. unfold bind, log, emit, ret. reflexivity.
  - cbn [trace with_trace]. unfold opens_of, writes_of, hooks_of.
    rewrite !omap_app. simpl. rewrite !app_nil_r.
    rewrite Hopens, Hwrites, Hhooks. repeat split.
    apply List.last_last.
Qed.

End WithEnv.
End SingleCallDetails.

Module SingleCallFiles.
Import Effects SingleCall APIHandler.

Section Bounds.
Context {B : Type} (proj : event -> option B).

Lemma bounded_silent {A} (m : M A) n : silent proj m -> bounded proj n m.
Proof.
  intros Hm st. exists []. rewrite app_nil_r. split; [apply Hm | simpl; lia].
Qed.

Lemma bounded_bind_l {A C} n (m : M A) (k : A -> M C) :
  silent proj m -> (forall a, bounded proj n (k a)) -> bounded proj n (bind m k).
Proof.
  intros Hm Hk st. unfold bind. specialize (Hm st).
  destruct (m st) as [[a|e] st']; simpl in *.
  - destruct (Hk a st') as [l [Hl Hn]]. exists l. now rewrite Hl, Hm.
  - exists []. rewrite app_nil_r. split; [exact Hm | simpl; lia].
Qed.

Lemma bounded_bind_r {A C} n (m : M A) (k : A -> M C) :
  bounded proj n m -> (forall a, silent proj (k a)) -> bounded proj n (bind m k).
Proof.
  intros Hm Hk st. unfold bind. destruct (Hm st) as [l [Hl Hn]].
  destruct (m st) as [[a|e] st']; simpl in *; exists l; [|auto].
  now rewrite Hk.
Qed.

Lemma bounded_try_except {A} n (m h : M A) :
  bounded proj n m -> silent proj h -> bounded proj n (try_except m h).
Proof.
  intros Hm Hh st. unfold try_except. destruct (Hm st) as [l [Hl Hn]].
  destruct (m st) as [[a|e] st']; simpl in *; exists l; [auto|].
  now rewrite Hh.
Qed.

End Bounds.

Section WithEnv.
Variable E : env.
Variable R : registry.
Variable H : handler.

Lemma open_file_opens_one i filename :
  bounded open_of 1 (open_file E i filename).
Proof.
  intros st. unfold open_file. destruct (open_ok E i filename); simpl.
  - exists [filename]. rewrite omap_app. auto.
  - exists []. rewrite app_nil_r. auto.
Qed.

Lemma save_response_opens_one endpoint data is_error status :
  bounded open_of 1 (_save_response E endpoint data is_error status).
Proof.
  unfold _save_response.
  apply bounded_bind_l; [silent_auto | intros i].
  apply bounded_bind_l; [silent_auto | intros _].
  apply bounded_bind_l; [silent_auto | intros t].
  destruct endpoint as [endpoint|]; [|apply bounded_silent; silent_auto].
  apply bounded_try_except; [|silent_auto].
  apply bounded_bind_r; [apply open_file_opens_one | intros _].
  silent_auto.
Qed.

Lemma process_response_opens_one config response :
  bounded open_of 1 (process_response E R config response).
Proof.
  unfold process_response.
  apply bounded_bind_l; [silent_auto | intros _].
  destruct (400 <=? status_code response).
  - apply bounded_bind_r; [apply save_response_opens_one | intros _; silent_auto].
  - apply bounded_bind_l; [|intros data].
    { unfold apply_postprocess. silent_auto.
      apply run_postprocessor_silent; auto. }
    apply bounded_bind_l; [|intros handled].
    { unfold apply_output. silent_auto.
      apply run_output_processor_silent; auto. }
    destruct handled; [apply bounded_silent; silent_auto|].
    apply bounded_bind_r; [apply save_response_opens_one | intros _; silent_auto].
Qed.

(** X8.  One call of [call_single_api] opens at most one artifact file,
    whatever the configuration, the registry and the environment. *)
Theorem at_most_one_file_per_call config st :
  exists files,
    opens_of (trace (snd (call_single_api E R H config st)))
    = opens_of (trace st) ++ files /\
    (length files <= 1)%nat.
Proof.
  revert st. change (bounded open_of 1 (call_single_api E R H config)).
  unfold call_single_api.
  apply bounded_bind_l; [apply apply_preprocess_silent; auto | intros config'].
  apply bounded_bind_l; [apply prepare_headers_silent; auto | intros headers].
  apply bounded_try_except; [|silent_auto].
  apply bounded_bind_l; [silent_auto | intros _].
  apply bounded_bind_l; [|intros response; apply process_response_opens_one].
  intros st. unfold session_request.
  destruct (transport E (n_req st) _); simpl;
    rewrite omap_app; simpl; apply app_nil_r.
Qed.

Lemma apply_postprocess_total config response :
  no_collision ["self"; "name"; "response"]%string (postprocess config) ->
  total (apply_postprocess R config response).
Proof.
  intros Hno st. unfold apply_postprocess, try_except_ValueError.
  unfold resp_json. destruct (json_body response) as [v|];
    [|eexists; reflexivity].
  unfold bind at 1, ret at 1.
  destruct (postprocess config) as [pc|]; [|eexists; reflexivity].
  destruct (name_set (hook_name pc)) as [name|]; [|eexists; reflexivity].
  unfold bind at 1, log at 1, emit at 1.
  unfold bind at 1, check_kwargs. unfold no_collision in Hno. rewrite Hno.
  unfold ret at 1.
  match goal with
  | |- context [bind (Registry.run_postprocessor R name response ?kw) ?k ?s] =>
      destruct (Departures.run_postprocessor_never_none R name response kw s)
        as [v' [s' [Hrun Hnone]]];
      rewrite (bind_val _ k s v' s' Hrun)
  end.
  rewrite Hnone. eexists. reflexivity.
Qed.

(** X9.  When the output processor named by the configuration returns a
    true value, [call_single_api] returns the response and default
    persistence is skipped: no file is opened and none is written. *)
Theorem output_sink_replaces_default_persistence config st response out f :
  no_preprocessor config ->
  no_collision ["self"; "name"; "response"]%string (postprocess config) ->
  (forall rq, transport E (n_req st) rq = Some response) ->
  status_code response < 400 ->
  output config = Some out ->
  (exists name, name_set (hook_name out) = Some name /\
                output_processors R !! name = Some f) ->
  no_collision ["self"; "name"; "data"; "endpoint"]%string (output config) ->
  (forall data endpoint kwargs,
     exists v, f data endpoint kwargs = Returns v /\ pyval_truthy v = true) ->
  exists st',
    call_single_api E R H config st = (Val (Some response), st') /\
    opens_of (trace st') = opens_of (trace st) /\
    writes_of (trace st') = writes_of (trace st).
Proof.
  intros Hno Hpost Hup Hstatus Hout [name [Hname Hreg]] Hargs Htruthy.
  unfold call_single_api.
  assert (Hpre : apply_preprocess R config = ret config).
  { unfold apply_preprocess. unfold no_preprocessor in Hno.
    destruct (preprocess config); [now rewrite Hno | reflexivity]. }
  rewrite Hpre. rewrite (bind_val (ret config) _ st config st eq_refl).
  destruct (prepare_headers_total E H st) as [hdrs Hh].
  pose proof (prepare_headers_silent open_of
                ltac:(reflexivity) ltac:(reflexivity) E H st) as Hopens.
  pose proof (prepare_headers_silent write_of
                ltac:(reflexivity) ltac:(reflexivity) E H st) as Hwrites.
  pose proof (SingleCallDetails.prepare_headers_keeps_n_req E H st) as Hreq.
  destruct (_prepare_headers E H st) as [[hdrs'|e] st1] eqn:Hph;
    simpl in Hh, Hopens, Hwrites, Hreq; [|discriminate].
  rewrite (bind_val _ _ st hdrs' st1 Hph).
  unfold try_except, bind at 1, log at 1, emit at 1.
  unfold bind at 1, session_request. cbn [n_req with_trace].
  rewrite Hreq, Hup.
  unfold process_response, bind at 1, log at 1, emit at 1.
  assert (Hc : (400 <=? status_code response) = false) by (apply Z.leb_gt; lia).
  rewrite Hc.
  match goal with
  | |- context [bind (apply_postprocess R config response) ?k ?s] =>
      destruct (apply_postprocess_total config response Hpost s) as [data Hdata];
      pose proof (SingleCall.apply_postprocess_no_request R config response s)
        as _;
      assert (Hpo : silent open_of (apply_postprocess R config response))
        by (unfold apply_postprocess; silent_auto;
            apply run_postprocessor_silent; auto);
      assert (Hpw : silent write_of (apply_postprocess R config response))
        by (unfold apply_postprocess; silent_auto;
            apply run_postprocessor_silent; auto);
      specialize (Hpo s); specialize (Hpw s);
      destruct (apply_postprocess R config response s) as [[data'|e] s2] eqn:Hap;
      simpl in Hdata, Hpo, Hpw; [|discriminate];
      rewrite (bind_val _ k s data' s2 Hap)
  end.
  unfold apply_output. rewrite Hout, Hname.
  unfold bind at 1. unfold bind at 1, log at 1, emit at 1.
  unfold bind at 1, check_kwargs. rewrite Hout in Hargs.
  unfold no_collision in Hargs. rewrite Hargs. unfold ret at 1.
  unfold bind at 1, Registry.run_output_processor. rewrite Hreg.
  unfold bind at 1, emit at 1.
  destruct (Htruthy data' (url config) (default [] (hook_args out)))
    as [v [Hv Htrue]].
  rewrite Hv. unfold ret at 1, ret at 1. rewrite Htrue.
  eexists. split; [reflexivity|].
  cbn [trace with_trace]. unfold opens_of, writes_of in *.
  rewrite !omap_app. simpl. rewrite !app_nil_r.
  rewrite Hpo, Hpw. cbn [trace]. rewrite !omap_app. simpl.
  rewrite !app_nil_r. now rewrite Hopens, Hwrites.
Qed.

End WithEnv.

Lemma output_sink_replaces_default_persistence_witness :
  exists st',
    call_single_api (Sample.server (Sample.ok_json Sample.one_id))
      Fixtures.with_sink Sample.basic_auth
      (Fixtures.with_output "/api/items" "sink") init_state
    = (Val (Some (Sample.ok_json Sample.one_id)), st') /\
    opens_of (trace st') = opens_of (trace init_state) /\
    writes_of (trace st') = writes_of (trace init_state).
Proof.
  apply (output_sink_replaces_default_persistence
           (Sample.server (Sample.ok_json Sample.one_id)) Fixtures.with_sink
           Sample.basic_auth (Fixtures.with_output "/api/items" "sink")
           init_state (Sample.ok_json Sample.one_id)
           {| hook_name := Some "sink"%string; hook_args := None |}
           (fun _ _ _ => Returns (PJ (JBool true)))).
  - exact I.
  - exact I.
  - intros rq. reflexivity.
  - simpl. lia.
  - reflexivity.
  - exists "sink"%string. split; reflexivity.
  - reflexivity.
  - intros. eexists. split; reflexivity.
Defined.

Lemma transport_failure_returns_none_witness :
  exists st',
    call_single_api Fixtures.unreachable Registry.empty Sample.basic_auth
      (Sample.api "/api/items") init_state = (Val None, st') /\
    opens_of (trace st') = opens_of (trace init_state) /\
    writes_of (trace st') = writes_of (trace init_state) /\
    hooks_of (trace st') = hooks_of (trace init_state) /\
    List.last (trace st') EvMakedirs
    = EvLog ERROR (ErrorCalling (Some "/api/items"%string)).
Proof.
  apply (SingleCallDetails.transport_failure_returns_none
           Fixtures.unreachable Registry.empty Sample.basic_auth
           (Sample.api "/api/items") init_state).
  - exact I.
  - intros rq. reflexivity.
Defined.

End SingleCallFiles.

(** ** The request of one call *)

Module RequestShape.
Import Effects SingleCall APIHandler.

Lemma dict_get_set d k v k' :
  Py.dict_get (Py.dict_set d k v) k'
  = if String.eqb k k' then Some v else Py.dict_get d k'.
Proof.
  induction d as [|[k0 v0] d IH]; simpl.
  - reflexivity.
  - destruct (String.eqb k0 k) eqn:Hk0; simpl.
    + apply String.eqb_eq in Hk0. subst k0.
      destruct (String.eqb k k'); reflexivity.
    + destruct (String.eqb k0 k') eqn:Hk0'; [|exact IH].
      apply String.eqb_eq in Hk0'. subst k0.
      rewrite String.eqb_sym in Hk0. now rewrite Hk0.
Qed.

(** [update] on dictionaries: the keys of the argument win, the others
    stay *)
Lemma dict_get_update d o k :
  NoDup (map fst o) ->
  Py.dict_get (Py.dict_update d o) k
  = match Py.dict_get o k with
    | Some v => Some v
    | None => Py.dict_get d k
    end.
Proof.
  unfold Py.dict_update. revert d.
  induction o as [|[k0 v0] o IH]; intros d Hnd; [reflexivity|].
  simpl. inversion Hnd as [|? ? Hnotin Hnd']; subst.
  rewrite (IH _ Hnd'). rewrite dict_get_set.
  destruct (String.eqb k0 k) eqn:Hk.
  - apply String.eqb_eq in Hk. subst k0.
    assert (Hnone : Py.dict_get o k = None).
    { clear -Hnotin. induction o as [|[k1 v1] o IH]; [reflexivity|].
      simpl in *. destruct (String.eqb k1 k) eqn:Hk1.
      - apply String.eqb_eq in Hk1. subst. exfalso. apply Hnotin. now left.
      - apply IH. intros Hin. apply Hnotin. now right. }
    now rewrite Hnone.
  - reflexivity.
Qed.

Section WithEnv.
Variable E : env.
Variable R : registry.
Variable H : handler.

Lemma prepare_headers_content_type st :
  exists base,
    fst (_prepare_headers E H st) = Val base /\
    Py.dict_get base "Content-Type" = Some (JStr "application/json").
Proof.
  unfold _prepare_headers. destruct (h_auth H).
  - eexists. split; reflexivity.
  - eexists. split; reflexivity.
  - destruct (get_token_total E client_id client_secret token_url oauth_verify st)
      as [t Ht].
    unfold bind.
    destruct (OAuth.get_token E client_id client_secret token_url oauth_verify st)
      as [[t'|e] st1]; simpl in Ht; [|discriminate].
    destruct (Py.truthy t'); eexists; split; reflexivity.
Qed.

(** X10.  The request of [call_single_api] (for a configuration that
    names no preprocessor): the method is upper-cased with ["GET"] as the
    default, the timeout is 30, and the headers are the default headers
    updated with the headers of the configuration, so that for a key in
    both the value of the configuration is sent; without a ["Content-Type"]
    of its own a call is sent with ["application/json"]. *)
Theorem per_call_headers_win config st :
  no_preprocessor config ->
  NoDup (map fst (default [] (headers config))) ->
  exists base rq,
    fst (_prepare_headers E H st) = Val base /\
    Py.dict_get base "Content-Type" = Some (JStr "application/json") /\
    requests_of (trace (snd (call_single_api E R H config st)))
    = requests_of (trace st) ++ [rq] /\
    (forall k,
       Py.dict_get (rq_headers rq) k
       = match Py.dict_get (default [] (headers config)) k with
         | Some v => Some v
         | None => Py.dict_get base k
         end) /\
    rq_method rq = PyStr.upper (default "GET"%string (method config)) /\
    rq_url rq = url config /\
    rq_timeout rq = 30.
Proof.
  intros Hno Hnd. unfold call_single_api.
  assert (Hpre : apply_preprocess R config = ret config).
  { unfold apply_preprocess. unfold no_preprocessor in Hno.
    destruct (preprocess config); [now rewrite Hno | reflexivity]. }
  rewrite Hpre. rewrite (bind_val (ret config) _ st config st eq_refl).
  destruct (prepare_headers_content_type st) as [base [Hbase Hct]].
  pose proof (prepare_headers_silent request_of
                ltac:(reflexivity) ltac:(reflexivity) E H st) as Hs.
  destruct (_prepare_headers E H st) as [[base'|e] st1] eqn:Hph;
    simpl in Hbase, Hs; [|discriminate].
  injection Hbase as ->.
  rewrite (bind_val _ _ st base st1 Hph).
  match goal with
  | |- context [session_request E ?r] => set (rq := r)
  end.
  pose proof (try_block_adds_request E R config rq st1) as Hadd.
  subst rq. cbn [rq_method rq_url] in Hadd.
  exists base. eexists. split; [reflexivity|]. split; [exact Hct|].
  split; [unfold requests_of; rewrite Hadd, Hs; reflexivity|].
  cbn [rq_headers rq_method rq_url rq_timeout].
  split; [|auto]. intros k. now apply dict_get_update.
Qed.

End WithEnv.

Lemma per_call_headers_win_witness :
  exists base rq,
    fst (_prepare_headers (Sample.server Sample.not_found) Sample.basic_auth
           init_state) = Val base /\
    Py.dict_get base "Content-Type" = Some (JStr "application/json") /\
    requests_of
      (trace (snd (call_single_api (Sample.server Sample.not_found)
                     Registry.empty Sample.basic_auth
                     (Sample.api "/api/items") init_state)))
    = requests_of (trace init_state) ++ [rq] /\
    (forall k,
       Py.dict_get (rq_headers rq) k
       = match Py.dict_get (default [] (headers (Sample.api "/api/items"))) k with
         | Some v => Some v
         | None => Py.dict_get base k
         end) /\
    rq_method rq = PyStr.upper (default "GET"%string
                                  (method (Sample.api "/api/items"))) /\
    rq_url rq = url (Sample.api "/api/items") /\
    rq_timeout rq = 30.
Proof.
  apply (per_call_headers_win (Sample.server Sample.not_found) Registry.empty
           Sample.basic_auth (Sample.api "/api/items") init_state).
  - exact I.
  - constructor.
Defined.

End RequestShape.

(** ** Refreshing the token *)

Module TokenRefresh.
Import Effects APIHandler.

Section WithEnv.
Variable E : env.
Variables client_id client_secret token_url oauth_verify : json.

Let rq := TokenCache.refresh_request client_id client_secret token_url oauth_verify.
Let refresh := OAuth._request_new_token E client_id client_secret token_url oauth_verify.
Let get_token := OAuth.get_token E client_id client_secret token_url oauth_verify.

Lemma refresh_refused st :
  TokenCache.refused (token_endpoint E (n_tok st) rq) ->
  exists st',
    refresh st = (Val tt, st') /\
    token st' = JNull /\ token_expiry st' = None /\
    n_clock st' = n_clock st /\ n_tok st' = S (n_tok st) /\
    token_posts_of (trace st') = token_posts_of (trace st) ++ [rq].
Proof.
  intros Hrefused. subst refresh rq.
  unfold OAuth._request_new_token, try_except.
  unfold bind at 1, log at 1, emit at 1.
  unfold bind at 1, OAuth.post_token. cbn [n_tok with_trace].
  unfold TokenCache.refused, TokenCache.refresh_request in Hrefused.
  destruct (token_endpoint E (n_tok st) _) as [r|].
  - destruct Hrefused as [Hstatus | Hjson].
    + assert (Hc : (status_code r =? 200) = false) by (apply Z.eqb_neq; exact Hstatus).
      rewrite Hc. eexists. split; [reflexivity|]. simpl.
      unfold token_posts_of. rewrite !omap_app. simpl.
      rewrite !app_nil_r. auto 10.
    + destruct (status_code r =? 200).
      * unfold resp_json. rewrite Hjson. unfold bind at 1, raise.
        eexists. split; [reflexivity|]. simpl.
        unfold token_posts_of. rewrite !omap_app. simpl.
        rewrite !app_nil_r. auto 10.
      * eexists. split; [reflexivity|]. simpl.
        unfold token_posts_of. rewrite !omap_app. simpl.
        rewrite !app_nil_r. auto 10.
  - eexists. split; [reflexivity|]. simpl.
    unfold token_posts_of. rewrite !omap_app. simpl.
    rewrite !app_nil_r. auto 10.
Qed.

Lemma refresh_granted st access_token seconds ty :
  TokenCache.grants (token_endpoint E (n_tok st) rq) access_token seconds ty ->
  exists st',
    refresh st = (Val tt, st') /\
    token st' = access_token /\
    token_expiry st' = Some (clock E (n_clock st) + seconds * 1000000) /\
    token_type st' = PyStr.lower ty /\
    n_clock st' = S (n_clock st) /\ n_tok st' = S (n_tok st).
Proof.
  intros [r [fields [Hanswer [Hstatus [Hjson [Htok [Hexp Hty]]]]]]].
  subst refresh rq.
  unfold OAuth._request_new_token, try_except.
  unfold bind at 1, log at 1, emit at 1.
  unfold bind at 1, OAuth.post_token. cbn [n_tok with_trace].
  unfold TokenCache.refresh_request in Hanswer. rewrite Hanswer.
  rewrite Hstatus. cbn [Z.eqb Pos.eqb].
  unfold resp_json. rewrite Hjson.
  unfold bind at 1, ret at 1. unfold bind at 1, OAuth.data_get at 1, ret at 1.
  rewrite Htok.
  unfold bind at 1, set_token at 1.
  unfold bind at 1, OAuth.data_get at 1, ret at 1. rewrite Hexp.
  unfold bind at 1, OAuth.now at 1.
  unfold bind at 1, OAuth.timedelta_seconds, ret at 1.
  unfold bind at 1, set_token_expiry at 1.
  unfold bind at 1, OAuth.data_get at 1, ret at 1. rewrite Hty.
  unfold bind at 1, set_token_type at 1.
  eexists. split; [reflexivity|]. simpl. auto 10.
Qed.

(** X11.  A refresh that the token endpoint refuses (an exception, a status
    other than 200, a body that is no JSON) leaves no token and no expiry:
    [get_token] returns [None] without an exception, and the next call of
    [get_token] asks the endpoint again. *)
Theorem refused_refresh_is_retried st :
  OAuth.needs_refresh st (clock E (n_clock st)) = true ->
  TokenCache.refused (token_endpoint E (n_tok st) rq) ->
  exists st1,
    get_token st = (Val JNull, st1) /\
    token st1 = JNull /\ token_expiry st1 = None /\
    token_posts_of (trace st1) = token_posts_of (trace st) ++ [rq] /\
    exists st2 answer,
      get_token st1 = (Val answer, st2) /\
      token_posts_of (trace st2) = token_posts_of (trace st1) ++ [rq].
Proof.
  intros Hneed Hrefused. subst get_token. unfold OAuth.get_token.
  unfold bind at 1, OAuth.now at 1. unfold bind at 1, gets at 1.
  match goal with
  | |- context [OAuth.needs_refresh ?s ?t] =>
      change (OAuth.needs_refresh s t) with (OAuth.needs_refresh st t)
  end.
  rewrite Hneed.
  match goal with
  | |- context [bind (OAuth._request_new_token _ _ _ _ _) ?k ?s] =>
      destruct (refresh_refused s Hrefused)
        as [st1 [Hrun [Htok [Hexp [Hclock [Hntok Hposts]]]]]];
      unfold refresh in Hrun;
      rewrite (bind_val _ k s tt st1 Hrun)
  end.
  cbn [trace n_clock n_tok] in Hposts, Hclock, Hntok.
  exists st1. split; [unfold gets; now rewrite Htok|].
  split; [exact Htok|]. split; [exact Hexp|].
  split; [exact Hposts|].
  destruct (OAuthProperties.request_new_token_posts_once E client_id
              client_secret token_url oauth_verify) as [rq' Hadd].
  unfold bind at 1, OAuth.now at 1. unfold bind at 1, gets at 1.
  assert (Hneed1 : forall s t, token s = JNull -> OAuth.needs_refresh s t = true).
  { intros s t Hs. unfold OAuth.needs_refresh. now rewrite Hs. }
  rewrite Hneed1 by exact Htok.
  match goal with
  | |- context [bind ?m ?k ?s] =>
      pose proof (adds_bind_l token_post_of [rq'] m k Hadd
                    ltac:(intros; apply silent_gets) s) as Hrun2;
      destruct (SingleCall.request_new_token_total E client_id client_secret
                  token_url oauth_verify s) as [[] Htotal];
      destruct (m s) as [[[]|e] s2] eqn:Hm; simpl in Htotal; [|discriminate];
      unfold bind in Hrun2 |- *; rewrite Hm in Hrun2 |- *
  end.
  do 2 eexists. split; [reflexivity|].
  simpl in Hrun2 |- *. unfold token_posts_of.
  assert (Hrq : rq' = rq).
  { pose proof (Hadd st) as Hst.
    destruct (refresh_refused st Hrefused) as [s' [Hr' [_ [_ [_ [_ Hp']]]]]].
    subst refresh. rewrite Hr' in Hst. simpl in Hst.
    unfold token_posts_of in Hp'. rewrite Hp' in Hst.
    apply app_inv_head in Hst. now injection Hst. }
  rewrite <- Hrq. exact Hrun2.
Qed.

(** X12.  A refresh that the endpoint grants (status 200, a JSON mapping,
    a number of seconds in ["expires_in"] or the default 3600) stores the
    token and an expiry that many seconds after the clock reading; the
    token is what [get_token] returns.  When the lifetime is four hours
    or less the next [get_token] refreshes again, as soon as its clock
    reading is not before that of the refresh: such a token is used
    once. *)
Theorem granted_token_is_cached_for_its_lifetime st access_token seconds ty :
  OAuth.needs_refresh st (clock E (n_clock st)) = true ->
  TokenCache.grants (token_endpoint E (n_tok st) rq) access_token seconds ty ->
  exists st1,
    get_token st = (Val access_token, st1) /\
    token st1 = access_token /\
    token_expiry st1 = Some (clock E (S (n_clock st)) + seconds * 1000000) /\
    (seconds * 1000000 <= OAuth.four_hours ->
     clock E (S (n_clock st)) <= clock E (n_clock st1) ->
     OAuth.needs_refresh st1 (clock E (n_clock st1)) = true) /\
    (access_token <> JNull ->
     clock E (n_clock st1) + OAuth.four_hours
       < clock E (S (n_clock st)) + seconds * 1000000 ->
     OAuth.needs_refresh st1 (clock E (n_clock st1)) = false).
Proof.
  intros Hneed Hgrants. subst get_token. unfold OAuth.get_token.
  unfold bind at 1, OAuth.now at 1. unfold bind at 1, gets at 1.
  match goal with
  | |- context [OAuth.needs_refresh ?s ?t] =>
      change (OAuth.needs_refresh s t) with (OAuth.needs_refresh st t)
  end.
  rewrite Hneed.
  match goal with
  | |- context [bind (OAuth._request_new_token _ _ _ _ _) ?k ?s] =>
      destruct (refresh_granted s access_token seconds ty Hgrants)
        as [st1 [Hrun [Htok [Hexp [Hty [Hclock Hntok]]]]]];
      unfold refresh in Hrun;
      rewrite (bind_val _ k s tt st1 Hrun)
  end.
  cbn [n_clock] in Hexp.
  exists st1. split; [unfold gets; now rewrite Htok|].
  split; [exact Htok|]. split; [exact Hexp|].
  split.
  - intros Hshort Hmono. unfold OAuth.needs_refresh. rewrite Hexp.
    apply orb_true_iff; right. apply Z.leb_le. lia.
  - intros Hsome Hlong. unfold OAuth.needs_refresh. rewrite Hexp, Htok.
    apply orb_false_iff; split.
    + destruct access_token; try reflexivity. congruence.
    + apply Z.leb_gt. lia.
Qed.

End WithEnv.

Lemma refused_refresh_is_retried_witness :
  exists st1,
    OAuth.get_token TokenCache.refusing (JStr "id") (JStr "secret")
      (JStr "https://auth/token") (JBool true) init_state = (Val JNull, st1) /\
    token st1 = JNull /\ token_expiry st1 = None /\
    token_posts_of (trace st1)
    = token_posts_of (trace init_state)
      ++ [TokenCache.refresh_request (JStr "id") (JStr "secret")
            (JStr "https://auth/token") (JBool true)] /\
    exists st2 answer,
      OAuth.get_token TokenCache.refusing (JStr "id") (JStr "secret")
        (JStr "https://auth/token") (JBool true) st1 = (Val answer, st2) /\
      token_posts_of (trace st2)
      = token_posts_of (trace st1)
        ++ [TokenCache.refresh_request (JStr "id") (JStr "secret")
              (JStr "https://auth/token") (JBool true)].
Proof.
  apply (refused_refresh_is_retried TokenCache.refusing (JStr "id")
           (JStr "secret") (JStr "https://auth/token") (JBool true) init_state).
  - reflexivity.
  - left. discriminate.
Defined.

Lemma granted_token_is_cached_for_its_lifetime_witness :
  exists st1,
    OAuth.get_token Sample.granting (JStr "id") (JStr "secret")
      (JStr "https://auth/token") (JBool true) init_state
    = (Val (JStr "tok-2"), st1) /\
    token st1 = JStr "tok-2" /\
    token_expiry st1 = Some (3600 * 1000000) /\
    OAuth.needs_refresh st1 (clock Sample.granting (n_clock st1)) = true.
Proof.
  destruct (granted_token_is_cached_for_its_lifetime Sample.granting
              (JStr "id") (JStr "secret") (JStr "https://auth/token")
              (JBool true) init_state (JStr "tok-2") 3600 "bearer")
    as [st1 [Hrun [Htok [Hexp [Hshort _]]]]].
  - reflexivity.
  - do 2 eexists. repeat split; reflexivity.
  - exists st1. repeat split; try assumption.
    apply Hshort; [vm_compute; discriminate | simpl; lia].
Defined.

End TokenRefresh.

Module OAuthHeaders.
Import Effects APIHandler.

Section WithEnv.
Variable E : env.
Variables client_id client_secret token_url oauth_verify : json.

(** X13.  With an [OAuthHandler] whose token has to be refreshed: when the
    endpoint refuses, the default headers have no ["Authorization"] (the
    call goes on without credentials, no exception); when it grants a
    token that is a non-empty text, the header is ["Bearer "] followed by
    the token. *)
Theorem oauth_authorization_header H st :
  h_auth H = AuthOAuth client_id client_secret token_url oauth_verify ->
  OAuth.needs_refresh st (clock E (n_clock st)) = true ->
  let answer :=
    token_endpoint E (n_tok st)
      (TokenCache.refresh_request client_id client_secret token_url oauth_verify) in
  (TokenCache.refused answer ->
   fst (_prepare_headers E H st)
   = Val [("Content-Type"%string, JStr "application/json")]) /\
  (forall tok seconds ty,
     tok <> EmptyString ->
     TokenCache.grants answer (JStr tok) seconds ty ->
     fst (_prepare_headers E H st)
     = Val [("Content-Type"%string, JStr "application/json");
            ("Authorization"%string, JStr ("Bearer " +:+ tok))]).
Proof.
  intros Hauth Hneed answer.
  assert (Hget : forall st1 v,
            OAuth._request_new_token E client_id client_secret token_url
              oauth_verify
              {| trace := trace st; n_req := n_req st; n_tok := n_tok st;
                 n_clock := S (n_clock st); n_save := n_save st;
                 token := token st; token_expiry := token_expiry st;
                 token_type := token_type st |} = (Val tt, st1) ->
            token st1 = v ->
            OAuth.get_token E client_id client_secret token_url oauth_verify st
            = (Val v, st1)).
  { intros st1 v Hrun Htok. unfold OAuth.get_token.
    unfold bind at 1, OAuth.now at 1. unfold bind at 1, gets at 1.
    match goal with
    | |- context [OAuth.needs_refresh ?s ?t] =>
        change (OAuth.needs_refresh s t) with (OAuth.needs_refresh st t)
    end.
    rewrite Hneed. rewrite (bind_val _ _ _ tt st1 Hrun).
    unfold gets. now rewrite Htok. }
  split.
  - intros Hrefused.
    destruct (TokenRefresh.refresh_refused E client_id client_secret token_url
                oauth_verify
                {| trace := trace st; n_req := n_req st; n_tok := n_tok st;
                   n_clock := S (n_clock st); n_save := n_save st;
                   token := token st; token_expiry := token_expiry st;
                   token_type := token_type st |} Hrefused)
      as [st1 [Hrun [Htok _]]].
    unfold _prepare_headers. rewrite Hauth.
    rewrite (bind_val _ _ _ _ _ (Hget st1 JNull Hrun Htok)). reflexivity.
  - intros tok seconds ty Hnonempty Hgrants.
    destruct (TokenRefresh.refresh_granted E client_id client_secret token_url
                oauth_verify
                {| trace := trace st; n_req := n_req st; n_tok := n_tok st;
                   n_clock := S (n_clock st); n_save := n_save st;
                   token := token st; token_expiry := token_expiry st;
                   token_type := token_type st |} (JStr tok) seconds ty Hgrants)
      as [st1 [Hrun [Htok _]]].
    unfold _prepare_headers. rewrite Hauth.
    rewrite (bind_val _ _ _ _ _ (Hget st1 (JStr tok) Hrun Htok)).
    simpl. destruct (String.eqb tok EmptyString) eqn:Hempty; [|reflexivity].
    apply String.eqb_eq in Hempty. contradiction.
Qed.

End WithEnv.

Lemma oauth_authorization_header_witness :
  fst (_prepare_headers TokenCache.refusing TokenCache.oauth_handler init_state)
  = Val [("Content-Type"%string, JStr "application/json")] /\
  fst (_prepare_headers Sample.granting TokenCache.oauth_handler init_state)
  = Val [("Content-Type"%string, JStr "application/json");
         ("Authorization"%string, JStr "Bearer tok-2")].
Proof.
  split.
  - destruct (oauth_authorization_header TokenCache.refusing (JStr "id")
                (JStr "secret") (JStr "https://auth/token") (JBool true)
                TokenCache.oauth_handler init_state eq_refl eq_refl)
      as [Hrefused _].
    apply Hrefused. left. discriminate.
  - destruct (oauth_authorization_header Sample.granting (JStr "id")
                (JStr "secret") (JStr "https://auth/token") (JBool true)
                TokenCache.oauth_handler init_state eq_refl eq_refl)
      as [_ Hgranted].
    apply (Hgranted "tok-2"%string 3600 "bearer"%string); [discriminate|].
    do 2 eexists. repeat split; reflexivity.
Defined.

End OAuthHeaders.

(** ** Artifact file names *)

Module ArtifactNames.
Import PyStr Effects APIHandler Artifact.

#[local] Arguments String.append !s1 s2 : simpl nomatch.

Lemma has_char_cons c a s :
  has_char c (String a s) = ascii_eqb c a || has_char c s.
Proof.
  unfold has_char. simpl. destruct (ascii_eqb c a); reflexivity.
Qed.

Lemma has_char_empty c : has_char c EmptyString = false.
Proof. reflexivity. Qed.

Lemma has_char_app c a b :
  has_char c (a +:+ b) = has_char c a || has_char c b.
Proof.
  induction a as [|x a IH]; [reflexivity|].
  change (String x a +:+ b) with (String x (a +:+ b)).
  rewrite !has_char_cons, IH. apply orb_assoc.
Qed.

Lemma has_char_rev_app c s acc :
  has_char c (String.rev_app s acc) = has_char c s || has_char c acc.
Proof.
  revert acc. induction s as [|x s IH]; intros acc; [reflexivity|].
  change (String.rev_app (String x s) acc)
    with (String.rev_app s (String x acc)).
  rewrite IH, !has_char_cons.
  destruct (ascii_eqb c x), (has_char c s); reflexivity.
Qed.

Lemma has_char_rev c s : has_char c (String.rev s) = has_char c s.
Proof.
  unfold String.rev. rewrite has_char_rev_app, has_char_empty.
  apply orb_false_r.
Qed.

(** the fields of [split] are free of the separator *)
Lemma split_from_free sep cur s :
  has_char sep cur = false ->
  Forall (fun field => has_char sep field = false) (split_from sep cur s).
Proof.
  revert cur. induction s as [|c s IH]; intros cur Hcur; simpl.
  - constructor; [now rewrite has_char_rev | constructor].
  - destruct (ascii_eqb c sep) eqn:Hc.
    + constructor; [now rewrite has_char_rev | now apply IH].
    + apply IH. rewrite has_char_cons, Hcur, orb_false_r.
      unfold ascii_eqb in *. rewrite Ascii.eqb_sym. exact Hc.
Qed.

Lemma last_or_free sep l :
  Forall (fun field => has_char sep field = false) l ->
  has_char sep (last_or EmptyString l) = false.
Proof.
  unfold last_or. induction 1 as [|x l Hx Hl IH]; [reflexivity|].
  destruct l; [exact Hx | exact IH].
Qed.

(** replacing a character by ['_'] removes it, and brings no other
    character than ['_'] *)
Lemma replace_char_result old c s :
  has_char c (replace (String old EmptyString) "_" s)
  = if ascii_eqb c "_"
    then has_char c s || has_char old s
    else if ascii_eqb c old then false else has_char c s.
Proof.
  unfold replace. induction s as [|a s IH]; simpl.
  - destruct (ascii_eqb c "_"), (ascii_eqb c old); reflexivity.
  - destruct (ascii_eqb old a) eqn:Hold; simpl.
    + unfold ascii_eqb in Hold. apply Ascii.eqb_eq in Hold. subst a.
      change ("_" +:+ replace_from (String old EmptyString) "_" 0 s)
        with (String "_" (replace_from (String old EmptyString) "_" 0 s)).
      rewrite !has_char_cons, IH.
      destruct (ascii_eqb c "_") eqn:Hu, (ascii_eqb c old) eqn:Hc; simpl;
        try reflexivity.
      unfold ascii_eqb. rewrite Ascii.eqb_refl. simpl.
      now rewrite orb_true_r.
    + rewrite !has_char_cons, IH.
      destruct (ascii_eqb c "_") eqn:Hu, (ascii_eqb c old) eqn:Hc,
               (ascii_eqb c a) eqn:Ha; simpl; try reflexivity.
      all: unfold ascii_eqb in *;
        repeat match goal with
               | H : Ascii.eqb _ _ = true |- _ => apply Ascii.eqb_eq in H
               end; subst;
        rewrite ?Ascii.eqb_refl in *; try discriminate.
      all: now rewrite Hold.
Qed.

(** X14.  The name of an artifact file is built from the last segment of
    the endpoint: that part has no ['/'], no ['?'] and no ['&'], whatever
    the endpoint is; the name of an error artifact starts with
    ["error_"]; and the only file [_save_response] opens is the file of
    that name, with the time of the call. *)
Theorem artifact_names_are_sanitised E endpoint data is_error status st :
  has_char "/" (endpoint_name endpoint) = false /\
  has_char "?" (endpoint_name endpoint) = false /\
  has_char "&" (endpoint_name endpoint) = false /\
  (forall timestamp, startswith "error_" (filename endpoint true timestamp) = true) /\
  (exists files,
     opens_of (trace (snd (_save_response E (Some endpoint) data is_error
                             status st)))
     = opens_of (trace st) ++ files /\
     (files = [] \/
      files = [filename endpoint is_error (strftime E (clock E (n_clock st)))])).
Proof.
  assert (Hslash : has_char "/" (last_or EmptyString (split "/" endpoint)) = false).
  { apply last_or_free. unfold split. now apply split_from_free. }
  unfold endpoint_name.
  split; [|split; [|split; [|split]]].
  - rewrite !replace_char_result. simpl. exact Hslash.
  - rewrite !replace_char_result. reflexivity.
  - rewrite !replace_char_result. reflexivity.
  - intros timestamp. reflexivity.
  - unfold _save_response.
    unfold bind at 1, next_save at 1. unfold bind at 1, makedirs at 1.
    cbn [n_save].
    destruct (makedirs_ok E (n_save st)).
    2:{ exists []. rewrite app_nil_r. auto. }
    unfold emit at 1. unfold bind at 1, OAuth.now at 1.
    cbv beta zeta. cbn [n_clock with_trace].
    fold (endpoint_name endpoint).
    change (if is_error
            then "error_" +:+ endpoint_name endpoint +:+ "_"
                 +:+ strftime E (clock E (n_clock st)) +:+ ".log"
            else endpoint_name endpoint +:+ "_"
                 +:+ strftime E (clock E (n_clock st)) +:+ ".log")
      with (filename endpoint is_error (strftime E (clock E (n_clock st)))).
    set (name := filename endpoint is_error (strftime E (clock E (n_clock st)))).
    match goal with
    | |- context [try_except ?m ?h ?s] =>
        assert (Hopen : forall s0, exists files,
                  opens_of (trace (snd (try_except m h s0)))
                  = opens_of (trace s0) ++ files /\
                  (files = [] \/ files = [name]))
    end.
    { intros s0. unfold try_except, bind at 1, open_file.
      destruct (open_ok E (n_save st) name).
      - unfold emit at 1.
        match goal with
        | |- context [bind ?w ?k ?s1] =>
            assert (Hsil : silent open_of (bind w k)) by silent_auto;
            specialize (Hsil s1);
            destruct (bind w k s1) as [[[]|e] s2]; simpl in Hsil |- *
        end.
        + exists [name]. split; [|auto]. unfold opens_of.
          rewrite Hsil. simpl. now rewrite omap_app.
        + exists [name]. split; [|auto]. unfold opens_of.
          rewrite omap_app, Hsil. simpl. rewrite omap_app. simpl.
          now rewrite app_nil_r.
      - exists []. split; [|auto]. simpl. unfold opens_of.
        rewrite omap_app. simpl. now rewrite !app_nil_r. }
    match goal with
    | |- context [try_except ?m ?h ?s] => destruct (Hopen s) as [files [Hf Hor]]
    end.
    exists files. split; [|exact Hor].
    rewrite Hf. simpl. unfold opens_of. rewrite omap_app. simpl.
    now rewrite app_nil_r.
Qed.

End ArtifactNames.

(** ** Exceptions that leave [call_single_api] *)

Module Escapes.
Import Effects SingleCall APIHandler.

Lemma raises_bind_l {A C} e (m : M A) (k : A -> M C) :
  raises e m -> raises e (bind m k).
Proof.
  intros Hm st. destruct (Hm st) as [st' [Hrun Hreq]].
  exists st'. split; [now apply bind_exn | exact Hreq].
Qed.

Lemma raises_bind_yields {A C} e (v : A) (m : M A) (k : A -> M C) :
  yields v m -> raises e (k v) -> raises e (bind m k).
Proof.
  intros Hm Hk st. destruct (Hm st) as [st1 [Hrun Hreq]].
  destruct (Hk st1) as [st2 [Hrun2 Hreq2]].
  exists st2. rewrite (bind_val _ _ _ _ _ Hrun). split; [exact Hrun2|].
  now rewrite Hreq2.
Qed.

Section WithEnv.
Variable E : env.
Variable R : registry.
Variable H : handler.

(** with colliding arguments the preprocessing step raises [TypeError],
    after the log line that announces the preprocessor *)
Lemma apply_preprocess_collides config st :
  colliding preprocessor_parameters (preprocess config) = true ->
  exists name,
    apply_preprocess R config st
    = (Exn TypeError,
       with_trace st (trace st ++ [EvLog INFO (RunningPreprocessor name)])).
Proof.
  unfold colliding, apply_preprocess, preprocessor_parameters.
  destruct (preprocess config) as [hook|]; [|discriminate].
  destruct (name_set (hook_name hook)) as [name|]; [|discriminate].
  intros Hc. exists name.
  unfold bind at 1, log at 1, emit at 1.
  unfold bind at 1, check_kwargs. rewrite Hc. reflexivity.
Qed.

(** otherwise it returns a configuration, and it issues no transport
    call *)
Lemma apply_preprocess_returns config st :
  colliding preprocessor_parameters (preprocess config) = false ->
  exists config' st',
    apply_preprocess R config st = (Val config', st') /\
    requests_of (trace st') = requests_of (trace st).
Proof.
  intros Hc.
  pose proof (apply_preprocess_silent request_of
                ltac:(reflexivity) ltac:(reflexivity) R config st) as Hs.
  fold (requests_of (trace (snd (apply_preprocess R config st)))) in Hs.
  fold (requests_of (trace st)) in Hs.
  assert (Ht : exists config', fst (apply_preprocess R config st) = Val config').
  { unfold colliding, preprocessor_parameters in Hc. unfold apply_preprocess.
    destruct (preprocess config) as [hook|]; [|now exists config].
    destruct (name_set (hook_name hook)) as [name|]; [|now exists config].
    unfold bind at 1, log at 1, emit at 1.
    unfold bind at 1, check_kwargs. rewrite Hc. unfold ret at 1.
    unfold Registry.run_preprocessor.
    destruct (preprocessors R !! name) as [f|]; [|now exists config].
    unfold bind at 1, emit at 1.
    destruct (f config (default [] (hook_args hook))) as [[result|]|].
    - now exists result.
    - now exists config.
    - now exists config. }
  destruct Ht as [config' Hfst].
  destruct (apply_preprocess R config st) as [r st'] eqn:Hrun.
  simpl in Hfst, Hs. subst r. now exists config', st'.
Qed.

(** after the preprocessing step, [call_single_api] returns, and it
    issues one transport call *)
Lemma call_single_api_after_preprocess config st config' st1 :
  apply_preprocess R config st = (Val config', st1) ->
  exists res rq st2,
    call_single_api E R H config st = (Val res, st2) /\
    requests_of (trace st2) = requests_of (trace st1) ++ [rq] /\
    rq_url rq = url config'.
Proof.
  intros Hpre. unfold call_single_api.
  rewrite (bind_val _ _ st config' st1 Hpre).
  destruct (prepare_headers_total E H st1) as [hdrs Hh].
  pose proof (prepare_headers_silent request_of
                ltac:(reflexivity) ltac:(reflexivity) E H st1) as Hs.
  destruct (_prepare_headers E H st1) as [[hdrs'|e] st2] eqn:Hph;
    simpl in Hh, Hs; [|discriminate].
  rewrite (bind_val _ _ st1 hdrs' st2 Hph).
  match goal with
  | |- context [session_request E ?r] => set (rq := r)
  end.
  pose proof (try_block_adds_request E R config' rq st2) as Hadd.
  destruct (try_block_total
              (do* log INFO (Calling (rq_method rq) (rq_url rq)) in
               let* response := session_request E rq in
               process_response E R config' response)
              (ErrorCalling (rq_url rq)) st2) as [res Hres].
  subst rq. cbn [rq_method rq_url] in Hadd, Hres.
  match type of Hres with
  | fst (?m ?s) = _ => destruct (m s) as [r st3] eqn:Hrun
  end.
  simpl in Hres, Hadd. subst r.
  do 3 eexists. split; [reflexivity|]. split.
  - unfold requests_of. rewrite Hadd, Hs. reflexivity.
  - reflexivity.
Qed.

Lemma call_single_api_returns config st :
  colliding preprocessor_parameters (preprocess config) = false ->
  exists res rq st2,
    call_single_api E R H config st = (Val res, st2) /\
    requests_of (trace st2) = requests_of (trace st) ++ [rq].
Proof.
  intros Hc.
  destruct (apply_preprocess_returns config st Hc)
    as [config' [st1 [Hpre Hreq]]].
  destruct (call_single_api_after_preprocess config st config' st1 Hpre)
    as [res [rq [st2 [Hrun [Hreq2 _]]]]].
  exists res, rq, st2. split; [exact Hrun|]. now rewrite Hreq2, Hreq.
Qed.

Lemma call_single_api_raises config :
  colliding preprocessor_parameters (preprocess config) = true ->
  raises TypeError (call_single_api E R H config).
Proof.
  intros Hc st.
  destruct (apply_preprocess_collides config st Hc) as [name Hpre].
  eexists. unfold call_single_api.
  rewrite (bind_exn _ _ _ _ _ Hpre). split; [reflexivity|].
  simpl. unfold requests_of. rewrite omap_app. apply app_nil_r.
Qed.

(** X15.  The one exception that leaves [call_single_api] is the
    [TypeError] of preprocessor arguments that name a parameter of
    [run_preprocessor] ([name], [api_config], [self]): then nothing is
    sent, and the trace gets the line that announces the preprocessor and
    nothing else.  In every other case [call_single_api] returns, and it
    has issued exactly one transport call, whatever the hooks, the server
    and the file system do. *)
Theorem only_colliding_arguments_escape config st :
  (colliding preprocessor_parameters (preprocess config) = true ->
   exists name,
     call_single_api E R H config st
     = (Exn TypeError,
        with_trace st (trace st ++ [EvLog INFO (RunningPreprocessor name)]))) /\
  (colliding preprocessor_parameters (preprocess config) = false ->
   exists res rq st',
     call_single_api E R H config st = (Val res, st') /\
     requests_of (trace st') = requests_of (trace st) ++ [rq]).
Proof.
  split; intros Hc.
  - destruct (apply_preprocess_collides config st Hc) as [name Hpre].
    exists name. unfold call_single_api.
    now rewrite (bind_exn _ _ _ _ _ Hpre).
  - now apply call_single_api_returns.
Qed.

End WithEnv.

Lemma only_colliding_arguments_escape_witness :
  (exists name,
     call_single_api Fixtures.unreachable Sample.failing Sample.basic_auth
       (Collisions.shadowing "/a") init_state
     = (Exn TypeError,
        with_trace init_state
          (trace init_state ++ [EvLog INFO (RunningPreprocessor name)]))) /\
  (exists res rq st',
     call_single_api Fixtures.unreachable Sample.failing Sample.basic_auth
       (Collisions.with_preprocess "/a") init_state = (Val res, st') /\
     requests_of (trace st') = requests_of (trace init_state) ++ [rq]).
Proof.
  split.
  - apply (only_colliding_arguments_escape Fixtures.unreachable Sample.failing
             Sample.basic_auth (Collisions.shadowing "/a") init_state).
    reflexivity.
  - apply (only_colliding_arguments_escape Fixtures.unreachable Sample.failing
             Sample.basic_auth (Collisions.with_preprocess "/a") init_state).
    reflexivity.
Defined.

End Escapes.

(** ** The loops of [main] *)

Module MainLoops.
Import Effects SingleCall APIHandler Placeholders NestedCalls Escapes.

Section WithEnv.
Variable E : env.
Variable R : registry.
Variable H : handler.

(** the loop over the single APIs issues one transport call for each *)
Lemma single_loop_returns single_apis st :
  Forall (fun api => colliding preprocessor_parameters (preprocess api) = false)
    single_apis ->
  exists st' rqs,
    Main.single_loop E R H single_apis st = (Val tt, st') /\
    requests_of (trace st') = requests_of (trace st) ++ rqs /\
    length rqs = length single_apis.
Proof.
  intros Hall. revert st.
  induction Hall as [|api rest Hapi Hrest IH]; intros st; simpl.
  - exists st, []. now rewrite app_nil_r.
  - destruct (call_single_api_returns E R H api st Hapi)
      as [res [rq [st1 [Hrun Hreq]]]].
    destruct (IH st1) as [st2 [rqs [Hloop [Hreqs Hlen]]]].
    exists st2, (rq :: rqs). rewrite (bind_val _ _ _ _ _ Hrun).
    split; [exact Hloop|]. split.
    + rewrite Hreqs, Hreq, <- app_assoc. reflexivity.
    + simpl. now rewrite Hlen.
Qed.

(** X16.  The loop of [main] over the single APIs issues one transport
    call for each API, in the order of the configuration, until an API
    whose preprocessor arguments name a parameter of [run_preprocessor]:
    there the [TypeError] leaves both loops, so that neither this API, nor
    the single APIs after it, nor any nested API is called. *)
Theorem colliding_arguments_end_the_run before bad after nested_apis st :
  Forall (fun api => colliding preprocessor_parameters (preprocess api) = false)
    before ->
  colliding preprocessor_parameters (preprocess bad) = true ->
  exists st' rqs,
    Main.execute E R H (before ++ bad :: after) nested_apis st
    = (Exn TypeError, st') /\
    requests_of (trace st') = requests_of (trace st) ++ rqs /\
    length rqs = length before.
Proof.
  intros Hbefore Hbad. unfold Main.execute.
  assert (Hloop : exists st' rqs,
            Main.single_loop E R H (before ++ bad :: after) st
            = (Exn TypeError, st') /\
            requests_of (trace st') = requests_of (trace st) ++ rqs /\
            length rqs = length before).
  { revert st. induction Hbefore as [|api rest Hapi Hrest IH]; intros st; simpl.
    - destruct (call_single_api_raises E R H bad Hbad st) as [st' [Hrun Hreq]].
      exists st', []. rewrite (bind_exn _ _ _ _ _ Hrun).
      now rewrite app_nil_r.
    - destruct (call_single_api_returns E R H api st Hapi)
        as [res [rq [st1 [Hrun Hreq]]]].
      destruct (IH st1) as [st2 [rqs [Hl [Hreqs Hlen]]]].
      exists st2, (rq :: rqs). rewrite (bind_val _ _ _ _ _ Hrun).
      split; [exact Hl|]. split.
      + rewrite Hreqs, Hreq, <- app_assoc. reflexivity.
      + simpl. now rewrite Hlen. }
  destruct Hloop as [st' [rqs [Hl [Hreqs Hlen]]]].
  exists st', rqs. rewrite (bind_exn _ _ _ _ _ Hl). auto.
Qed.

(** the nested-call orchestrator raises when its parent's arguments
    collide, and in no other case *)
Lemma call_nested_apis_total parent children :
  colliding preprocessor_parameters (preprocess parent) = false ->
  total (call_nested_apis E R H parent children).
Proof.
  intros Hc st. unfold call_nested_apis.
  destruct (call_single_api_returns E R H parent st Hc)
    as [res [rq [st1 [Hrun _]]]].
  rewrite (bind_val _ _ _ _ _ Hrun).
  destruct res as [response|]; [|now exists tt].
  destruct (negb (response_ok response) || (400 <=? status_code response));
    [now exists tt|].
  apply total_try_except. intros s. now exists tt.
Qed.

(** X17.  When no single API and no parent of a nested API has colliding
    preprocessor arguments, the two loops of [main] run to their end,
    whatever the server, the token endpoint and the file system do,
    whatever the hooks do and whatever the children are (an exception of a
    child call stays in [call_nested_apis]); the loop over the single APIs
    has then issued one transport call for each of them. *)
Theorem the_run_reaches_its_end single_apis nested_apis st :
  Forall (fun api => colliding preprocessor_parameters (preprocess api) = false)
    single_apis ->
  Forall (fun pair => match pair with
                      | Some (parent_api, _) =>
                          colliding preprocessor_parameters (preprocess parent_api)
                          = false
                      | None => True
                      end) nested_apis ->
  exists st1 st2 rqs,
    Main.single_loop E R H single_apis st = (Val tt, st1) /\
    requests_of (trace st1) = requests_of (trace st) ++ rqs /\
    length rqs = length single_apis /\
    Main.nested_loop E R H nested_apis st1 = (Val tt, st2) /\
    Main.execute E R H single_apis nested_apis st = (Val tt, st2).
Proof.
  intros Hsingle Hnested.
  destruct (single_loop_returns single_apis st Hsingle)
    as [st1 [rqs [Hloop [Hreqs Hlen]]]].
  assert (Hn : forall s, exists s',
            Main.nested_loop E R H nested_apis s = (Val tt, s')).
  { induction Hnested as [|pair rest Hpair Hrest IH]; intros s; simpl.
    - now exists s.
    - destruct pair as [[parent_api child_apis]|]; [|apply IH].
      destruct (call_nested_apis_total parent_api child_apis Hpair s) as [[] Hv].
      destruct (call_nested_apis E R H parent_api child_apis s) as [r s1] eqn:Hrun.
      simpl in Hv. subst r.
      destruct (IH s1) as [s2 Hrest2].
      exists s2. now rewrite (bind_val _ _ _ _ _ Hrun). }
  destruct (Hn st1) as [st2 Hnl].
  exists st1, st2, rqs. repeat split; try assumption.
  unfold Main.execute. now rewrite (bind_val _ _ _ _ _ Hloop).
Qed.

Lemma call_child_raises parent_data item child :
  has_braces (both_passes parent_data item (default EmptyString (url child)))
  = false ->
  colliding preprocessor_parameters (preprocess child) = true ->
  raises TypeError (call_child E R H parent_data item child).
Proof.
  intros Hfinal Hc st. rewrite PlaceholderTest.call_child_cases.
  cbv zeta. rewrite Hfinal.
  set (original := default EmptyString (url child)).
  set (first := substitute item original).
  set (final := both_passes parent_data item original).
  set (st1 := if has_braces first
              then with_trace st
                     (trace st ++ [EvLog WARNING (PlaceholdersNotReplaced first)])
              else st).
  assert (Hst1 : requests_of (trace st1) = requests_of (trace st)).
  { unfold st1. destruct (has_braces first); [|reflexivity].
    simpl. unfold requests_of. rewrite omap_app. apply app_nil_r. }
  assert (Hi : raises TypeError (issue_child E R H child final original)).
  { unfold issue_child. apply (raises_bind_yields _ tt); [apply yields_log|].
    apply raises_bind_l. now apply call_single_api_raises. }
  destruct (Hi st1) as [st2 [Hrun Hreq]].
  exists st2. split; [exact Hrun | now rewrite Hreq].
Qed.

(** X18.  An exception of a child call does not leave
    [call_nested_apis], and it ends the nested call: when the first pair
    of item and child passes the placeholder test and the child's
    preprocessor arguments name a parameter of [run_preprocessor], the
    [TypeError] is caught by the orchestrator, which logs the error and
    the traceback and returns; no child call is sent, not for the other
    children and not for the other items. *)
Theorem colliding_child_ends_the_nested_call parent child rest st response st1
  parent_data target_data item more :
  call_single_api E R H parent st = (Val (Some response), st1) ->
  status_code response < 400 ->
  json_body response = Some parent_data ->
  (let path := default EmptyString (items_path parent) in
   if String.eqb path EmptyString then inr parent_data
   else navigate path (PyStr.split "." path) parent_data) = inr target_data ->
  Plan.items_of (default EmptyString (items_path parent)) target_data
  = item :: more ->
  has_braces (both_passes parent_data (Plan.item_fields item)
                (default EmptyString (url child))) = false ->
  colliding preprocessor_parameters (preprocess child) = true ->
  exists st2 t,
    call_nested_apis E R H parent (child :: rest) st = (Val tt, st2) /\
    requests_of (trace st2) = requests_of (trace st1) /\
    trace st2 = t ++ [EvLog ERROR ErrorNested; EvLog ERROR Traceback].
Proof.
  intros Hparent Hstatus Hjson Hfound Hitems Hfinal Hc.
  destruct (NestedProperties.parent_succeeded E R H parent (child :: rest) st
              response st1 Hparent Hstatus) as [body [handler [Hcall Hbody]]].
  assert (Hhandler : call_nested_apis E R H parent (child :: rest) st
                     = try_except body
                         (do* log ERROR ErrorNested in log ERROR Traceback) st1).
  { unfold call_nested_apis. rewrite (bind_val _ _ _ _ _ Hparent).
    assert (Hok : negb (response_ok response) || (400 <=? status_code response)
                  = false).
    { unfold response_ok.
      destruct (400 <=? status_code response) eqn:Hs; [lia | reflexivity]. }
    rewrite Hok. subst body. reflexivity. }
  set (path := default EmptyString (items_path parent)) in *.
  assert (Hr : raises TypeError body).
  { subst body. unfold resp_json. rewrite Hjson.
    apply (raises_bind_yields _ parent_data); [apply yields_ret|].
    apply (raises_bind_yields _ tt); [apply yields_log|].
    cbv zeta in Hfound |- *. fold path. rewrite Hfound.
    apply (raises_bind_yields _ (Plan.items_of path target_data)).
    - unfold Plan.items_of.
      destruct target_data;
        (eapply yields_bind; [apply yields_log | apply yields_ret]).
    - rewrite Hitems. simpl. apply raises_bind_l. unfold process_item.
      apply (raises_bind_yields _ (Plan.item_fields item)).
      + destruct item; try apply yields_ret;
          (eapply yields_bind; [apply yields_log | apply yields_ret]).
      + apply (raises_bind_yields _ tt); [apply yields_log|].
        simpl. apply raises_bind_l. now apply call_child_raises. }
  destruct (Hr st1) as [st' [Hrun Hreq]].
  rewrite Hhandler. unfold try_except. rewrite Hrun.
  eexists. exists (trace st'). split; [reflexivity|]. split.
  - simpl. unfold requests_of in *. rewrite !omap_app. simpl.
    rewrite !app_nil_r. exact Hreq.
  - simpl. now rewrite <- app_assoc.
Qed.

End WithEnv.
End MainLoops.

Module MainLoopsWitness.
Import APIHandler.

Lemma colliding_arguments_end_the_run_witness :
  exists st' rqs,
    Main.execute Fixtures.unreachable Sample.failing Sample.basic_auth
      ([Sample.api "/a"; Collisions.with_preprocess "/b"]
         ++ Collisions.shadowing "/c" :: [Sample.api "/d"])
      [Some (Sample.parent_api "/parent" "items", [Sample.api "/child/{id}"])]
      init_state
    = (Exn TypeError, st') /\
    requests_of (trace st') = requests_of (trace init_state) ++ rqs /\
    length rqs = 2%nat.
Proof.
  apply (MainLoops.colliding_arguments_end_the_run
           Fixtures.unreachable Sample.failing Sample.basic_auth
           [Sample.api "/a"; Collisions.with_preprocess "/b"]
           (Collisions.shadowing "/c") [Sample.api "/d"]
           [Some (Sample.parent_api "/parent" "items", [Sample.api "/child/{id}"])]
           init_state).
  - repeat constructor.
  - reflexivity.
Defined.

Lemma the_run_reaches_its_end_witness :
  exists st1 st2 rqs,
    Main.single_loop Fixtures.unreachable Sample.failing Sample.basic_auth
      [Sample.api "/a"; Collisions.with_preprocess "/b"] init_state
    = (Val tt, st1) /\
    requests_of (trace st1) = requests_of (trace init_state) ++ rqs /\
    length rqs = 2%nat /\
    Main.nested_loop Fixtures.unreachable Sample.failing Sample.basic_auth
      [Some (Sample.parent_api "/parent" "items", [Collisions.shadowing "/c/{id}"]);
       None] st1
    = (Val tt, st2) /\
    Main.execute Fixtures.unreachable Sample.failing Sample.basic_auth
      [Sample.api "/a"; Collisions.with_preprocess "/b"]
      [Some (Sample.parent_api "/parent" "items", [Collisions.shadowing "/c/{id}"]);
       None] init_state
    = (Val tt, st2).
Proof.
  apply (MainLoops.the_run_reaches_its_end
           Fixtures.unreachable Sample.failing Sample.basic_auth
           [Sample.api "/a"; Collisions.with_preprocess "/b"]
           [Some (Sample.parent_api "/parent" "items",
                  [Collisions.shadowing "/c/{id}"]);
            None]
           init_state).
  - repeat constructor.
  - repeat constructor.
Defined.

Lemma colliding_child_ends_the_nested_call_witness :
  exists st2 t,
    call_nested_apis (Sample.server (Sample.ok_json Sample.two_items))
      Sample.failing Sample.basic_auth
      (Sample.parent_api "/parent" "items")
      [Collisions.shadowing "/child/{id}"; Sample.api "/other/{id}"]
      init_state = (Val tt, st2) /\
    requests_of (trace st2)
    = requests_of
        (trace (snd (call_single_api
                       (Sample.server (Sample.ok_json Sample.two_items))
                       Sample.failing Sample.basic_auth
                       (Sample.parent_api "/parent" "items") init_state))) /\
    trace st2 = t ++ [EvLog ERROR ErrorNested; EvLog ERROR Traceback].
Proof.
  apply (MainLoops.colliding_child_ends_the_nested_call
           (Sample.server (Sample.ok_json Sample.two_items))
           Sample.failing Sample.basic_auth
           (Sample.parent_api "/parent" "items")
           (Collisions.shadowing "/child/{id}") [Sample.api "/other/{id}"]
           init_state (Sample.ok_json Sample.two_items) _ Sample.two_items
           (JList [JDict [("id"%string, JInt 1)]; JDict [("id"%string, JInt 2)]])
           (JDict [("id"%string, JInt 1)]) [JDict [("id"%string, JInt 2)]]).
  - vm_compute. reflexivity.
  - simpl. lia.
  - reflexivity.
  - reflexivity.
  - reflexivity.
  - vm_compute. reflexivity.
  - reflexivity.
Defined.

End MainLoopsWitness.
